(** * SmartWinnr chat backend: presence registry and event fan-out

    A shallow embedding of the Socket.IO layer of the backend
    (socketHandler.js and chatHandler.js) together with the Mongoose
    models it drives (Message.js, ChatRoom.js), the middleware that admits
    a socket (auth.js), and the REST controllers that work on the same
    rooms and messages (chatRoomController.js, messageController.js, with
    the pagination helpers they call).

    - JavaScript [Map] and [Set] objects keep insertion order and expose it
      (through [keys()] and spreading), so they are modelled as ordered
      association lists and ordered duplicate-free lists.
    - MongoDB collections are finite maps from document id to document;
      a Mongoose document fetched with [findById] is a value that is
      written back by [save].
    - [async] handlers are computations in a state-and-exception monad
      over the whole server state.  Every awaited collaborator call may
      reject; which calls do is decided by a schedule carried in the
      state.
    - Everything a handler sends is appended to an outbox, tagged with the
      Socket.IO addressing mode that was used.
    - A REST controller is a computation over the same state that ends
      with the response it sends or with the error it throws, an
      [AppError] with its status code or the rejection of an awaited call.
    - Handlers run one after the other, each to its end.  Node may switch
      to another handler at an [await]; every handler changes the registry
      before its first [await] only, so what a handler does to the
      registry does not depend on that.  What does depend on it is whether
      a handler runs at all: the connection handler registers the
      listeners of its socket after its [await], and a socket that closes
      before has no [disconnect] listener.  [socketServer] keeps track of
      the sockets that have their listeners. *)

From stdpp Require Import base option list strings gmap pretty sorting.


(** ** JavaScript containers *)

(** [Set] of strings: insertion ordered, no duplicates. *)
Module JsSet.
Abbreviation t := (list string).

Definition empty : t := [].

Definition has (s : t) (x : string) : bool := bool_decide (x ∈ s).

Definition add (s : t) (x : string) : t :=
  if has s x then s else s ++ [x].

Definition delete (s : t) (x : string) : t := filter (λ y, y ≠ x) s.

Definition size (s : t) : nat := length s.

(** [new Set(iterable)] *)
Definition of_list (l : list string) : t := foldl add empty l.

(** [[...s]] *)
Definition to_list (s : t) : list string := s.
End JsSet.

(** [Map] with string keys: insertion ordered; [set] on a key that is
    present keeps the key's position. *)
Module JsMap.
Abbreviation t V := (list (string * V)).

Definition empty {V} : t V := [].

Fixpoint get {V} (m : t V) (k : string) : option V :=
  match m with
  | [] => None
  | (k', v) :: m' => if decide (k' = k) then Some v else get m' k
  end.

Definition has {V} (m : t V) (k : string) : bool :=
  match get m k with Some _ => true | None => false end.

Fixpoint set {V} (m : t V) (k : string) (v : V) : t V :=
  match m with
  | [] => [(k, v)]
  | (k', v') :: m' =>
      if decide (k' = k) then (k', v) :: m' else (k', v') :: set m' k v
  end.

Definition delete {V} (m : t V) (k : string) : t V :=
  filter (λ kv, kv.1 ≠ k) m.

(** [[...m.keys()]] *)
Definition keys {V} (m : t V) : list string := m.*1.
End JsMap.

(** ** JavaScript strings *)

(** Strings are UTF-8 byte strings.  [String.prototype.trim] removes the
    characters of the ECMAScript classes WhiteSpace and LineTerminator from
    both ends: in UTF-8 six single bytes, one two-byte and eighteen
    three-byte sequences. *)
Module JsString.
(** TAB, LF, VT, FF, CR, SPACE *)
Definition white1 (a : Ascii.ascii) : bool :=
  let n := Ascii.nat_of_ascii a in
  (9 <=? n) && (n <=? 13) || (n =? 32).

(** U+00A0 *)
Definition white2 (a b : Ascii.ascii) : bool :=
  (Ascii.nat_of_ascii a =? 194) && (Ascii.nat_of_ascii b =? 160).

(** U+1680, U+2000 to U+200A, U+2028, U+2029, U+202F, U+205F, U+3000,
    U+FEFF *)
Definition white3 (a b c : Ascii.ascii) : bool :=
  let x := Ascii.nat_of_ascii a in
  let y := Ascii.nat_of_ascii b in
  let z := Ascii.nat_of_ascii c in
  (x =? 225) && (y =? 154) && (z =? 128)
  || (x =? 226) && (y =? 128)
     && ((128 <=? z) && (z <=? 138) || (z =? 168) || (z =? 169) || (z =? 175))
  || (x =? 226) && (y =? 129) && (z =? 159)
  || (x =? 227) && (y =? 128) && (z =? 128)
  || (x =? 239) && (y =? 187) && (z =? 191).

(** [trimStart], on the bytes in reading order. *)
Fixpoint trimStart (s : list Ascii.ascii) : list Ascii.ascii :=
  match s with
  | [] => []
  | a :: t =>
      if white1 a then trimStart t
      else match t with
           | b :: t2 =>
               if white2 a b then trimStart t2
               else match t2 with
                    | c :: t3 => if white3 a b c then trimStart t3 else s
                    | [] => s
                    end
           | [] => s
           end
  end.

(** [trimEnd], on the bytes in reverse order: a character shows its last
    byte first. *)
Fixpoint trimEndRev (s : list Ascii.ascii) : list Ascii.ascii :=
  match s with
  | [] => []
  | c :: t =>
      if white1 c then trimEndRev t
      else match t with
           | b :: t2 =>
               if white2 b c then trimEndRev t2
               else match t2 with
                    | a :: t3 => if white3 a b c then trimEndRev t3 else s
                    | [] => s
                    end
           | [] => s
           end
  end.

(** [s.trim()] *)
Definition trim (s : string) : string :=
  String.string_of_list_ascii
    (rev (trimEndRev (rev (trimStart (String.list_ascii_of_string s))))).
End JsString.

(** ** Documents *)

(** Dates are points of a discrete clock. *)
Definition Date := nat.

Module User.
Record t := mk {
  username : string;
  avatar : string;
  status : string;
  lastSeen : Date;
}.

(** The projection selected by [populate('sender', 'username avatar')]. *)
Record brief := mkBrief {
  b_id : string;
  b_username : string;
  b_avatar : string;
}.

Definition select (id : string) (u : t) : brief :=
  mkBrief id (username u) (avatar u).
End User.

Module Message.
Record media_t := mkMedia {
  url : string;
  publicId : string;
  filename : string;
  mimetype : string;
  size : nat;
}.

Record read_t := mkRead { reader : string; readAt : Date }.

Record t := mk {
  _id : string;
  chatRoom : string;
  sender : string;
  content : string;
  messageType : string;
  media : option media_t;
  readBy : list read_t;
  replyTo : option string;
  isDeleted : bool;
  deletedAt : option Date;
  isEdited : bool;
  editedAt : option Date;
  createdAt : Date;
}.

Definition deletedPlaceholder : string := "This message has been deleted".

(** [messageSchema.methods.softDelete] *)
Definition softDelete (this : t) (now : Date) : t :=
  mk (_id this) (chatRoom this) (sender this)
     deletedPlaceholder
     (messageType this)
     None
     (readBy this) (replyTo this)
     true (Some now)
     (isEdited this) (editedAt this) (createdAt this).

(** [messageSchema.methods.editContent]; the assignment to [content] goes
    through the schema's [trim] setter. *)
Definition editContent (this : t) (newContent : string) (now : Date) : t :=
  mk (_id this) (chatRoom this) (sender this)
     (JsString.trim newContent)
     (messageType this) (media this) (readBy this) (replyTo this)
     (isDeleted this) (deletedAt this)
     true (Some now)
     (createdAt this).

(** [messageSchema.methods.toJSON]: the plain object handed to clients.
    A field removed with [delete] is an absent ([None]) field. *)
Definition toJSON (this : t) : t :=
  let message := this in
  if isDeleted message
  then mk (_id message) (chatRoom message) (sender message)
          deletedPlaceholder
          (messageType message)
          None
          (readBy message) (replyTo message)
          (isDeleted message) (deletedAt message)
          (isEdited message) (editedAt message) (createdAt message)
  else message.

(** A message whose [sender] path has been populated; the populated
    value is [null] when the referenced user no longer exists. *)
Record populated := mkPopulated {
  doc : t;
  senderDoc : option User.brief;
}.
End Message.

Module ChatRoom.
Record participant := mkParticipant {
  user : string;
  role : string;
  joinedAt : Date;
  lastRead : Date;
}.

Record t := mk {
  _id : string;
  name : string;
  type : string;
  participants : list participant;
  creator : string;
  lastMessage : option string;
  isActive : bool;
}.

(** [chatRoomSchema.methods.isParticipant] *)
Definition isParticipant (this : t) (userId : string) : bool :=
  existsb (λ p, bool_decide (user p = userId)) (participants this).

Definition with_participants (this : t) (ps : list participant) : t :=
  mk (_id this) (name this) (type this) ps (creator this)
     (lastMessage this) (isActive this).

Definition with_lastMessage (this : t) (m : option string) : t :=
  mk (_id this) (name this) (type this) (participants this) (creator this)
     m (isActive this).

(** [chatRoomSchema.methods.addParticipant]; the schema defaults fill
    [joinedAt] and [lastRead] with the current date. *)
Definition addParticipant (this : t) (userId role : string) (now : Date) : t :=
  if negb (isParticipant this userId)
  then with_participants this
         (participants this ++ [mkParticipant userId role now now])
  else this.

(** [Array.prototype.find] followed by an in-place update of the
    element found: only the first match changes. *)
Fixpoint touchFirst (ps : list participant) (userId : string) (now : Date)
  : list participant :=
  match ps with
  | [] => []
  | p :: ps' =>
      if bool_decide (user p = userId)
      then mkParticipant (user p) (role p) (joinedAt p) now :: ps'
      else p :: touchFirst ps' userId now
  end.

(** [chatRoomSchema.methods.updateLastRead] *)
Definition updateLastRead (this : t) (userId : string) (now : Date) : t :=
  with_participants this (touchFirst (participants this) userId now).
End ChatRoom.

(** ** chatRoomController.js: what a new group is stored with *)

Module chatRoomController.
(** The [participantsList] of [createGroupChat]: the creator as admin, then
    one member entry for every id of the request body that is not the
    creator's.  [ChatRoom.create] fills [joinedAt] and [lastRead] with the
    current date. *)
Definition participantsList (userId : string) (participants : list string)
    (now : Date) : list ChatRoom.participant :=
  ChatRoom.mkParticipant userId "admin" now now
  :: ((λ id, ChatRoom.mkParticipant id "member" now now)
        <$> filter (λ id, id ≠ userId) participants).
End chatRoomController.

(** ** Server state *)

(** The three collections the socket layer reads and writes. *)
Record Db := mkDb {
  users : gmap string User.t;
  chatRooms : gmap string ChatRoom.t;
  messages : gmap string Message.t;
}.

(** The two module-level maps of socketHandler.js. *)
Record Registry := mkRegistry {
  onlineUsers : JsMap.t string;      (* socket id -> user id *)
  userSockets : JsMap.t JsSet.t;     (* user id -> Set of socket ids *)
}.

(** How an event was addressed. *)
Inductive Target :=
| ToSocket (socketId : string)                 (* socket.emit *)
| ToChannel (channel : string)                 (* io.to(channel).emit *)
| ToChannelExcept (channel socketId : string)  (* socket.to(channel).emit *)
| BroadcastExcept (socketId : string).         (* socket.broadcast.emit *)

Inductive Payload :=
| PUserOnline (userId username : string)
| PUserOffline (userId : string) (lastSeen : Date)
| PUsersOnline (onlineUserIds : list string)
| PMessage (message : Message.populated)
| PDeleted (messageId chatRoomId : string)
| PTyping (userId : string) (username : option string) (chatRoomId : string)
| PRead (userId chatRoomId : string)
| PNotification (chatRoomId messageId content : string)
                (sender : option User.brief) (createdAt : Date)
| PError (message : string).

Record Emit := mkEmit {
  target : Target;
  event : string;
  payload : Payload;
}.

#[global] Instance Target_eq_dec : EqDecision Target.
Proof. solve_decision. Defined.

Record World := mkWorld {
  db : Db;
  registry : Registry;
  adapter : gmap string (gset string); (* socket id -> channels it joined *)
  outbox : list Emit;                  (* everything sent, oldest first *)
  console : list string;               (* console.error lines *)
  faults : list bool;                  (* outcome of the next awaited calls:
                                          [true] rejects *)
  clock : Date;
  nextId : nat;                        (* ObjectId generator *)
}.

Definition with_db (d : Db) (w : World) : World :=
  mkWorld d (registry w) (adapter w) (outbox w) (console w) (faults w)
          (clock w) (nextId w).

Definition with_registry (r : Registry) (w : World) : World :=
  mkWorld (db w) r (adapter w) (outbox w) (console w) (faults w)
          (clock w) (nextId w).

Definition with_adapter (a : gmap string (gset string)) (w : World) : World :=
  mkWorld (db w) (registry w) a (outbox w) (console w) (faults w)
          (clock w) (nextId w).

Definition with_outbox (o : list Emit) (w : World) : World :=
  mkWorld (db w) (registry w) (adapter w) o (console w) (faults w)
          (clock w) (nextId w).

Definition with_console (c : list string) (w : World) : World :=
  mkWorld (db w) (registry w) (adapter w) (outbox w) c (faults w)
          (clock w) (nextId w).

Definition with_faults (f : list bool) (w : World) : World :=
  mkWorld (db w) (registry w) (adapter w) (outbox w) (console w) f
          (clock w) (nextId w).

Definition with_clock (t : Date) (w : World) : World :=
  mkWorld (db w) (registry w) (adapter w) (outbox w) (console w) (faults w)
          t (nextId w).

Definition with_nextId (n : nat) (w : World) : World :=
  mkWorld (db w) (registry w) (adapter w) (outbox w) (console w) (faults w)
          (clock w) n.

(** ** The handler monad *)

(** How a JavaScript computation completes: normally, or by throwing an
    [Error] with a message (for an [async] function: a promise that
    resolves, or one that rejects). *)
Inductive Completion (A : Type) :=
| Return (a : A)
| Throw (message : string).
Arguments Return {A} a.
Arguments Throw {A} message.

Definition M (A : Type) : Type := World → Completion A * World.

Definition ret {A} (a : A) : M A := λ w, (Return a, w).

Definition throw {A} (message : string) : M A := λ w, (Throw message, w).

Definition bind {A B} (m : M A) (k : A → M B) : M B :=
  λ w, match m w with
       | (Return a, w') => k a w'
       | (Throw e, w') => (Throw e, w')
       end.

Notation "x <- m ;; k" := (bind m (λ x, k))
  (at level 100, m at next level, right associativity).
Notation "m ;;; k" := (bind m (λ _, k))
  (at level 100, right associativity).

(** [try { m } catch (error) { h error }] *)
Definition try_catch {A} (m : M A) (h : string → M A) : M A :=
  λ w, match m w with
       | (Return a, w') => (Return a, w')
       | (Throw e, w') => h e w'
       end.

(** A call to an [async] function whose promise nobody awaits: it runs, and
    a rejection reaches no caller. *)
Definition detached (m : M unit) : M unit :=
  λ w, (Return tt, (m w).2).

Definition gets {A} (f : World → A) : M A := λ w, (Return (f w), w).

Definition modify (f : World → World) : M unit := λ w, (Return tt, f w).

Definition exec {A} (m : M A) (w : World) : World := (m w).2.

Definition collaboratorFailure : string := "collaborator call rejected".

(** Every awaited database call starts here: it takes the next entry of
    the schedule and rejects when that entry says so. *)
Definition await_ : M unit :=
  λ w, match faults w with
       | true :: fs => (Throw collaboratorFailure, with_faults fs w)
       | false :: fs => (Return tt, with_faults fs w)
       | [] => (Return tt, w)
       end.

(** [new Date()].  The clock stands still while a handler runs and moves
    between handlers ([Tick]); where the source reads it on both sides of
    an [await], the statements leave the later reading open. *)
Definition new_Date : M Date := gets clock.

Definition emit (t : Target) (ev : string) (p : Payload) : M unit :=
  modify (λ w, with_outbox (outbox w ++ [mkEmit t ev p]) w).

Definition console_error (line : string) : M unit :=
  modify (λ w, with_console (console w ++ [line]) w).

(** [for (const x of xs) { body x }] *)
Fixpoint for_of {A} (xs : list A) (body : A → M unit) : M unit :=
  match xs with
  | [] => ret tt
  | x :: xs' => body x ;;; for_of xs' body
  end.

(** Channel names. *)
Definition userChannel (userId : string) : string := "user:" +:+ userId.
Definition roomChannel (roomId : string) : string := "room:" +:+ roomId.

(** ** Collaborators: the Mongoose models *)

Module Users.
(** [User.findByIdAndUpdate(id, update)]: no document, no change. *)
Definition findByIdAndUpdate (id : string) (update : User.t → User.t) : M unit :=
  await_ ;;;
  modify (λ w, with_db (mkDb (alter update id (users (db w)))
                             (chatRooms (db w)) (messages (db w))) w).

Definition setOnline (u : User.t) : User.t :=
  User.mk (User.username u) (User.avatar u) "online" (User.lastSeen u).

Definition setOffline (now : Date) (u : User.t) : User.t :=
  User.mk (User.username u) (User.avatar u) "offline" now.
End Users.

Module ChatRooms.
(** [ChatRoom.findById] *)
Definition findById (id : string) : M (option ChatRoom.t) :=
  await_ ;;; gets (λ w, chatRooms (db w) !! id).

(** [chatRoom.save()] *)
Definition save (room : ChatRoom.t) : M unit :=
  await_ ;;;
  modify (λ w, with_db (mkDb (users (db w))
                             (<[ChatRoom._id room := room]> (chatRooms (db w)))
                             (messages (db w))) w).
End ChatRooms.

Module Messages.
(** [Message.findById] *)
Definition findById (id : string) : M (option Message.t) :=
  await_ ;;; gets (λ w, messages (db w) !! id).

(** [message.save()] *)
Definition save (message : Message.t) : M unit :=
  await_ ;;;
  modify (λ w, with_db (mkDb (users (db w)) (chatRooms (db w))
                             (<[Message._id message := message]> (messages (db w)))) w).

(** [Message.create({chatRoom, sender, content, messageType, replyTo})]:
    a new id, the schema defaults, the creation timestamp, and the content
    as the schema's [trim] setter leaves it.  A document that the schema's
    validators turn down (a content of more than 5000 characters) makes
    the call reject; that is one of the rejections of the schedule. *)
Definition create (chatRoom sender content messageType : string)
    (replyTo : option string) : M Message.t :=
  await_ ;;;
  n <- gets nextId ;;
  now <- new_Date ;;
  let message :=
    Message.mk ("msg" +:+ pretty n) chatRoom sender (JsString.trim content)
               messageType None [] replyTo false None false None now in
  modify (with_nextId (S n)) ;;;
  modify (λ w, with_db (mkDb (users (db w)) (chatRooms (db w))
                             (<[Message._id message := message]> (messages (db w)))) w) ;;;
  ret message.

(** [message.populate('sender', 'username avatar')] *)
Definition populate (message : Message.t) : M Message.populated :=
  await_ ;;;
  us <- gets (λ w, users (db w)) ;;
  ret (Message.mkPopulated message
         (User.select (Message.sender message) <$> us !! Message.sender message)).
End Messages.

(** ** chatHandler.js *)

Record Socket := mkSocket {
  id : string;
  userId : string;
  username : string;   (* socket.user.username *)
}.

Record SendData := mkSendData {
  sd_chatRoomId : string;
  sd_content : string;
  sd_replyTo : option string;
}.

Record EditData := mkEditData {
  ed_messageId : string;
  ed_content : string;
}.

Module chatHandler.

(** [...(replyTo && { replyTo })]: an absent or empty [replyTo] adds no
    field. *)
Definition truthy (replyTo : option string) : option string :=
  match replyTo with
  | Some r => if decide (r = "") then None else Some r
  | None => None
  end.

Definition handleSendMessage (socket : Socket) (data : SendData)
  : M Message.populated :=
  let chatRoomId := sd_chatRoomId data in
  let userId := userId socket in
  chatRoom <- ChatRooms.findById chatRoomId ;;
  match chatRoom with
  | None => throw "Chat room not found"
  | Some chatRoom =>
      if negb (ChatRoom.isParticipant chatRoom userId)
      then throw "You are not a member of this chat room"
      else
        message <- Messages.create chatRoomId userId (sd_content data) "text"
                     (truthy (sd_replyTo data)) ;;
        ChatRooms.save
          (ChatRoom.with_lastMessage chatRoom (Some (Message._id message))) ;;;
        Messages.populate message
  end.

Definition handleEditMessage (socket : Socket) (data : EditData)
  : M Message.populated :=
  let userId := userId socket in
  message <- Messages.findById (ed_messageId data) ;;
  match message with
  | None => throw "Message not found"
  | Some message =>
      if negb (bool_decide (Message.sender message = userId))
      then throw "You can only edit your own messages"
      else if Message.isDeleted message
      then throw "Cannot edit deleted message"
      else
        now <- new_Date ;;
        let message := Message.editContent message (ed_content data) now in
        Messages.save message ;;;
        Messages.populate message
  end.

Definition handleDeleteMessage (socket : Socket) (messageId : string)
  : M (string * string) :=
  let userId := userId socket in
  message <- Messages.findById messageId ;;
  match message with
  | None => throw "Message not found"
  | Some message =>
      if negb (bool_decide (Message.sender message = userId))
      then throw "You can only delete your own messages"
      else
        let chatRoomId := Message.chatRoom message in
        now <- new_Date ;;
        Messages.save (Message.softDelete message now) ;;;
        ret (messageId, chatRoomId)
  end.

Definition handleMarkAsRead (socket : Socket) (chatRoomId : string) : M unit :=
  let userId := userId socket in
  chatRoom <- ChatRooms.findById chatRoomId ;;
  match chatRoom with
  | None => throw "Chat room not found"
  | Some chatRoom =>
      if negb (ChatRoom.isParticipant chatRoom userId)
      then throw "You are not a member of this chat room"
      else
        now <- new_Date ;;
        ChatRooms.save (ChatRoom.updateLastRead chatRoom userId now)
  end.

(** [message.sender._id]: reading a property of [null] throws. *)
Definition sender_id (message : Message.populated) : M string :=
  match Message.senderDoc message with
  | Some s => ret (User.b_id s)
  | None => throw "TypeError: Cannot read properties of null (reading '_id')"
  end.

Definition notification (chatRoomId : string) (message : Message.populated)
  : Payload :=
  PNotification chatRoomId
    (Message._id (Message.doc message))
    (Message.content (Message.doc message))
    (Message.senderDoc message)
    (Message.createdAt (Message.doc message)).

(** One turn of the loop over [chatRoom.participants]. *)
Definition notifyOne (chatRoomId : string) (message : Message.populated)
    (participant : ChatRoom.participant) : M unit :=
  let participantId := ChatRoom.user participant in
  senderId <- sender_id message ;;
  if bool_decide (participantId = senderId)
  then ret tt
  else
    emit (ToChannel (userChannel participantId)) "notification:message"
         (notification chatRoomId message).

(** The [userSockets] argument of the source is never read, so it is not
    an argument here. *)
Definition notifyParticipants (chatRoomId : string)
    (message : Message.populated) : M unit :=
  try_catch
    (chatRoom <- ChatRooms.findById chatRoomId ;;
     match chatRoom with
     | None => ret tt
     | Some chatRoom =>
         for_of (ChatRoom.participants chatRoom) (notifyOne chatRoomId message)
     end)
    (λ error, console_error ("Error notifying participants: " +:+ error)).

End chatHandler.

(** ** socketHandler.js *)

Module socketHandler.

Definition socket_join (socketId channel : string) : M unit :=
  modify (λ w, with_adapter
                 (<[socketId := {[channel]} ∪ default ∅ (adapter w !! socketId)]>
                    (adapter w)) w).

Definition socket_leave (socketId channel : string) : M unit :=
  modify (λ w, with_adapter
                 (<[socketId := default ∅ (adapter w !! socketId) ∖ {[channel]}]>
                    (adapter w)) w).

Definition modify_registry (f : Registry → Registry) : M unit :=
  modify (λ w, with_registry (f (registry w)) w).

Definition update_registry {A} (f : Registry → Registry * A) : M A :=
  λ w, (Return (f (registry w)).2, with_registry (f (registry w)).1 w).

(** [[...new Set([...userSockets.keys()])]] *)
Definition getOnlineUsers (r : Registry) : list string :=
  JsSet.to_list (JsSet.of_list (JsMap.keys (userSockets r))).

(** [userSockets.has(userId)] *)
Definition isUserOnline (r : Registry) (userId : string) : bool :=
  JsMap.has (userSockets r) userId.

(** [userSockets.get(userId) || new Set()] *)
Definition getUserSockets (r : Registry) (userId : string) : JsSet.t :=
  match JsMap.get (userSockets r) userId with
  | Some s => s
  | None => JsSet.empty
  end.

(** The synchronous head of the connection handler.  The [Set] stored in
    the map is mutated in place; writing the grown set back under its key
    is the same map, since [set] keeps the position of a present key. *)
Definition track (socket : Socket) (r : Registry) : Registry :=
  let onlineUsers := JsMap.set (onlineUsers r) (id socket) (userId socket) in
  let userSockets :=
    if negb (JsMap.has (userSockets r) (userId socket))
    then JsMap.set (userSockets r) (userId socket) JsSet.empty
    else userSockets r in
  let userSockets :=
    match JsMap.get userSockets (userId socket) with
    | Some s => JsMap.set userSockets (userId socket) (JsSet.add s (id socket))
    | None => userSockets
    end in
  mkRegistry onlineUsers userSockets.

(** [io.on('connection', ...)], up to the registration of the socket's
    listeners. *)
Definition onConnection (socket : Socket) : M unit :=
  modify_registry (track socket) ;;;
  Users.findByIdAndUpdate (userId socket) Users.setOnline ;;;
  socket_join (id socket) (userChannel (userId socket)) ;;;
  emit (BroadcastExcept (id socket)) "user:online"
       (PUserOnline (userId socket) (username socket)) ;;;
  onlineUserIds <- gets (λ w, getOnlineUsers (registry w)) ;;
  emit (ToSocket (id socket)) "users:online" (PUsersOnline onlineUserIds).

Definition onRoomJoin (socket : Socket) (roomId : string) : M unit :=
  socket_join (id socket) (roomChannel roomId).

Definition onRoomLeave (socket : Socket) (roomId : string) : M unit :=
  socket_leave (id socket) (roomChannel roomId).

Definition emitError (socket : Socket) (message : string) : M unit :=
  emit (ToSocket (id socket)) "error" (PError message).

(** [notifyParticipants] is called without [await]: it is outside the
    reach of the handler's [catch]. *)
Definition onMessageSend (socket : Socket) (data : SendData) : M unit :=
  sent <- try_catch
            (message <- chatHandler.handleSendMessage socket data ;;
             emit (ToChannel (roomChannel (sd_chatRoomId data))) "message:new"
                  (PMessage message) ;;;
             ret (Some message))
            (λ error, emitError socket error ;;; ret None) ;;
  match sent with
  | Some message =>
      detached (chatHandler.notifyParticipants (sd_chatRoomId data) message)
  | None => ret tt
  end.

Definition onMessageEdit (socket : Socket) (data : EditData) : M unit :=
  try_catch
    (message <- chatHandler.handleEditMessage socket data ;;
     emit (ToChannel (roomChannel (Message.chatRoom (Message.doc message))))
          "message:edited" (PMessage message))
    (emitError socket).

Definition onMessageDelete (socket : Socket) (messageId : string) : M unit :=
  try_catch
    (result <- chatHandler.handleDeleteMessage socket messageId ;;
     emit (ToChannel (roomChannel result.2)) "message:deleted"
          (PDeleted result.1 result.2))
    (emitError socket).

Definition onTypingStart (socket : Socket) (chatRoomId : string) : M unit :=
  emit (ToChannelExcept (roomChannel chatRoomId) (id socket)) "typing:start"
       (PTyping (userId socket) (Some (username socket)) chatRoomId).

Definition onTypingStop (socket : Socket) (chatRoomId : string) : M unit :=
  emit (ToChannelExcept (roomChannel chatRoomId) (id socket)) "typing:stop"
       (PTyping (userId socket) None chatRoomId).

Definition onMessagesRead (socket : Socket) (chatRoomId : string) : M unit :=
  try_catch
    (chatHandler.handleMarkAsRead socket chatRoomId ;;;
     emit (ToChannelExcept (roomChannel chatRoomId) (id socket)) "messages:read"
          (PRead (userId socket) chatRoomId))
    (emitError socket).

(** The synchronous head of the disconnect handler: the new registry, and
    whether the user's last socket went away.  An empty [Set] is truthy,
    so [if (userSocketSet)] only asks whether the key is present. *)
Definition untrack (socket : Socket) (r : Registry) : Registry * bool :=
  let onlineUsers := JsMap.delete (onlineUsers r) (id socket) in
  match JsMap.get (userSockets r) (userId socket) with
  | Some userSocketSet =>
      let userSocketSet := JsSet.delete userSocketSet (id socket) in
      if Nat.eqb (JsSet.size userSocketSet) 0
      then (mkRegistry onlineUsers (JsMap.delete (userSockets r) (userId socket)),
            true)
      else (mkRegistry onlineUsers
              (JsMap.set (userSockets r) (userId socket) userSocketSet),
            false)
  | None => (mkRegistry onlineUsers (userSockets r), false)
  end.

Definition onDisconnect (socket : Socket) : M unit :=
  last <- update_registry (untrack socket) ;;
  if last : bool
  then
    now <- new_Date ;;
    Users.findByIdAndUpdate (userId socket) (Users.setOffline now) ;;;
    now' <- new_Date ;;
    emit (BroadcastExcept (id socket)) "user:offline"
         (PUserOffline (userId socket) now')
  else ret tt.

(** The events that the listeners are for.  Socket.IO has already taken
    a disconnected socket out of every channel when its [disconnect]
    listener runs.  [Tick] lets time pass, and [Rest] stands for the REST
    controllers changing the collections between two socket events. *)
Inductive ClientEvent :=
| Connection (socket : Socket)
| RoomJoin (socket : Socket) (roomId : string)
| RoomLeave (socket : Socket) (roomId : string)
| MessageSend (socket : Socket) (data : SendData)
| MessageEdit (socket : Socket) (data : EditData)
| MessageDelete (socket : Socket) (messageId : string)
| TypingStart (socket : Socket) (chatRoomId : string)
| TypingStop (socket : Socket) (chatRoomId : string)
| MessagesRead (socket : Socket) (chatRoomId : string)
| Disconnect (socket : Socket)
| Tick
| Rest (d : Db).

(** What the listener of an event does when it runs.  Whether it runs is
    another matter: the listeners of a socket, the one of [disconnect]
    among them, exist only once the connection handler is past its
    [await]; [socketServer.receive] below decides that. *)
Definition handle (ev : ClientEvent) : M unit :=
  match ev with
  | Connection socket => onConnection socket
  | RoomJoin socket roomId => onRoomJoin socket roomId
  | RoomLeave socket roomId => onRoomLeave socket roomId
  | MessageSend socket data => onMessageSend socket data
  | MessageEdit socket data => onMessageEdit socket data
  | MessageDelete socket messageId => onMessageDelete socket messageId
  | TypingStart socket chatRoomId => onTypingStart socket chatRoomId
  | TypingStop socket chatRoomId => onTypingStop socket chatRoomId
  | MessagesRead socket chatRoomId => onMessagesRead socket chatRoomId
  | Disconnect socket =>
      modify (λ w, with_adapter (delete (id socket) (adapter w)) w) ;;;
      onDisconnect socket
  | Tick => modify (λ w, with_clock (S (clock w)) w)
  | Rest d => modify (with_db d)
  end.

(** A handler that ends by throwing is an unhandled rejection: what it
    did before stays done. *)
Definition step (w : World) (ev : ClientEvent) : World := exec (handle ev) w.

(** A sequence of listener runs, each event finding its listener. *)
Definition run (evs : list ClientEvent) (w : World) : World :=
  foldl step w evs.

(** The server right after start-up. *)
Definition boot (d : Db) (schedule : list bool) (now : Date) : World :=
  mkWorld d (mkRegistry JsMap.empty JsMap.empty) ∅ [] [] schedule now 0.

End socketHandler.

(** ** Vocabulary of the statements *)

(** What a computation started in [w] sends. *)
Definition emitted {A} (m : M A) (w : World) : list Emit :=
  drop (length (outbox w)) (outbox (exec m w)).

(** The next [n] awaited collaborator calls resolve. *)
Definition resolves (n : nat) (w : World) : bool :=
  forallb negb (take n (faults w)).

(** The computation started in [w] ends normally. *)
Definition returns {A} (m : M A) (w : World) : bool :=
  match (m w).1 with
  | Return _ => true
  | Throw _ => false
  end.

(** The computation leaves a component of the state as it found it,
    however it ends. *)
Definition preserves {A X} (part : World → X) (m : M A) : Prop :=
  ∀ w, part (m w).2 = part w.

Definition errorTo (socket : Socket) (message : string) : Emit :=
  mkEmit (ToSocket (id socket)) "error" (PError message).

Definition countEvent (name : string) (evs : list Emit) : nat :=
  length (filter (λ e, event e = name) evs).

(** Notifications sent on the private channel of [userId]. *)
Definition notifiedOn (userId : string) (evs : list Emit) : nat :=
  length (filter (λ e, target e = ToChannel (userChannel userId)
                       ∧ event e = "notification:message") evs).

(** Entries of [userId] in the participants array of a room. *)
Definition entries (userId : string) (room : ChatRoom.t) : nat :=
  length (filter (λ p, ChatRoom.user p = userId) (ChatRoom.participants room)).

Definition isMember (w : World) (userId roomId : string) : bool :=
  match chatRooms (db w) !! roomId with
  | Some room => ChatRoom.isParticipant room userId
  | None => false
  end.

Definition isAuthor (w : World) (userId messageId : string) : bool :=
  match messages (db w) !! messageId with
  | Some message => bool_decide (Message.sender message = userId)
  | None => false
  end.

(** The check the handler of an event makes on its actor: room membership
    for sending and read receipts, authorship for editing and deleting.
    The other handlers make none. *)
Definition guard (w : World) (ev : socketHandler.ClientEvent) : bool :=
  match ev with
  | socketHandler.MessageSend s data => isMember w (userId s) (sd_chatRoomId data)
  | socketHandler.MessagesRead s roomId => isMember w (userId s) roomId
  | socketHandler.MessageEdit s data => isAuthor w (userId s) (ed_messageId data)
  | socketHandler.MessageDelete s messageId => isAuthor w (userId s) messageId
  | _ => true
  end.

Definition actor (ev : socketHandler.ClientEvent) : option Socket :=
  match ev with
  | socketHandler.Connection s | socketHandler.RoomJoin s _
  | socketHandler.RoomLeave s _ | socketHandler.MessageSend s _
  | socketHandler.MessageEdit s _ | socketHandler.MessageDelete s _
  | socketHandler.TypingStart s _ | socketHandler.TypingStop s _
  | socketHandler.MessagesRead s _ | socketHandler.Disconnect s => Some s
  | socketHandler.Tick | socketHandler.Rest _ => None
  end.

(** The socket has joined the channel. *)
Definition joinedTo (w : World) (socketId channel : string) : Prop :=
  channel ∈ default ∅ (adapter w !! socketId).

(** No user is kept in [userSockets] with an empty set of sockets. *)
Definition registry_ok (r : Registry) : Prop :=
  Forall (λ kv, kv.2 ≠ []) (userSockets r).

(** The sockets of one user, one per socket id. *)
Definition tabs (userId username : string) (socketIds : list string)
  : list Socket :=
  (λ socketId, mkSocket socketId userId username) <$> socketIds.

(** What an event does to the registry. *)
Definition registry_after (ev : socketHandler.ClientEvent) (r : Registry)
  : Registry :=
  match ev with
  | socketHandler.Connection socket => socketHandler.track socket r
  | socketHandler.Disconnect socket => (socketHandler.untrack socket r).1
  | _ => r
  end.

(** The notification that [notifyParticipants] addresses to one
    participant. *)
Definition notice (chatRoomId : string) (message : Message.populated)
    (participant : ChatRoom.participant) : Emit :=
  mkEmit (ToChannel (userChannel (ChatRoom.user participant)))
         "notification:message"
         (chatHandler.notification chatRoomId message).

(** The participants entries other than the sender's, in array order. *)
Definition others (senderId : string) (room : ChatRoom.t)
  : list ChatRoom.participant :=
  filter (λ p, ChatRoom.user p ≠ senderId) (ChatRoom.participants room).

(** ** Sample data *)

Module Sample.
Import socketHandler.

Definition userA : User.t := User.mk "alice" "" "offline" 0.
Definition userB : User.t := User.mk "bob" "" "offline" 0.
Definition userC : User.t := User.mk "carol" "" "offline" 0.
Definition userX : User.t := User.mk "xavier" "" "offline" 0.

Definition member (userId : string) : ChatRoom.participant :=
  ChatRoom.mkParticipant userId "member" 0 0.

(** A group of three. *)
Definition roomR1 : ChatRoom.t :=
  ChatRoom.mk "R1" "team" "group"
    [ChatRoom.mkParticipant "A" "admin" 0 0; member "B"; member "C"]
    "A" None true.

(** What [createGroupChat] stores for creator A and the request body
    [participants: ["B", "B"]]. *)
Definition roomR2 : ChatRoom.t :=
  ChatRoom.mk "R2" "pair" "group"
    (chatRoomController.participantsList "A" ["B"; "B"] 0)
    "A" None true.

(** A message of A, and one that A has already deleted at time 3. *)
Definition messageM1 : Message.t :=
  Message.mk "M1" "R1" "A" "hello" "text" None [] None
             false None false None 1.

Definition messageM2 : Message.t :=
  Message.mk "M2" "R1" "A" "This message has been deleted" "text" None [] None
             true (Some 3) false None 2.

(** A message of A in the group R2, and one whose room no longer exists. *)
Definition messageM3 : Message.t :=
  Message.mk "M3" "R2" "A" "hi all" "text" None [] None
             false None false None 4.

Definition messageM4 : Message.t :=
  Message.mk "M4" "gone" "A" "anyone?" "text" None [] None
             false None false None 5.

Definition sampleDb : Db :=
  mkDb (<["A" := userA]> (<["B" := userB]> (<["C" := userC]>
          (<["X" := userX]> ∅))))
       (<["R1" := roomR1]> (<["R2" := roomR2]> ∅))
       (<["M1" := messageM1]> (<["M2" := messageM2]> (<["M3" := messageM3]>
          (<["M4" := messageM4]> ∅)))).

(** Started at time 7, with no collaborator call rejecting. *)
Definition w0 : World := boot sampleDb [] 7.

Definition sA1 : Socket := mkSocket "sA1" "A" "alice".
Definition sA2 : Socket := mkSocket "sA2" "A" "alice".
Definition sA3 : Socket := mkSocket "sA3" "A" "alice".
Definition sB1 : Socket := mkSocket "sB1" "B" "bob".
Definition sX1 : Socket := mkSocket "sX1" "X" "xavier".

Definition populatedBy (userId : string) (u : User.t) (m : Message.t)
  : Message.populated :=
  Message.mkPopulated m (Some (User.select userId u)).
End Sample.

(** ** More of the models *)

Module MessageMethods.
Definition with_readBy (this : Message.t) (rs : list Message.read_t) : Message.t :=
  Message.mk (Message._id this) (Message.chatRoom this) (Message.sender this)
             (Message.content this) (Message.messageType this)
             (Message.media this) rs (Message.replyTo this)
             (Message.isDeleted this) (Message.deletedAt this)
             (Message.isEdited this) (Message.editedAt this)
             (Message.createdAt this).

(** [messageSchema.methods.markAsRead] *)
Definition markAsRead (this : Message.t) (userId : string) (now : Date)
  : Message.t :=
  let alreadyRead :=
    existsb (λ r, bool_decide (Message.reader r = userId)) (Message.readBy this) in
  if negb alreadyRead && negb (bool_decide (Message.sender this = userId))
  then with_readBy this (Message.readBy this ++ [Message.mkRead userId now])
  else this.

Definition readers (this : Message.t) : list string :=
  Message.reader <$> Message.readBy this.
End MessageMethods.

Module ChatRoomMethods.
(** [chatRoomSchema.methods.isAdmin]: the first entry of the user
    decides. *)
Definition isAdmin (this : ChatRoom.t) (userId : string) : bool :=
  match find (λ p, bool_decide (ChatRoom.user p = userId))
             (ChatRoom.participants this) with
  | Some participant => bool_decide (ChatRoom.role participant = "admin")
  | None => false
  end.

(** [chatRoomSchema.methods.removeParticipant] *)
Definition removeParticipant (this : ChatRoom.t) (userId : string) : ChatRoom.t :=
  ChatRoom.with_participants this
    (filter (λ p, ChatRoom.user p ≠ userId) (ChatRoom.participants this)).

Definition members (this : ChatRoom.t) : list string :=
  ChatRoom.user <$> ChatRoom.participants this.
End ChatRoomMethods.

(** ** ChatRoom.js: the private chat of two users *)

Module ChatRoomStatics.
(** The query [{ type: 'private', 'participants.user': { $all: [userId1,
    userId2] }, $expr: { $eq: [{ $size: '$participants' }, 2] } }]. *)
Definition privateBetween (userId1 userId2 : string) (room : ChatRoom.t) : bool :=
  bool_decide (ChatRoom.type room = "private")
  && (ChatRoom.isParticipant room userId1 && ChatRoom.isParticipant room userId2)
  && (length (ChatRoom.participants room) =? 2).

(** [ChatRoom.findOne(query)]: the first match of the collection scan. *)
Definition findOne (query : ChatRoom.t → bool) : M (option ChatRoom.t) :=
  await_ ;;;
  gets (λ w, head (filter (λ room, query room = true)
                          (map_to_list (chatRooms (db w))).*2)).

(** [ChatRoom.create({ type: 'private', participants: [...], creator })]:
    a new id, no name, and the schema defaults. *)
Definition create (userId1 userId2 : string) : M ChatRoom.t :=
  await_ ;;;
  n <- gets nextId ;;
  now <- new_Date ;;
  let chatRoom :=
    ChatRoom.mk ("room" +:+ pretty n) "" "private"
      [ChatRoom.mkParticipant userId1 "member" now now;
       ChatRoom.mkParticipant userId2 "member" now now]
      userId1 None true in
  modify (with_nextId (S n)) ;;;
  modify (λ w, with_db (mkDb (users (db w))
                             (<[ChatRoom._id chatRoom := chatRoom]>
                                (chatRooms (db w)))
                             (messages (db w))) w) ;;;
  ret chatRoom.

(** [chatRoomSchema.statics.findOrCreatePrivateChat] *)
Definition findOrCreatePrivateChat (userId1 userId2 : string) : M ChatRoom.t :=
  chatRoom <- findOne (privateBetween userId1 userId2) ;;
  match chatRoom with
  | Some chatRoom => ret chatRoom
  | None => create userId1 userId2
  end.
End ChatRoomStatics.

(** ** The REST layer: chatRoomController.js *)

Module Rest.
(** What a controller throws: an [AppError] of errorHandler.js, which
    carries its status code, or the rejection of an awaited collaborator
    call. *)
Inductive Thrown :=
| AppError (statusCode : nat) (message : string)
| Rejection (message : string).

Definition BadRequestError : string → Thrown := AppError 400.
Definition ForbiddenError : string → Thrown := AppError 403.
Definition NotFoundError : string → Thrown := AppError 404.

Inductive Outcome (A : Type) :=
| Done (a : A)
| Raised (error : Thrown).
Arguments Done {A} a.
Arguments Raised {A} error.

Definition R (A : Type) : Type := World → Outcome A * World.

Definition pure {A} (a : A) : R A := λ w, (Done a, w).

Definition raise {A} (error : Thrown) : R A := λ w, (Raised error, w).

Definition bind {A B} (m : R A) (k : A → R B) : R B :=
  λ w, match m w with
       | (Done a, w') => k a w'
       | (Raised e, w') => (Raised e, w')
       end.

(** A computation of the handler monad inside a controller: a rejected
    [await] is what the controller throws. *)
Definition lift {A} (m : M A) : R A :=
  λ w, match m w with
       | (Return a, w') => (Done a, w')
       | (Throw e, w') => (Raised (Rejection e), w')
       end.

(** A room whose [participants.user] path has been populated with
    [username avatar status lastSeen]; [None] for a user that no longer
    exists. *)
Record populatedRoom := mkPopulatedRoom {
  room : ChatRoom.t;
  participantDocs : list (option User.t);
}.

(** [chatRoom.populate('participants.user', 'username avatar status lastSeen')] *)
Definition populate (chatRoom : ChatRoom.t) : M populatedRoom :=
  await_ ;;;
  us <- gets (λ w, users (db w)) ;;
  ret (mkPopulatedRoom chatRoom
         ((λ p, us !! ChatRoom.user p) <$> ChatRoom.participants chatRoom)).

(** [res.status(status).json({ success, message, data: { chatRoom } })] *)
Record Response := mkResponse {
  status : nat;
  success : bool;
  message : option string;
  data : option populatedRoom;
}.
End Rest.

Notation "x <~ m ;; k" := (Rest.bind m (λ x, k))
  (at level 100, m at next level, right associativity).
Notation "m ~;; k" := (Rest.bind m (λ _, k))
  (at level 100, right associativity).

Module chatRoomRest.
(** [chatRoom.participants.filter((p) => p.role === 'admin').length] *)
Definition adminCount (chatRoom : ChatRoom.t) : nat :=
  length (filter (λ p, ChatRoom.role p = "admin") (ChatRoom.participants chatRoom)).

(** [find] of the first entry of another user, followed by
    [newAdmin.role = 'admin'] on the entry found. *)
Fixpoint promoteFirstOther (ps : list ChatRoom.participant) (userId : string)
  : list ChatRoom.participant :=
  match ps with
  | [] => []
  | p :: ps' =>
      if bool_decide (ChatRoom.user p ≠ userId)
      then ChatRoom.mkParticipant (ChatRoom.user p) "admin"
             (ChatRoom.joinedAt p) (ChatRoom.lastRead p) :: ps'
      else p :: promoteFirstOther ps' userId
  end.

Definition with_isActive (this : ChatRoom.t) (b : bool) : ChatRoom.t :=
  ChatRoom.mk (ChatRoom._id this) (ChatRoom.name this) (ChatRoom.type this)
              (ChatRoom.participants this) (ChatRoom.creator this)
              (ChatRoom.lastMessage this) b.

(** [createPrivateChat]: POST /api/chatrooms/private *)
Definition createPrivateChat (reqUserId userId : string) : Rest.R Rest.Response :=
  if bool_decide (userId = reqUserId)
  then Rest.raise (Rest.BadRequestError "Cannot create chat with yourself")
  else
    chatRoom <~ Rest.lift (ChatRoomStatics.findOrCreatePrivateChat reqUserId userId) ;;
    populated <~ Rest.lift (Rest.populate chatRoom) ;;
    Rest.pure (Rest.mkResponse 201 true None (Some populated)).

(** [addParticipant]: POST /api/chatrooms/:roomId/participants *)
Definition addParticipant (reqUserId roomId userId : string) : Rest.R Rest.Response :=
  found <~ Rest.lift (ChatRooms.findById roomId) ;;
  match found with
  | None => Rest.raise (Rest.NotFoundError "Chat room not found")
  | Some chatRoom =>
      if negb (bool_decide (ChatRoom.type chatRoom = "group"))
      then Rest.raise (Rest.BadRequestError "Cannot add participants to private chat")
      else if negb (ChatRoomMethods.isAdmin chatRoom reqUserId)
      then Rest.raise (Rest.ForbiddenError "Only admins can add participants")
      else if ChatRoom.isParticipant chatRoom userId
      then Rest.raise (Rest.BadRequestError "User is already a participant")
      else
        now <~ Rest.lift new_Date ;;
        let chatRoom := ChatRoom.addParticipant chatRoom userId "member" now in
        Rest.lift (ChatRooms.save chatRoom) ~;;
        populated <~ Rest.lift (Rest.populate chatRoom) ;;
        Rest.pure (Rest.mkResponse 200 true (Some "Participant added successfully")
                                   (Some populated))
  end.

(** [removeParticipant]: DELETE /api/chatrooms/:roomId/participants/:userId *)
Definition removeParticipant (reqUserId roomId userId : string)
  : Rest.R Rest.Response :=
  found <~ Rest.lift (ChatRooms.findById roomId) ;;
  match found with
  | None => Rest.raise (Rest.NotFoundError "Chat room not found")
  | Some chatRoom =>
      if negb (bool_decide (ChatRoom.type chatRoom = "group"))
      then Rest.raise
             (Rest.BadRequestError "Cannot remove participants from private chat")
      else
        let isSelf := bool_decide (userId = reqUserId) in
        let isAdmin := ChatRoomMethods.isAdmin chatRoom reqUserId in
        if negb isSelf && negb isAdmin
        then Rest.raise
               (Rest.ForbiddenError "Not authorized to remove this participant")
        else if ChatRoomMethods.isAdmin chatRoom userId
                && (adminCount chatRoom <=? 1)
        then Rest.raise (Rest.BadRequestError "Cannot remove the last admin")
        else
          let chatRoom := ChatRoomMethods.removeParticipant chatRoom userId in
          Rest.lift (ChatRooms.save chatRoom) ~;;
          populated <~ Rest.lift (Rest.populate chatRoom) ;;
          Rest.pure (Rest.mkResponse 200 true
                       (Some "Participant removed successfully") (Some populated))
  end.

(** The synchronous part of [leaveGroup] between its checks and the save:
    a successor for the only admin, the removal, and the deactivation of a
    room left empty. *)
Definition departure (chatRoom : ChatRoom.t) (userId : string) : ChatRoom.t :=
  let chatRoom :=
    if ChatRoomMethods.isAdmin chatRoom userId
       && (adminCount chatRoom <=? 1)
       && (1 <? length (ChatRoom.participants chatRoom))
    then ChatRoom.with_participants chatRoom
           (promoteFirstOther (ChatRoom.participants chatRoom) userId)
    else chatRoom in
  let chatRoom := ChatRoomMethods.removeParticipant chatRoom userId in
  if length (ChatRoom.participants chatRoom) =? 0
  then with_isActive chatRoom false
  else chatRoom.

(** [leaveGroup]: POST /api/chatrooms/:roomId/leave *)
Definition leaveGroup (reqUserId roomId : string) : Rest.R Rest.Response :=
  found <~ Rest.lift (ChatRooms.findById roomId) ;;
  match found with
  | None => Rest.raise (Rest.NotFoundError "Chat room not found")
  | Some chatRoom =>
      if negb (bool_decide (ChatRoom.type chatRoom = "group"))
      then Rest.raise (Rest.BadRequestError "Cannot leave private chat")
      else if negb (ChatRoom.isParticipant chatRoom reqUserId)
      then Rest.raise (Rest.BadRequestError "You are not a member of this group")
      else
        let chatRoom := departure chatRoom reqUserId in
        Rest.lift (ChatRooms.save chatRoom) ~;;
        Rest.pure (Rest.mkResponse 200 true (Some "Left group successfully") None)
  end.

(** [markAsRead]: POST /api/chatrooms/:roomId/read *)
Definition markAsRead (reqUserId roomId : string) : Rest.R Rest.Response :=
  found <~ Rest.lift (ChatRooms.findById roomId) ;;
  match found with
  | None => Rest.raise (Rest.NotFoundError "Chat room not found")
  | Some chatRoom =>
      if negb (ChatRoom.isParticipant chatRoom reqUserId)
      then Rest.raise (Rest.ForbiddenError "You are not a member of this chat room")
      else
        now <~ Rest.lift new_Date ;;
        let chatRoom := ChatRoom.updateLastRead chatRoom reqUserId now in
        Rest.lift (ChatRooms.save chatRoom) ~;;
        Rest.pure (Rest.mkResponse 200 true (Some "Chat marked as read") None)
  end.

(** A room as the controllers keep it: no user listed twice, and an admin
    among the participants when there are any. *)
Definition governed (chatRoom : ChatRoom.t) : Prop :=
  NoDup (ChatRoomMethods.members chatRoom)
  ∧ (ChatRoom.participants chatRoom ≠ [] → 1 ≤ adminCount chatRoom).
End chatRoomRest.

(** ** Message.js: reading a room's messages *)

Module MessageQueries.
(** What [populate('sender', 'username avatar status')] selects. *)
Record senderView := mkSenderView {
  sv_id : string;
  sv_username : string;
  sv_avatar : string;
  sv_status : string;
}.

(** What [populate('replyTo', 'content sender')] selects. *)
Record replyView := mkReplyView {
  rv_id : string;
  rv_content : string;
  rv_sender : string;
}.

(** A [lean()] result: the stored fields with the two populated paths. *)
Record leanMessage := mkLean {
  doc : Message.t;
  senderDoc : option senderView;
  replyDoc : option replyView;
}.

(** [sort({ createdAt: -1 })] *)
Definition newestFirst : relation Message.t :=
  λ a b, Message.createdAt b ≤ Message.createdAt a.

#[global] Instance newestFirst_dec (a b : Message.t) : Decision (newestFirst a b).
Proof. unfold newestFirst. apply _. Defined.

(** The query [{ chatRoom, isDeleted: false, createdAt: { $lt: before } }],
    the last part only when a cursor is given. *)
Definition matches (chatRoomId : string) (before : option Date) (m : Message.t)
  : bool :=
  bool_decide (Message.chatRoom m = chatRoomId)
  && negb (Message.isDeleted m)
  && match before with
     | Some t => bool_decide (Message.createdAt m < t)
     | None => true
     end.

Definition populate (d : Db) (m : Message.t) : leanMessage :=
  mkLean m
    ((λ u, mkSenderView (Message.sender m) (User.username u) (User.avatar u)
                        (User.status u))
       <$> users d !! Message.sender m)
    (Message.replyTo m ≫= λ id,
       (λ r, mkReplyView id (Message.content r) (Message.sender r))
         <$> messages d !! id).

(** [messageSchema.statics.getMessages].  Documents with the same
    [createdAt] come in the order of the collection scan.  The driver
    rejects a negative [skip] ([page] 0 with a positive [limit]) and reads
    [limit(0)] as no limit. *)
Definition getMessages (chatRoomId : string) (page limit : nat)
    (before : option Date) : M (list leanMessage) :=
  await_ ;;;
  d <- gets db ;;
  if bool_decide (page = 0) && negb (bool_decide (limit = 0))
  then throw collaboratorFailure
  else
    let found :=
      merge_sort newestFirst
        (filter (λ m, matches chatRoomId before m = true)
                (map_to_list (messages d)).*2) in
    let skipped := drop ((page - 1) * limit) found in
    let messages := if bool_decide (limit = 0) then skipped else take limit skipped in
    ret (reverse (populate d <$> messages)).
End MessageQueries.

(** ** middleware/auth.js: admission of a socket *)

Module auth.
(** [socket.handshake.auth.token] and [socket.handshake.query.token] *)
Record Handshake := mkHandshake {
  authToken : option string;
  queryToken : option string;
}.

(** [a || b] on values that may be absent or the empty string. *)
Definition or_else (a b : option string) : option string :=
  match chatHandler.truthy a with
  | Some t => Some t
  | None => b
  end.

(** [User.findById(id).select('-password')] *)
Definition User_findById (id : string) : M (option User.t) :=
  await_ ;;; gets (λ w, users (db w) !! id).

Section socketAuth.
(** [jwt.verify(token, config.jwtSecret)]: the [userId] of the decoded
    payload, or the message of the error it throws. *)
Variable jwt_verify : string → string + string.

(** [socketAuth]: the argument it passes to [next], an error message or
    nothing; in the second case the socket goes on to the connection
    handler with [user] and [userId] attached. *)
Definition socketAuth (socketId : string) (handshake : Handshake)
  : M (string + Socket) :=
  try_catch
    (match chatHandler.truthy
             (or_else (authToken handshake) (queryToken handshake)) with
     | None => ret (inl "Authentication required")
     | Some token =>
         match jwt_verify token with
         | inl message => throw message
         | inr decodedUserId =>
             user <- User_findById decodedUserId ;;
             match user with
             | None => ret (inl "User not found")
             | Some user =>
                 ret (inr (mkSocket socketId decodedUserId (User.username user)))
             end
         end
     end)
    (λ error,
       console_error ("Socket auth error: " +:+ error) ;;;
       ret (inl "Invalid token")).

(** A connection attempt: the middleware, then the connection handler
    for a socket that was let through. *)
Definition connect (socketId : string) (handshake : Handshake) : M unit :=
  admitted <- socketAuth socketId handshake ;;
  match admitted with
  | inl _ => ret tt
  | inr socket => socketHandler.onConnection socket
  end.
End socketAuth.
End auth.

(** ** utils/helpers.js: pagination *)

Module helpers.
(** [parsePagination] as the message route runs it, behind
    [messageValidation.getMessages]: that validator lets through an absent
    value, for which [parseInt] gives [NaN] ([None]), and for a present one
    only an integer of at least 1 (at most 100 for the limit); below 2^53
    the arithmetic of doubles on these is that of the naturals.  [x || d]
    takes the default for [NaN] and for 0.  The negative and non-integer
    values that the routes without a validator can pass are outside this
    definition. *)
Definition parsePagination (queryPage queryLimit : option nat) : nat * nat * nat :=
  let page := match queryPage with Some (S p) => S p | _ => 1 end in
  let limit := (match queryLimit with Some (S l) => S l | _ => 50 end) `min` 100 in
  let skip := (page - 1) * limit in
  (page, limit, skip).

(** The value of [Math.ceil(total / limit)]. *)
Inductive JsNumber :=
| Finite (n : nat)
| Infinity
| NaN.

Definition ceilDiv (total limit : nat) : JsNumber :=
  if limit =? 0
  then if total =? 0 then NaN else Infinity
  else Finite ((total + limit - 1) / limit).

(** [page < totalPages] *)
Definition lessThan (page : nat) (totalPages : JsNumber) : bool :=
  match totalPages with
  | Finite t => page <? t
  | Infinity => true
  | NaN => false
  end.

Record PaginationMeta := mkPaginationMeta {
  total : nat;
  page : nat;
  limit : nat;
  totalPages : JsNumber;
  hasNextPage : bool;
  hasPrevPage : bool;
}.

(** [createPaginationMeta] *)
Definition createPaginationMeta (total page limit : nat) : PaginationMeta :=
  let totalPages := ceilDiv total limit in
  mkPaginationMeta total page limit totalPages
                   (lessThan page totalPages) (1 <? page).
End helpers.

(** ** The REST layer: messageController.js *)

Module messageRest.
(** [res.status(status).json({ success, message, data: { message } })] *)
Record Response := mkResponse {
  status : nat;
  success : bool;
  message : option string;
  data : option Message.populated;
}.

(** [sendMessage]: POST /api/messages *)
Definition sendMessage (reqUserId chatRoomId content : string)
    (replyTo : option string) : Rest.R Response :=
  found <~ Rest.lift (ChatRooms.findById chatRoomId) ;;
  match found with
  | None => Rest.raise (Rest.NotFoundError "Chat room not found")
  | Some chatRoom =>
      if negb (ChatRoom.isParticipant chatRoom reqUserId)
      then Rest.raise (Rest.ForbiddenError "You are not a member of this chat room")
      else
        message <~ Rest.lift (Messages.create chatRoomId reqUserId content "text"
                                (chatHandler.truthy replyTo)) ;;
        Rest.lift (ChatRooms.save
                     (ChatRoom.with_lastMessage chatRoom
                        (Some (Message._id message)))) ~;;
        populated <~ Rest.lift (Messages.populate message) ;;
        Rest.pure (mkResponse 201 true None (Some populated))
  end.

(** [editMessage]: PUT /api/messages/:messageId *)
Definition editMessage (reqUserId messageId content : string) : Rest.R Response :=
  found <~ Rest.lift (Messages.findById messageId) ;;
  match found with
  | None => Rest.raise (Rest.NotFoundError "Message not found")
  | Some message =>
      if negb (bool_decide (Message.sender message = reqUserId))
      then Rest.raise (Rest.ForbiddenError "You can only edit your own messages")
      else if Message.isDeleted message
      then Rest.raise (Rest.BadRequestError "Cannot edit deleted message")
      else
        now <~ Rest.lift new_Date ;;
        let message := Message.editContent message content now in
        Rest.lift (Messages.save message) ~;;
        populated <~ Rest.lift (Messages.populate message) ;;
        Rest.pure (mkResponse 200 true (Some "Message edited successfully")
                              (Some populated))
  end.

(** [deleteMessage]: DELETE /api/messages/:messageId *)
Definition deleteMessage (reqUserId messageId : string) : Rest.R Response :=
  found <~ Rest.lift (Messages.findById messageId) ;;
  match found with
  | None => Rest.raise (Rest.NotFoundError "Message not found")
  | Some message =>
      if negb (bool_decide (Message.sender message = reqUserId))
      then Rest.raise (Rest.ForbiddenError "You can only delete your own messages")
      else
        now <~ Rest.lift new_Date ;;
        Rest.lift (Messages.save (Message.softDelete message now)) ~;;
        Rest.pure (mkResponse 200 true (Some "Message deleted successfully") None)
  end.

(** [markAsRead]: POST /api/messages/:messageId/read *)
Definition markAsRead (reqUserId messageId : string) : Rest.R Response :=
  found <~ Rest.lift (Messages.findById messageId) ;;
  match found with
  | None => Rest.raise (Rest.NotFoundError "Message not found")
  | Some message =>
      chatRoom <~ Rest.lift (ChatRooms.findById (Message.chatRoom message)) ;;
      if match chatRoom with
         | None => true
         | Some chatRoom => negb (ChatRoom.isParticipant chatRoom reqUserId)
         end
      then Rest.raise (Rest.ForbiddenError "Access denied")
      else
        now <~ Rest.lift new_Date ;;
        Rest.lift (Messages.save
                     (MessageMethods.markAsRead message reqUserId now)) ~;;
        Rest.pure (mkResponse 200 true (Some "Message marked as read") None)
  end.
(** [ChatRoom.find({ 'participants.user': userId, isActive: true })], in
    the order of the collection scan. *)
Definition ChatRoom_find (userId : string) : M (list ChatRoom.t) :=
  await_ ;;;
  gets (λ w, filter (λ room, ChatRoom.isParticipant room userId = true
                             ∧ ChatRoom.isActive room = true)
                    (map_to_list (chatRooms (db w))).*2).

(** The query [{ chatRoom, createdAt: { $gt: since }, sender: { $ne: userId },
    isDeleted: false }]. *)
Definition unreadQuery (chatRoomId : string) (since : Date) (userId : string)
    (m : Message.t) : bool :=
  bool_decide (Message.chatRoom m = chatRoomId)
  && bool_decide (since < Message.createdAt m)
  && negb (bool_decide (Message.sender m = userId))
  && negb (Message.isDeleted m).

(** [Message.countDocuments(query)] *)
Definition Message_countDocuments (query : Message.t → bool) : M nat :=
  await_ ;;;
  gets (λ w, length (filter (λ m, query m = true)
                            (map_to_list (messages (db w))).*2)).

(** [participant?.lastRead || new Date(0)] *)
Definition readSince (room : ChatRoom.t) (userId : string) : Date :=
  match find (λ p, bool_decide (ChatRoom.user p = userId))
             (ChatRoom.participants room) with
  | Some participant => ChatRoom.lastRead participant
  | None => 0
  end.

(** The loop of [getUnreadCount] over the rooms found, with its two
    accumulators. *)
Fixpoint tally (reqUserId : string) (rooms : list ChatRoom.t)
    (totalUnread : nat) (roomUnread : gmap string nat)
  : M (nat * gmap string nat) :=
  match rooms with
  | [] => ret (totalUnread, roomUnread)
  | room :: rooms' =>
      unreadCount <- Message_countDocuments
                       (unreadQuery (ChatRoom._id room)
                          (readSince room reqUserId) reqUserId) ;;
      if 0 <? unreadCount
      then tally reqUserId rooms' (totalUnread + unreadCount)
                 (<[ChatRoom._id room := unreadCount]> roomUnread)
      else tally reqUserId rooms' totalUnread roomUnread
  end.

(** [res.json({ success: true, data: { totalUnread, roomUnread } })] *)
Record UnreadResponse := mkUnreadResponse {
  totalUnread : nat;
  roomUnread : gmap string nat;
}.

(** [getUnreadCount]: GET /api/messages/unread/count *)
Definition getUnreadCount (reqUserId : string) : Rest.R UnreadResponse :=
  chatRooms <~ Rest.lift (ChatRoom_find reqUserId) ;;
  counted <~ Rest.lift (tally reqUserId chatRooms 0 ∅) ;;
  Rest.pure (mkUnreadResponse counted.1 counted.2).
(** [res.json({ success: true, data: { messages, pagination } })] *)
Record MessagesResponse := mkMessagesResponse {
  messages_ : list MessageQueries.leanMessage;
  pagination : helpers.PaginationMeta;
}.

(** [getMessages]: GET /api/messages/:roomId *)
Definition getMessages (reqUserId roomId : string)
    (queryPage queryLimit : option nat) (before : option Date)
  : Rest.R MessagesResponse :=
  let '(page, limit, _) := helpers.parsePagination queryPage queryLimit in
  found <~ Rest.lift (ChatRooms.findById roomId) ;;
  match found with
  | None => Rest.raise (Rest.NotFoundError "Chat room not found")
  | Some chatRoom =>
      if negb (ChatRoom.isParticipant chatRoom reqUserId)
      then Rest.raise (Rest.ForbiddenError "You are not a member of this chat room")
      else
        messages <~ Rest.lift (MessageQueries.getMessages roomId page limit before) ;;
        total <~ Rest.lift
                   (Message_countDocuments
                      (λ m, bool_decide (Message.chatRoom m = roomId)
                            && negb (Message.isDeleted m))) ;;
        now <~ Rest.lift new_Date ;;
        Rest.lift (ChatRooms.save (ChatRoom.updateLastRead chatRoom reqUserId now)) ~;;
        Rest.pure (mkMessagesResponse messages
                     (helpers.createPaginationMeta total page limit))
  end.
End messageRest.

(** ** More vocabulary: what the handlers store *)

(** The document that [Message.create] stores for a send: the content is
    the request's, trimmed. *)
Definition sentMessage (w : World) (socket : Socket) (data : SendData)
  : Message.t :=
  Message.mk ("msg" +:+ pretty (nextId w)) (sd_chatRoomId data) (userId socket)
             (JsString.trim (sd_content data)) "text" None []
             (chatHandler.truthy (sd_replyTo data))
             false None false None (clock w).

(** The sender as [populate] finds it. *)
Definition senderOf (w : World) (userId : string) : option User.brief :=
  User.select userId <$> users (db w) !! userId.

(** The events that neither open nor close a connection and do not join or
    leave a channel. *)
Definition isChatEvent (ev : socketHandler.ClientEvent) : bool :=
  match ev with
  | socketHandler.MessageSend _ _ | socketHandler.MessageEdit _ _
  | socketHandler.MessageDelete _ _ | socketHandler.TypingStart _ _
  | socketHandler.TypingStop _ _ | socketHandler.MessagesRead _ _ => true
  | _ => false
  end.

(** Every socket of the reverse index is in the set of its user. *)
Definition index_ok (r : Registry) : Prop :=
  ∀ socketId userId,
    JsMap.get (onlineUsers r) socketId = Some userId →
    socketId ∈ socketHandler.getUserSockets r userId.

(** The two maps have each key once, and every set each socket once. *)
Definition registry_wf (r : Registry) : Prop :=
  NoDup (JsMap.keys (onlineUsers r))
  ∧ NoDup (JsMap.keys (userSockets r))
  ∧ Forall (λ kv, NoDup kv.2) (userSockets r).

(** The messages of a room that count as unread for a user: newer than
    the user's last read, written by somebody else, not deleted. *)
Definition unreadIn (d : Db) (userId : string) (room : ChatRoom.t) : nat :=
  length (filter (λ m, messageRest.unreadQuery (ChatRoom._id room)
                         (messageRest.readSince room userId) userId m = true)
                 (map_to_list (messages d)).*2).

(** Every room is stored under its own id. *)
Definition rooms_by_id (d : Db) : Prop :=
  ∀ k room, chatRooms d !! k = Some room → ChatRoom._id room = k.

(** ** socketHandler.js: which events reach a listener *)

#[global] Instance Socket_eq_dec : EqDecision Socket.
Proof. solve_decision. Defined.

Module socketServer.
(** The connection handler registers the listeners of a socket (the
    [socket.on] calls) after its [await] of the status update.  A socket
    whose update rejected therefore has no listener; nor has, while it
    matters, a socket that its client closed during that [await]:
    Socket.IO emits its [disconnect] once, before there is anybody to
    hear it.  What a socket without listeners sends is dropped. *)
Record t := mk {
  world : World;
  listening : gset string;   (* ids of the open sockets that have their listeners *)
}.

(** What happens at the server: an event that arrives while no handler of
    its socket is pending, or a connection that its client closes during
    the [await] of its connection handler.  That handler then runs to its
    end all the same, tracking the socket before the [await] and, after
    it, registering listeners that nothing will ever call. *)
Inductive Arrival :=
| Arrive (ev : socketHandler.ClientEvent)
| OpenAndClose (socket : Socket).

Definition hears (s : t) (socket : Socket) : bool :=
  bool_decide (id socket ∈ listening s).

(** The socket whose listener an event is for. *)
Definition socketOf (ev : socketHandler.ClientEvent) : option Socket :=
  match ev with
  | socketHandler.Connection socket
  | socketHandler.RoomJoin socket _
  | socketHandler.RoomLeave socket _
  | socketHandler.MessageSend socket _
  | socketHandler.MessageEdit socket _
  | socketHandler.MessageDelete socket _
  | socketHandler.TypingStart socket _
  | socketHandler.TypingStop socket _
  | socketHandler.MessagesRead socket _
  | socketHandler.Disconnect socket => Some socket
  | socketHandler.Tick | socketHandler.Rest _ => None
  end.

Definition receive (s : t) (a : Arrival) : t :=
  match a with
  | OpenAndClose socket =>
      mk (socketHandler.step (world s) (socketHandler.Connection socket))
         (listening s)
  | Arrive (socketHandler.Connection socket as ev) =>
      mk (socketHandler.step (world s) ev)
         (if returns (socketHandler.onConnection socket) (world s)
          then {[id socket]} ∪ listening s
          else listening s)
  | Arrive (socketHandler.Disconnect socket as ev) =>
      if hears s socket
      then mk (socketHandler.step (world s) ev) (listening s ∖ {[id socket]})
      else mk (with_adapter (delete (id socket) (adapter (world s))) (world s))
              (listening s)
  | Arrive ev =>
      match socketOf ev with
      | Some socket =>
          if hears s socket
          then mk (socketHandler.step (world s) ev) (listening s)
          else s
      | None => mk (socketHandler.step (world s) ev) (listening s)
      end
  end.

Definition serve (arrivals : list Arrival) (s : t) : t :=
  foldl receive s arrivals.

(** The server right after start-up. *)
Definition start (d : Db) (schedule : list bool) (now : Date) : t :=
  mk (socketHandler.boot d schedule now) ∅.

(** The live connections: opened and not closed since. *)
Definition opens (open : list Socket) (a : Arrival) : list Socket :=
  match a with
  | Arrive (socketHandler.Connection socket) => open ++ [socket]
  | Arrive (socketHandler.Disconnect socket) =>
      filter (λ s, id s ≠ id socket) open
  | _ => open
  end.

Definition live (arrivals : list Arrival) : list Socket :=
  foldl opens [] arrivals.

(** The sockets that the arrivals open, and all the sockets they name. *)
Definition connections (arrivals : list Arrival) : list Socket :=
  omap (λ a, match a with
             | Arrive (socketHandler.Connection socket)
             | OpenAndClose socket => Some socket
             | _ => None
             end) arrivals.

Definition sockets (arrivals : list Arrival) : list Socket :=
  omap (λ a, match a with
             | Arrive ev => socketOf ev
             | OpenAndClose socket => Some socket
             end) arrivals.

(** Socket ids identify sockets: the events of one socket id are the
    events of one socket, of one user. *)
Definition coherent (arrivals : list Arrival) : Prop :=
  Forall (λ s, Forall (λ s', id s = id s' → s = s') (sockets arrivals))
         (sockets arrivals).

Definition delivered (a : Arrival) : bool :=
  match a with
  | Arrive _ => true
  | OpenAndClose _ => false
  end.
End socketServer.

(** The computation leaves a schedule without rejections as it is. *)
Definition calm {A} (m : M A) : Prop :=
  ∀ w, faults w = [] → faults (m w).2 = [].

(** ** Theorems *)

(** *** Filtering lists *)

Section filter_facts.
Context {A : Type} (P : A → Prop) `{!∀ x, Decision (P x)}.

Lemma filter_none (l : list A) : (∀ x, x ∈ l → ¬ P x) → filter P l = [].
Proof.
  induction l as [|a l IH]; intros Hl; [done |].
  rewrite filter_cons, decide_False by (apply Hl; left).
  apply IH. intros x Hx. apply Hl. by right.
Qed.

Lemma filter_all (l : list A) : (∀ x, x ∈ l → P x) → filter P l = l.
Proof.
  induction l as [|a l IH]; intros Hl; [done |].
  rewrite filter_cons, decide_True by (apply Hl; left).
  f_equal. apply IH. intros x Hx. apply Hl. by right.
Qed.

End filter_facts.

(** C10: a deleted message is serialised with the fixed placeholder as its
    content and without its media, and [softDelete] itself stores the
    placeholder and clears the media, so neither the stored document nor
    its serialisation carries the original content or attachment. *)
Theorem C10_deleted_message_hidden (m : Message.t) (now : Date) :
  (Message.isDeleted m = true →
     Message.content (Message.toJSON m) = "This message has been deleted"
     ∧ Message.media (Message.toJSON m) = None)
  ∧ Message.isDeleted (Message.softDelete m now) = true
  ∧ Message.content (Message.softDelete m now) = "This message has been deleted"
  ∧ Message.media (Message.softDelete m now) = None
  ∧ Message.content (Message.toJSON (Message.softDelete m now))
      = "This message has been deleted"
  ∧ Message.media (Message.toJSON (Message.softDelete m now)) = None.
Proof.
  split.
  - intros Hdel. unfold Message.toJSON. rewrite Hdel. by split.
  - by repeat split.
Qed.

(** *** Running handlers *)

Ltac wsimpl :=
  cbn [db registry adapter outbox console faults clock nextId
       with_db with_registry with_adapter with_outbox with_console
       with_faults with_clock with_nextId
       users chatRooms messages onlineUsers userSockets fst snd] in *.

Ltac munfold :=
  unfold emit, new_Date, console_error, exec in *;
  unfold bind, ret, throw, try_catch, detached, gets, modify, await_ in *.

Lemma emitted_app {A} (m : M A) (w : World) (evs : list Emit) :
  outbox (exec m w) = outbox w ++ evs → emitted m w = evs.
Proof. intros H. unfold emitted. rewrite H. apply drop_app_length. Qed.

Lemma resolves_cons (n : nat) (w : World) (b : bool) (fs : list bool) :
  faults w = b :: fs → resolves (S n) w = true →
  b = false ∧ forallb negb (take n fs) = true.
Proof.
  unfold resolves. intros ->. simpl. destruct b; simpl; [done |]. by split.
Qed.

(** C7: when somebody other than the author of a stored message asks to
    edit it, the edit fails: the acting socket receives an error event,
    the one of the ownership check when the lookup resolves, and nothing
    else is sent (in particular no message:edited); the collections, hence
    the content, isEdited and editedAt of the message, stay as they
    were. *)
Theorem C7_edit_by_non_owner_rejected
    (w : World) (socket : Socket) (data : EditData) (m : Message.t) :
  messages (db w) !! ed_messageId data = Some m →
  Message.sender m ≠ userId socket →
  let w' := exec (socketHandler.onMessageEdit socket data) w in
  (∃ message,
     emitted (socketHandler.onMessageEdit socket data) w = [errorTo socket message]
     ∧ (resolves 1 w = true → message = "You can only edit your own messages"))
  ∧ countEvent "message:edited"
      (emitted (socketHandler.onMessageEdit socket data) w) = 0
  ∧ db w' = db w
  ∧ messages (db w') !! ed_messageId data = Some m.
Proof.
  intros Hm Hne.
  assert (Hout : ∃ message,
            outbox (exec (socketHandler.onMessageEdit socket data) w)
            = outbox w ++ [errorTo socket message]
            ∧ (resolves 1 w = true →
               message = "You can only edit your own messages")
            ∧ db (exec (socketHandler.onMessageEdit socket data) w) = db w).
  { unfold socketHandler.onMessageEdit, chatHandler.handleEditMessage,
      Messages.findById, socketHandler.emitError, resolves.
    munfold.
    destruct (faults w) as [|[] fs] eqn:Hf; wsimpl;
      rewrite ?Hm, ?bool_decide_eq_false_2 by done; wsimpl;
      eexists; by repeat split. }
  destruct Hout as (message & Hout & Hmsg & Hdb). cbv zeta.
  rewrite (emitted_app _ _ _ Hout), Hdb.
  split; [by exists message |]. by repeat split.
Qed.

Ltac fault_cases w :=
  let fs := fresh "fs" in
  destruct (faults w) as [|[] fs] eqn:?; wsimpl.

Lemma rejected_outcome {A} (m : M A) (w : World) (socket : Socket) :
  (∃ message, outbox (exec m w) = outbox w ++ [errorTo socket message]
              ∧ db (exec m w) = db w) →
  ∃ message, emitted m w = [errorTo socket message] ∧ db (exec m w) = db w.
Proof.
  intros (message & Hout & Hdb). exists message.
  split; [by apply emitted_app | done].
Qed.

Lemma send_rejected (w : World) (socket : Socket) (data : SendData) :
  isMember w (userId socket) (sd_chatRoomId data) = false →
  ∃ message,
    emitted (socketHandler.onMessageSend socket data) w = [errorTo socket message]
    ∧ db (exec (socketHandler.onMessageSend socket data) w) = db w.
Proof.
  intros Hg. apply rejected_outcome. unfold isMember in Hg.
  unfold socketHandler.onMessageSend, chatHandler.handleSendMessage,
    ChatRooms.findById, socketHandler.emitError.
  munfold.
  fault_cases w; [| by eexists | ];
    (destruct (chatRooms (db w) !! sd_chatRoomId data) as [room|];
     [rewrite Hg | ]; wsimpl; by eexists).
Qed.

Lemma read_rejected (w : World) (socket : Socket) (roomId : string) :
  isMember w (userId socket) roomId = false →
  ∃ message,
    emitted (socketHandler.onMessagesRead socket roomId) w = [errorTo socket message]
    ∧ db (exec (socketHandler.onMessagesRead socket roomId) w) = db w.
Proof.
  intros Hg. apply rejected_outcome. unfold isMember in Hg.
  unfold socketHandler.onMessagesRead, chatHandler.handleMarkAsRead,
    ChatRooms.findById, socketHandler.emitError.
  munfold.
  fault_cases w; [| by eexists | ];
    (destruct (chatRooms (db w) !! roomId) as [room|];
     [rewrite Hg | ]; wsimpl; by eexists).
Qed.

Lemma edit_rejected (w : World) (socket : Socket) (data : EditData) :
  isAuthor w (userId socket) (ed_messageId data) = false →
  ∃ message,
    emitted (socketHandler.onMessageEdit socket data) w = [errorTo socket message]
    ∧ db (exec (socketHandler.onMessageEdit socket data) w) = db w.
Proof.
  intros Hg. apply rejected_outcome. unfold isAuthor in Hg.
  unfold socketHandler.onMessageEdit, chatHandler.handleEditMessage,
    Messages.findById, socketHandler.emitError.
  munfold.
  fault_cases w; [| by eexists | ];
    (destruct (messages (db w) !! ed_messageId data) as [m|];
     [rewrite Hg | ]; wsimpl; by eexists).
Qed.

Lemma delete_rejected (w : World) (socket : Socket) (messageId : string) :
  isAuthor w (userId socket) messageId = false →
  ∃ message,
    emitted (socketHandler.onMessageDelete socket messageId) w = [errorTo socket message]
    ∧ db (exec (socketHandler.onMessageDelete socket messageId) w) = db w.
Proof.
  intros Hg. apply rejected_outcome. unfold isAuthor in Hg.
  unfold socketHandler.onMessageDelete, chatHandler.handleDeleteMessage,
    Messages.findById, socketHandler.emitError.
  munfold.
  fault_cases w; [| by eexists | ];
    (destruct (messages (db w) !! messageId) as [m|];
     [rewrite Hg | ]; wsimpl; by eexists).
Qed.

(** Typing indicators are relayed to the room channel as they come. *)
Lemma typing_relayed (w : World) (socket : Socket) (roomId : string) :
  emitted (socketHandler.onTypingStart socket roomId) w
    = [mkEmit (ToChannelExcept (roomChannel roomId) (id socket)) "typing:start"
         (PTyping (userId socket) (Some (username socket)) roomId)]
  ∧ emitted (socketHandler.onTypingStop socket roomId) w
    = [mkEmit (ToChannelExcept (roomChannel roomId) (id socket)) "typing:stop"
         (PTyping (userId socket) None roomId)].
Proof. split; by apply emitted_app. Qed.

(** C5, as the code has it: the handlers of message:send, messages:read,
    message:edit and message:delete check the actor (room membership for
    the first two, authorship for the last two) before anything is sent;
    an actor who fails the check gets an error event on the acting socket,
    nothing goes to any room channel and the collections are untouched.
    The typing handlers make no check. *)
Theorem C5_guarded_events_reject_unauthorized_actor
    (w : World) (ev : socketHandler.ClientEvent) :
  guard w ev = false →
  ∃ socket message,
    actor ev = Some socket
    ∧ emitted (socketHandler.handle ev) w = [errorTo socket message]
    ∧ db (exec (socketHandler.handle ev) w) = db w.
Proof.
  intros Hg.
  destruct ev as [s|s r|s r|s data|s data|s mid|s r|s r|s r|s| |d];
    simpl in Hg; try discriminate; exists s; simpl.
  - destruct (send_rejected w s data Hg) as (message & ? & ?). by exists message.
  - destruct (edit_rejected w s data Hg) as (message & ? & ?). by exists message.
  - destruct (delete_rejected w s mid Hg) as (message & ? & ?). by exists message.
  - destruct (read_rejected w s r Hg) as (message & ? & ?). by exists message.
Qed.

Lemma C5_guarded_events_witness :
  guard Sample.w0
    (socketHandler.MessageSend Sample.sX1 (mkSendData "R1" "hi" None)) = false
  ∧ ∃ socket message,
      actor (socketHandler.MessageSend Sample.sX1 (mkSendData "R1" "hi" None))
        = Some socket
      ∧ emitted (socketHandler.handle
                   (socketHandler.MessageSend Sample.sX1 (mkSendData "R1" "hi" None)))
                Sample.w0 = [errorTo socket message]
      ∧ db (exec (socketHandler.handle
                    (socketHandler.MessageSend Sample.sX1 (mkSendData "R1" "hi" None)))
                 Sample.w0) = db Sample.w0.
Proof.
  split; [vm_compute; reflexivity |].
  apply (C5_guarded_events_reject_unauthorized_actor Sample.w0
           (socketHandler.MessageSend Sample.sX1 (mkSendData "R1" "hi" None))).
  vm_compute; reflexivity.
Defined.

(** C5 as stated fails for typing: X is not a participant of room R1, and
    X's typing:start is sent to the channel of R1 all the same. *)
Lemma C5_typing_counterexample :
  isMember Sample.w0 "X" "R1" = false
  ∧ emitted (socketHandler.handle (socketHandler.TypingStart Sample.sX1 "R1"))
            Sample.w0
    = [mkEmit (ToChannelExcept "room:R1" "sX1") "typing:start"
         (PTyping "X" (Some "xavier") "R1")]
  ∧ ¬ (countEvent "typing:start"
         (emitted (socketHandler.handle
                     (socketHandler.TypingStart Sample.sX1 "R1")) Sample.w0) = 0).
Proof.
  split; [vm_compute; reflexivity |]. split; [vm_compute; reflexivity |].
  assert (countEvent "typing:start"
            (emitted (socketHandler.handle
                        (socketHandler.TypingStart Sample.sX1 "R1")) Sample.w0) = 1)
    as -> by (vm_compute; reflexivity).
  lia.
Qed.

(** C6, as the code has it: editing a deleted message is refused with an
    error event on the acting socket (the one of the deleted-message check
    when the actor is the author), the collections stay as they were and
    no message:edited is sent.  Deleting a deleted message is not refused:
    for its author the handler soft-deletes once more, which keeps
    isDeleted, the placeholder content and the absent media and renews
    deletedAt, and message:deleted goes to the room channel. *)
Theorem C6_deleted_message_edit_refused_delete_repeated
    (w : World) (socket : Socket) (messageId : string) (m : Message.t) :
  messages (db w) !! messageId = Some m →
  Message.isDeleted m = true →
  (∀ content, ∃ message,
      emitted (socketHandler.onMessageEdit socket (mkEditData messageId content)) w
        = [errorTo socket message]
      ∧ db (exec (socketHandler.onMessageEdit socket (mkEditData messageId content)) w)
        = db w
      ∧ (resolves 1 w = true → Message.sender m = userId socket →
         message = "Cannot edit deleted message"))
  ∧ (Message.sender m = userId socket → resolves 2 w = true →
     emitted (socketHandler.onMessageDelete socket messageId) w
       = [mkEmit (ToChannel (roomChannel (Message.chatRoom m))) "message:deleted"
            (PDeleted messageId (Message.chatRoom m))]
     ∧ messages (db (exec (socketHandler.onMessageDelete socket messageId) w))
         !! Message._id m
       = Some (Message.softDelete m (clock w))).
Proof.
  intros Hm Hdel. split.
  - intros content.
    assert (∃ message,
      outbox (exec (socketHandler.onMessageEdit socket (mkEditData messageId content)) w)
        = outbox w ++ [errorTo socket message]
      ∧ db (exec (socketHandler.onMessageEdit socket (mkEditData messageId content)) w)
        = db w
      ∧ (resolves 1 w = true → Message.sender m = userId socket →
         message = "Cannot edit deleted message")) as (message & Hout & Hdb & Hmsg).
    { unfold socketHandler.onMessageEdit, chatHandler.handleEditMessage,
        Messages.findById, socketHandler.emitError, resolves.
      munfold. simpl ed_messageId.
      fault_cases w.
      - rewrite Hm. destruct (bool_decide_reflect (Message.sender m = userId socket));
          simpl; [rewrite Hdel |]; wsimpl; eexists; by repeat split.
      - eexists. by repeat split.
      - rewrite Hm. destruct (bool_decide_reflect (Message.sender m = userId socket));
          simpl; [rewrite Hdel |]; wsimpl; eexists; by repeat split. }
    exists message. split; [by apply emitted_app | done].
  - intros Hown Hres.
    assert (outbox (exec (socketHandler.onMessageDelete socket messageId) w)
            = outbox w ++ [mkEmit (ToChannel (roomChannel (Message.chatRoom m)))
                             "message:deleted" (PDeleted messageId (Message.chatRoom m))]
            ∧ messages (db (exec (socketHandler.onMessageDelete socket messageId) w))
                !! Message._id m
              = Some (Message.softDelete m (clock w))) as [Hout Hdb].
    { unfold socketHandler.onMessageDelete, chatHandler.handleDeleteMessage,
        Messages.findById, Messages.save, socketHandler.emitError, resolves in *.
      munfold.
      destruct (faults w) as [|[] [|[] fs]] eqn:Hf; simpl in Hres;
        try discriminate; wsimpl; rewrite ?Hf; wsimpl;
        rewrite Hm, bool_decide_eq_true_2 by done; simpl; wsimpl; rewrite ?Hf; wsimpl;
        (split; [done | apply lookup_insert_eq]). }
    split; [by apply emitted_app | done].
Qed.

Lemma C6_deleted_message_witness :
  (messages (db Sample.w0) !! "M2" = Some Sample.messageM2
   ∧ Message.isDeleted Sample.messageM2 = true)
  ∧ (∀ content, ∃ message,
      emitted (socketHandler.onMessageEdit Sample.sA1 (mkEditData "M2" content))
              Sample.w0 = [errorTo Sample.sA1 message]
      ∧ db (exec (socketHandler.onMessageEdit Sample.sA1 (mkEditData "M2" content))
                 Sample.w0) = db Sample.w0
      ∧ (resolves 1 Sample.w0 = true →
         Message.sender Sample.messageM2 = userId Sample.sA1 →
         message = "Cannot edit deleted message"))
  ∧ (Message.sender Sample.messageM2 = userId Sample.sA1 →
     resolves 2 Sample.w0 = true →
     emitted (socketHandler.onMessageDelete Sample.sA1 "M2") Sample.w0
       = [mkEmit (ToChannel (roomChannel (Message.chatRoom Sample.messageM2)))
            "message:deleted" (PDeleted "M2" (Message.chatRoom Sample.messageM2))]
     ∧ messages (db (exec (socketHandler.onMessageDelete Sample.sA1 "M2") Sample.w0))
         !! Message._id Sample.messageM2
       = Some (Message.softDelete Sample.messageM2 (clock Sample.w0))).
Proof.
  split; [split; vm_compute; reflexivity |].
  apply (C6_deleted_message_edit_refused_delete_repeated
           Sample.w0 Sample.sA1 "M2" Sample.messageM2); vm_compute; reflexivity.
Defined.

(** C6 as stated fails for deletion: M2 is already deleted, its author A
    deletes it again, no error is sent, message:deleted goes to the room
    channel, and the stored record changes (deletedAt moves from 3 to 7). *)
Lemma C6_delete_counterexample :
  let w' := exec (socketHandler.handle
                    (socketHandler.MessageDelete Sample.sA1 "M2")) Sample.w0 in
  Message.isDeleted Sample.messageM2 = true
  ∧ messages (db Sample.w0) !! "M2" = Some Sample.messageM2
  ∧ emitted (socketHandler.handle (socketHandler.MessageDelete Sample.sA1 "M2"))
            Sample.w0
    = [mkEmit (ToChannel "room:R1") "message:deleted" (PDeleted "M2" "R1")]
  ∧ ¬ (countEvent "error"
         (emitted (socketHandler.handle
                     (socketHandler.MessageDelete Sample.sA1 "M2")) Sample.w0) = 1)
  ∧ ¬ (messages (db w') !! "M2" = messages (db Sample.w0) !! "M2")
  ∧ Message.deletedAt Sample.messageM2 = Some 3
  ∧ Message.deletedAt <$> messages (db w') !! "M2" = Some (Some 7).
Proof.
  cbv zeta. split; [reflexivity |]. split; [vm_compute; reflexivity |].
  split; [vm_compute; reflexivity |]. split; [| split; [| split]].
  - assert (countEvent "error"
              (emitted (socketHandler.handle
                          (socketHandler.MessageDelete Sample.sA1 "M2"))
                       Sample.w0) = 0) as -> by (vm_compute; reflexivity).
    lia.
  - intros Heq.
    apply (f_equal (fmap Message.deletedAt)) in Heq.
    vm_compute in Heq. discriminate.
  - reflexivity.
  - vm_compute; reflexivity.
Qed.

(** *** The notification loop *)

Lemma with_outbox_same (w : World) : with_outbox (outbox w) w = w.
Proof. by destruct w. Qed.

Lemma userChannel_inj (a b : string) : userChannel a = userChannel b → a = b.
Proof. unfold userChannel. cbv [String.append]. congruence. Qed.

Lemma for_of_notify (chatRoomId : string) (message : Message.populated)
    (s : User.brief) (ps : list ChatRoom.participant) (w : World) :
  Message.senderDoc message = Some s →
  for_of ps (chatHandler.notifyOne chatRoomId message) w
  = (Return tt,
     with_outbox
       (outbox w ++ (notice chatRoomId message
                       <$> filter (λ p, ChatRoom.user p ≠ User.b_id s) ps)) w).
Proof.
  intros Hs. revert w. induction ps as [|p ps IH]; intros w.
  - simpl. unfold ret. by rewrite app_nil_r, with_outbox_same.
  - simpl. unfold bind at 1.
    unfold chatHandler.notifyOne at 1, chatHandler.sender_id. rewrite Hs.
    unfold bind at 1, ret at 1. rewrite filter_cons.
    destruct (bool_decide_reflect (ChatRoom.user p = User.b_id s)) as [Heq|Hne].
    + rewrite decide_False by (intros Hc; by apply Hc). unfold ret. apply IH.
    + rewrite decide_True by done. unfold emit, modify. rewrite IH. wsimpl.
      by rewrite fmap_cons, <- app_assoc.
Qed.

Lemma for_of_notify_null (chatRoomId : string) (message : Message.populated)
    (ps : list ChatRoom.participant) (w : World) :
  Message.senderDoc message = None →
  ∃ c, for_of ps (chatHandler.notifyOne chatRoomId message) w = (c, w).
Proof.
  intros Hs. destruct ps as [|p ps]; simpl; [by eexists |].
  unfold bind, chatHandler.notifyOne, chatHandler.sender_id. rewrite Hs.
  unfold bind, throw. by eexists.
Qed.

(** How [notifyParticipants] can end: always normally, never touching the
    collections or the registry; either nothing was sent, or the lookup
    resolved to a room, the sender is populated, and every entry other
    than the sender's got its notice. *)
Lemma notify_cases (chatRoomId : string) (message : Message.populated) (w : World) :
  ∃ w', chatHandler.notifyParticipants chatRoomId message w = (Return tt, w')
        ∧ db w' = db w ∧ registry w' = registry w
        ∧ (outbox w' = outbox w
           ∨ ∃ room s,
               resolves 1 w = true
               ∧ chatRooms (db w) !! chatRoomId = Some room
               ∧ Message.senderDoc message = Some s
               ∧ outbox w' = outbox w
                   ++ (notice chatRoomId message <$> others (User.b_id s) room)).
Proof.
  unfold chatHandler.notifyParticipants, ChatRooms.findById, resolves.
  unfold try_catch, bind at 1 2, await_, gets, console_error, modify.
  assert (Hloop : ∀ w1 : World, db w1 = db w → registry w1 = registry w →
            outbox w1 = outbox w → forallb negb (take 1 (faults w)) = true →
            ∃ w', match
                    (match chatRooms (db w1) !! chatRoomId with
                     | Some chatRoom =>
                         for_of (ChatRoom.participants chatRoom)
                           (chatHandler.notifyOne chatRoomId message)
                     | None => ret tt
                     end) w1
                  with
                  | (Return a, w'0) => (Return a, w'0)
                  | (Throw e, w'0) =>
                      (Return tt,
                       with_console
                         (console w'0 ++ ["Error notifying participants: " +:+ e]) w'0)
                  end = (Return tt, w')
              ∧ db w' = db w ∧ registry w' = registry w
              ∧ (outbox w' = outbox w
                 ∨ ∃ room s,
                     forallb negb (take 1 (faults w)) = true
                     ∧ chatRooms (db w) !! chatRoomId = Some room
                     ∧ Message.senderDoc message = Some s
                     ∧ outbox w' = outbox w
                         ++ (notice chatRoomId message <$> others (User.b_id s) room))).
  { intros w1 Hdb Hreg Hout Hres. rewrite Hdb.
    destruct (chatRooms (db w) !! chatRoomId) as [room|] eqn:Hroom.
    - destruct (Message.senderDoc message) as [s|] eqn:Hs.
      + rewrite (for_of_notify _ _ s _ _ Hs). eexists. split; [done |].
        wsimpl. repeat split; try done. right. exists room, s.
        rewrite Hout. by repeat split.
      + destruct (for_of_notify_null chatRoomId message
                    (ChatRoom.participants room) w1 Hs) as [c Hc].
        rewrite Hc. destruct c as [[]|e]; eexists; (split; [done |]);
          wsimpl; repeat split; try done; by left.
    - unfold ret. eexists. split; [done |]. repeat split; try done. by left. }
  destruct (faults w) as [|[] fs] eqn:Hf.
  - apply (Hloop w); done.
  - eexists. split; [done |]. wsimpl. repeat split; try done. by left.
  - apply (Hloop (with_faults fs w)); done.
Qed.

Lemma notify_sends (chatRoomId : string) (message : Message.populated)
    (w : World) (room : ChatRoom.t) (s : User.brief) :
  resolves 1 w = true →
  chatRooms (db w) !! chatRoomId = Some room →
  Message.senderDoc message = Some s →
  emitted (chatHandler.notifyParticipants chatRoomId message) w
  = notice chatRoomId message <$> others (User.b_id s) room.
Proof.
  intros Hres Hroom Hs. apply emitted_app.
  unfold chatHandler.notifyParticipants, ChatRooms.findById, resolves, exec in *.
  unfold try_catch, bind at 1 2, await_, gets.
  destruct (faults w) as [|[] fs] eqn:Hf; simpl in Hres; try discriminate;
    wsimpl; rewrite Hroom, (for_of_notify _ _ s _ _ Hs); by wsimpl.
Qed.

Lemma notify_emitted (chatRoomId : string) (message : Message.populated) (w : World) :
  emitted (chatHandler.notifyParticipants chatRoomId message) w = []
  ∨ ∃ room s,
      resolves 1 w = true
      ∧ chatRooms (db w) !! chatRoomId = Some room
      ∧ Message.senderDoc message = Some s
      ∧ emitted (chatHandler.notifyParticipants chatRoomId message) w
        = notice chatRoomId message <$> others (User.b_id s) room.
Proof.
  destruct (notify_cases chatRoomId message w)
    as (w' & Hrun & _ & _ & [Hout | (room & s & Hres & Hroom & Hs & Hout)]).
  - left. apply emitted_app. unfold exec. rewrite Hrun. simpl.
    by rewrite Hout, app_nil_r.
  - right. exists room, s. repeat split; try done. by apply notify_sends.
Qed.

Lemma notifiedOn_notices (chatRoomId : string) (message : Message.populated)
    (senderId p : string) (ps : list ChatRoom.participant) :
  notifiedOn p (notice chatRoomId message
                  <$> filter (λ q, ChatRoom.user q ≠ senderId) ps)
  = if decide (p = senderId) then 0
    else length (filter (λ q, ChatRoom.user q = p) ps).
Proof.
  unfold notifiedOn. induction ps as [|q ps IH].
  - simpl. by destruct (decide (p = senderId)).
  - rewrite !filter_cons.
    destruct (decide (ChatRoom.user q ≠ senderId)) as [Hne|Heq].
    + rewrite fmap_cons, filter_cons. simpl target. simpl event.
      destruct (decide (ChatRoom.user q = p)) as [Hqp|Hqp].
      * rewrite Hqp, decide_True by (by split). simpl. rewrite IH.
        destruct (decide (p = senderId)) as [Hp|Hp]; [congruence | done].
      * rewrite decide_False; [apply IH |].
        intros [Hc _]. apply Hqp, userChannel_inj. congruence.
    + apply dec_stable in Heq. rewrite IH.
      destruct (decide (p = senderId)) as [->|Hp]; [done |].
      by rewrite decide_False by congruence.
Qed.

Lemma entries_NoDup (p : string) (ps : list ChatRoom.participant) :
  NoDup (ChatRoom.user <$> ps) →
  length (filter (λ q, ChatRoom.user q = p) ps) ≤ 1.
Proof.
  induction ps as [|q ps IH]; [simpl; lia |].
  rewrite fmap_cons, NoDup_cons, filter_cons. intros [Hq Hnd].
  destruct (decide (ChatRoom.user q = p)) as [<-|Hne]; [| by apply IH].
  simpl. assert (filter (λ q0, ChatRoom.user q0 = ChatRoom.user q) ps = []) as ->.
  { apply filter_none. intros x Hx Heq.
    apply Hq. rewrite <- Heq. apply list_elem_of_fmap. by exists x. }
  simpl. lia.
Qed.

Lemma isParticipant_elem (room : ChatRoom.t) (u : string) :
  ChatRoom.isParticipant room u = true
  ↔ u ∈ ChatRoom.user <$> ChatRoom.participants room.
Proof.
  unfold ChatRoom.isParticipant.
  induction (ChatRoom.participants room) as [|p ps IH]; simpl.
  - split; [done | by intros ?%elem_of_nil].
  - rewrite orb_true_iff, IH, bool_decide_eq_true, elem_of_cons.
    split; (intros [?|?]; [by left | by right]).
Qed.

(** [addParticipant] never lists a user a second time. *)
Lemma addParticipant_NoDup (room : ChatRoom.t) (u role : string) (now : Date) :
  NoDup (ChatRoom.user <$> ChatRoom.participants room) →
  NoDup (ChatRoom.user
           <$> ChatRoom.participants (ChatRoom.addParticipant room u role now)).
Proof.
  intros Hnd. unfold ChatRoom.addParticipant.
  destruct (ChatRoom.isParticipant room u) eqn:Hin; simpl; [done |].
  rewrite fmap_app. apply NoDup_app. repeat split; [done | | apply NoDup_singleton].
  intros x Hx ->%list_elem_of_singleton.
  apply isParticipant_elem in Hx. simpl in Hx. congruence.
Qed.

(** C2: [notifyParticipants] sends one notice per entry of the participants
    array whose user is not the sender, on that user's private channel, and
    none on the sender's.  A participant gets at most as many notices as the
    array lists them, exactly that many when the lookup resolves and the
    sender is populated.  So the "at most once" of C2 holds for the rooms
    whose array lists nobody twice, as [ChatRoom.addParticipant] keeps it,
    and is missed for a group that [createGroupChat] stored with a user
    twice: that user gets two notices for one message. *)
Theorem C2_one_notice_per_participant_entry
    (w : World) (chatRoomId : string) (message : Message.populated)
    (room : ChatRoom.t) :
  chatRooms (db w) !! chatRoomId = Some room →
  let evs := emitted (chatHandler.notifyParticipants chatRoomId message) w in
  (∀ p, notifiedOn p evs ≤ entries p room)
  ∧ (∀ s, Message.senderDoc message = Some s → notifiedOn (User.b_id s) evs = 0)
  ∧ (∀ s p, resolves 1 w = true → Message.senderDoc message = Some s →
            p ≠ User.b_id s → notifiedOn p evs = entries p room)
  ∧ (NoDup (ChatRoom.user <$> ChatRoom.participants room) →
     ∀ p, notifiedOn p evs ≤ 1).
Proof.
  intros Hroom evs.
  assert (Hle : ∀ p, notifiedOn p evs ≤ entries p room).
  { intros p. subst evs.
    destruct (notify_emitted chatRoomId message w)
      as [-> | (room' & s & _ & Hroom' & _ & ->)]; [cbn; lia |].
    assert (room' = room) as -> by congruence.
    unfold others, entries. rewrite notifiedOn_notices.
    destruct (decide (p = User.b_id s)); lia. }
  repeat split.
  - done.
  - intros s Hs. subst evs.
    destruct (notify_emitted chatRoomId message w)
      as [-> | (room' & s' & _ & _ & Hs' & ->)]; [done |].
    assert (s' = s) as -> by congruence.
    unfold others. rewrite notifiedOn_notices. by rewrite decide_True.
  - intros s p Hres Hs Hp. subst evs.
    rewrite (notify_sends _ _ _ room s Hres Hroom Hs).
    unfold others, entries. rewrite notifiedOn_notices. by rewrite decide_False.
  - intros Hnd p. etrans; [apply Hle |]. by apply entries_NoDup.
Qed.

Lemma C2_notice_per_entry_witness :
  (chatRooms (db Sample.w0) !! "R1" = Some Sample.roomR1
   ∧ notifiedOn "A"
       (emitted (chatHandler.notifyParticipants "R1"
                   (Sample.populatedBy "A" Sample.userA Sample.messageM1))
                Sample.w0) = 0
   ∧ notifiedOn "B"
       (emitted (chatHandler.notifyParticipants "R1"
                   (Sample.populatedBy "A" Sample.userA Sample.messageM1))
                Sample.w0) ≤ 1)
  ∧ (chatRooms (db Sample.w0) !! "R2" = Some Sample.roomR2
     ∧ notifiedOn "B"
         (emitted (chatHandler.notifyParticipants "R2"
                     (Sample.populatedBy "A" Sample.userA Sample.messageM3))
                  Sample.w0) = 2).
Proof.
  assert (H1 : chatRooms (db Sample.w0) !! "R1" = Some Sample.roomR1)
    by (vm_compute; reflexivity).
  assert (H2 : chatRooms (db Sample.w0) !! "R2" = Some Sample.roomR2)
    by (vm_compute; reflexivity).
  split; (split; [done |]).
  - destruct (C2_one_notice_per_participant_entry Sample.w0 "R1"
                (Sample.populatedBy "A" Sample.userA Sample.messageM1)
                Sample.roomR1 H1) as (_ & Hsender & _ & Honce).
    split.
    + apply (Hsender (User.select "A" Sample.userA)). reflexivity.
    + apply Honce. apply (bool_decide_unpack _). vm_compute. exact I.
  - destruct (C2_one_notice_per_participant_entry Sample.w0 "R2"
                (Sample.populatedBy "A" Sample.userA Sample.messageM3)
                Sample.roomR2 H2) as (_ & _ & Hexact & _).
    rewrite (Hexact (User.select "A" Sample.userA) "B");
      [vm_compute; reflexivity | reflexivity | reflexivity |].
    apply (bool_decide_unpack _). vm_compute. exact I.
Defined.

(** Where C2 is missed: room R2 is the group that [createGroupChat] stores
    for creator A and the requested participants B, B; its array is A, B, B,
    and a message of A puts two notices on the private channel of B. *)
Lemma C2_duplicate_entry_counterexample :
  chatRooms (db Sample.w0) !! "R2" = Some Sample.roomR2
  ∧ ChatRoom.participants Sample.roomR2
    = chatRoomController.participantsList "A" ["B"; "B"] 0
  ∧ ChatRoom.user <$> ChatRoom.participants Sample.roomR2 = ["A"; "B"; "B"]
  ∧ ¬ (notifiedOn "B"
         (emitted (chatHandler.notifyParticipants "R2"
                     (Sample.populatedBy "A" Sample.userA Sample.messageM3))
                  Sample.w0) ≤ 1).
Proof.
  split; [vm_compute; reflexivity |]. split; [reflexivity |].
  split; [vm_compute; reflexivity |].
  assert (notifiedOn "B"
            (emitted (chatHandler.notifyParticipants "R2"
                        (Sample.populatedBy "A" Sample.userA Sample.messageM3))
                     Sample.w0) = 2) as -> by (vm_compute; reflexivity).
  lia.
Qed.

(** C3: [notifyParticipants] is handed the map of the users' sockets and
    is meant for the participants who are not in the room, but it reads
    neither that map nor the channel memberships.  Whatever the
    memberships are, every participant other than the sender is sent
    notification:message on their private channel, next to the message:new
    of the room channel; a participant who has joined the room channel
    gets both. *)
Theorem C3_notice_whoever_joined_the_room_channel
    (w : World) (joins : gmap string (gset string)) (chatRoomId : string)
    (message : Message.populated) (room : ChatRoom.t) (s : User.brief)
    (p : ChatRoom.participant) :
  resolves 1 w = true →
  chatRooms (db w) !! chatRoomId = Some room →
  Message.senderDoc message = Some s →
  p ∈ ChatRoom.participants room →
  ChatRoom.user p ≠ User.b_id s →
  mkEmit (ToChannel (userChannel (ChatRoom.user p))) "notification:message"
         (chatHandler.notification chatRoomId message)
  ∈ emitted (chatHandler.notifyParticipants chatRoomId message)
            (with_adapter joins w).
Proof.
  intros Hres Hroom Hs Hp Hne.
  rewrite (notify_sends chatRoomId message (with_adapter joins w) room s);
    try done.
  apply list_elem_of_fmap. exists p. split; [done |].
  unfold others. by apply list_elem_of_filter.
Qed.

Lemma C3_notice_witness :
  mkEmit (ToChannel "user:B") "notification:message"
         (chatHandler.notification "R1"
            (Sample.populatedBy "A" Sample.userA Sample.messageM1))
  ∈ emitted (chatHandler.notifyParticipants "R1"
               (Sample.populatedBy "A" Sample.userA Sample.messageM1))
            (with_adapter {["sB1" := {["user:B"; "room:R1"]}]} Sample.w0).
Proof.
  apply (C3_notice_whoever_joined_the_room_channel
           Sample.w0 {["sB1" := {["user:B"; "room:R1"]}]} "R1"
           (Sample.populatedBy "A" Sample.userA Sample.messageM1)
           Sample.roomR1 (User.select "A" Sample.userA) (Sample.member "B")).
  - vm_compute; reflexivity.
  - vm_compute; reflexivity.
  - reflexivity.
  - simpl. right. left.
  - apply (bool_decide_unpack _). vm_compute. exact I.
Defined.

(** Where C3 is missed: B is connected and has joined the channel of room
    R1 when A sends a message there, and B's private channel gets a
    notification:message all the same. *)
Lemma C3_joined_participant_counterexample :
  let w := socketHandler.run
             [socketHandler.Connection Sample.sB1;
              socketHandler.RoomJoin Sample.sB1 "R1"] Sample.w0 in
  joinedTo w "sB1" "room:R1"
  ∧ ChatRoom.isParticipant Sample.roomR1 "B" = true
  ∧ ¬ (notifiedOn "B"
         (emitted (socketHandler.handle
                     (socketHandler.MessageSend Sample.sA1
                        (mkSendData "R1" "hi" None)))
                  w) = 0).
Proof.
  cbv zeta. split; [| split].
  - unfold joinedTo. apply (bool_decide_unpack _). vm_compute. exact I.
  - reflexivity.
  - assert (notifiedOn "B"
              (emitted (socketHandler.handle
                          (socketHandler.MessageSend Sample.sA1
                             (mkSendData "R1" "hi" None)))
                       (socketHandler.run
                          [socketHandler.Connection Sample.sB1;
                           socketHandler.RoomJoin Sample.sB1 "R1"] Sample.w0)) = 1)
      as -> by (vm_compute; reflexivity).
    lia.
Qed.

(** *** Computations that leave part of the state alone *)

Section preservation.
Context {X : Type} (part : World → X).

Lemma preserves_ret {A} (a : A) : preserves part (ret a).
Proof. done. Qed.

Lemma preserves_throw {A} (e : string) : preserves part (@throw A e).
Proof. done. Qed.

Lemma preserves_gets {A} (f : World → A) : preserves part (gets f).
Proof. done. Qed.

Lemma preserves_modify (f : World → World) :
  (∀ w, part (f w) = part w) → preserves part (modify f).
Proof. intros Hf w. apply Hf. Qed.

Lemma preserves_await :
  (∀ fs w, part (with_faults fs w) = part w) → preserves part await_.
Proof.
  intros Hf w. unfold await_. destruct (faults w) as [|[] fs]; simpl; auto.
Qed.

Lemma preserves_bind {A B} (m : M A) (k : A → M B) :
  preserves part m → (∀ a, preserves part (k a)) → preserves part (bind m k).
Proof.
  intros Hm Hk w. unfold bind. specialize (Hm w).
  destruct (m w) as [[a|e] w1]; simpl in *; [| done].
  by rewrite Hk.
Qed.

Lemma preserves_try_catch {A} (m : M A) (h : string → M A) :
  preserves part m → (∀ e, preserves part (h e)) →
  preserves part (try_catch m h).
Proof.
  intros Hm Hh w. unfold try_catch. specialize (Hm w).
  destruct (m w) as [[a|e] w1]; simpl in *; [done |].
  by rewrite Hh.
Qed.

Lemma preserves_detached (m : M unit) :
  preserves part m → preserves part (detached m).
Proof. intros Hm w. apply Hm. Qed.

Lemma preserves_for_of {A} (xs : list A) (body : A → M unit) :
  (∀ x, preserves part (body x)) → preserves part (for_of xs body).
Proof.
  intros Hbody. induction xs as [|x xs IH]; simpl.
  - apply preserves_ret.
  - apply preserves_bind; [apply Hbody | intros _; apply IH].
Qed.

End preservation.

Ltac keep_step :=
  lazymatch goal with
  | |- preserves _ (ret _) => apply preserves_ret
  | |- preserves _ (throw _) => apply preserves_throw
  | |- preserves _ (gets _) => apply preserves_gets
  | |- preserves _ await_ => apply preserves_await; intros ? ?; reflexivity
  | |- preserves _ (modify _) => apply preserves_modify; intros ?; reflexivity
  | |- preserves _ (bind _ _) => apply preserves_bind; [| intros ?]
  | |- preserves _ (try_catch _ _) => apply preserves_try_catch; [| intros ?]
  | |- preserves _ (detached _) => apply preserves_detached
  | |- preserves _ (for_of _ _) => apply preserves_for_of; intros ?
  | |- preserves _ (match ?x with _ => _ end) => destruct x
  | |- preserves _ _ =>
      progress unfold ChatRooms.findById, ChatRooms.save, Messages.findById,
        Messages.save, Messages.create, Messages.populate,
        Users.findByIdAndUpdate, chatHandler.notifyOne, chatHandler.sender_id,
        socketHandler.emitError, socketHandler.socket_join,
        socketHandler.socket_leave, new_Date, emit, console_error
  end.

Ltac keep := repeat keep_step.

Lemma handleSendMessage_sends_nothing (socket : Socket) (data : SendData) :
  preserves outbox (chatHandler.handleSendMessage socket data).
Proof. unfold chatHandler.handleSendMessage. keep. Qed.

Lemma countEvent_notices (name chatRoomId : string) (message : Message.populated)
    (ps : list ChatRoom.participant) :
  name ≠ "notification:message" →
  countEvent name (notice chatRoomId message <$> ps) = 0.
Proof.
  intros Hname. unfold countEvent. rewrite filter_none; [done |].
  intros e [p [-> _]]%list_elem_of_fmap. simpl. congruence.
Qed.




(** *** The ordered containers *)

Section JsMap_facts.
Context {V : Type}.
Implicit Types (m : JsMap.t V) (k : string) (v : V).

Lemma JsMap_get_elem m k v : JsMap.get m k = Some v → (k, v) ∈ m.
Proof.
  induction m as [|[k' v'] m IH]; simpl; [done |].
  destruct (decide (k' = k)) as [->|Hne].
  - intros [= ->]. left.
  - intros Hget. right. by apply IH.
Qed.

Lemma JsMap_get_None m k : JsMap.get m k = None → ∀ kv, kv ∈ m → kv.1 ≠ k.
Proof.
  induction m as [|[k' v'] m IH]; simpl; intros Hget kv Hkv.
  - by apply not_elem_of_nil in Hkv.
  - destruct (decide (k' = k)) as [->|Hne]; [done |].
    apply elem_of_cons in Hkv as [->|Hkv]; [done | by apply IH].
Qed.

Lemma JsMap_has_keys m k : JsMap.has m k = true ↔ k ∈ JsMap.keys m.
Proof.
  unfold JsMap.has, JsMap.keys. split.
  - destruct (JsMap.get m k) as [v|] eqn:Hget; [| done]. intros _.
    apply list_elem_of_fmap. exists (k, v). split; [done |].
    by apply JsMap_get_elem.
  - intros [kv [-> Hkv]]%list_elem_of_fmap.
    destruct (JsMap.get m kv.1) as [v|] eqn:Hget; [done |].
    by destruct (JsMap_get_None m kv.1 Hget kv Hkv).
Qed.

Lemma JsMap_get_set m k v : JsMap.get (JsMap.set m k v) k = Some v.
Proof.
  induction m as [|[k' v'] m IH]; simpl.
  - by rewrite decide_True.
  - destruct (decide (k' = k)) as [->|Hne]; simpl.
    + by rewrite decide_True.
    + by rewrite decide_False.
Qed.

Lemma JsMap_set_same m k v : JsMap.get m k = Some v → JsMap.set m k v = m.
Proof.
  induction m as [|[k' v'] m IH]; simpl; [done |].
  destruct (decide (k' = k)) as [->|Hne].
  - by intros [= ->].
  - intros Hget. by rewrite IH.
Qed.

Lemma JsMap_delete_absent m k : JsMap.get m k = None → JsMap.delete m k = m.
Proof. intros Hget. apply filter_all. by apply JsMap_get_None. Qed.

Lemma JsMap_get_delete m k : JsMap.get (JsMap.delete m k) k = None.
Proof.
  unfold JsMap.delete. induction m as [|[k' v'] m IH]; [done |].
  rewrite filter_cons. simpl.
  destruct (decide (k' ≠ k)) as [Hne|Heq]; [| done].
  simpl. by rewrite decide_False.
Qed.

Lemma JsMap_Forall_set (P : string * V → Prop) m k v :
  Forall P m → P (k, v) → Forall P (JsMap.set m k v).
Proof.
  intros Hm Hkv. induction Hm as [|[k' v'] m Hp Hm IH]; simpl.
  - by repeat constructor.
  - destruct (decide (k' = k)) as [->|Hne]; by constructor.
Qed.

Lemma JsMap_Forall_delete (P : string * V → Prop) m k :
  Forall P m → Forall P (JsMap.delete m k).
Proof.
  intros Hm. apply Forall_forall. intros kv [_ Hkv]%list_elem_of_filter.
  by eapply Forall_forall in Hm.
Qed.

End JsMap_facts.

Lemma JsSet_add_nonempty (s : JsSet.t) (x : string) : JsSet.add s x ≠ [].
Proof.
  unfold JsSet.add, JsSet.has.
  destruct (bool_decide_reflect (x ∈ s)) as [Hin|Hout].
  - intros ->. by apply not_elem_of_nil in Hin.
  - by destruct s.
Qed.

Lemma JsSet_delete_absent (s : JsSet.t) (x : string) :
  x ∉ s → JsSet.delete s x = s.
Proof. intros Hx. apply filter_all. intros y Hy ->. by apply Hx. Qed.

Lemma JsSet_not_in_delete (s : JsSet.t) (x : string) : x ∉ JsSet.delete s x.
Proof. unfold JsSet.delete. by intros [? _]%list_elem_of_filter. Qed.

Lemma JsSet_fold_add (l : list string) (acc : JsSet.t) :
  NoDup acc →
  NoDup (foldl JsSet.add acc l)
  ∧ ∀ x, x ∈ foldl JsSet.add acc l ↔ x ∈ acc ∨ x ∈ l.
Proof.
  revert acc. induction l as [|y l IH]; intros acc Hacc; simpl.
  - split; [done |]. intros x. rewrite elem_of_nil. tauto.
  - assert (NoDup (JsSet.add acc y)
            ∧ ∀ x, x ∈ JsSet.add acc y ↔ x ∈ acc ∨ x = y) as [Hnd Hin].
    { unfold JsSet.add, JsSet.has.
      destruct (bool_decide_reflect (y ∈ acc)) as [Hy|Hy].
      - split; [done |]. intros x. split; [tauto |]. by intros [?| ->].
      - split.
        + apply NoDup_app. repeat split; [done | | apply NoDup_singleton].
          intros x Hx ->%list_elem_of_singleton. by apply Hy.
        + intros x. by rewrite elem_of_app, list_elem_of_singleton. }
    destruct (IH _ Hnd) as [Hnd' Hin']. split; [done |].
    intros x. rewrite Hin', Hin, elem_of_cons. tauto.
Qed.

Lemma JsSet_of_list_spec (l : list string) :
  NoDup (JsSet.of_list l) ∧ ∀ x, x ∈ JsSet.of_list l ↔ x ∈ l.
Proof.
  destruct (JsSet_fold_add l JsSet.empty (NoDup_nil_2)) as [Hnd Hin].
  split; [done |]. intros x. unfold JsSet.of_list. rewrite Hin.
  unfold JsSet.empty. rewrite elem_of_nil. tauto.
Qed.

Lemma NoDup_occurs_once (l : list string) (x : string) :
  NoDup l →
  length (filter (λ y, y = x) l) = if bool_decide (x ∈ l) then 1 else 0.
Proof.
  induction 1 as [|y l Hy Hnd IH]; [done |].
  rewrite filter_cons.
  destruct (decide (y = x)) as [->|Hne].
  - rewrite bool_decide_eq_true_2 by left. simpl.
    rewrite filter_none; [done |]. intros z Hz ->. by apply Hy.
  - rewrite IH. apply (f_equal (λ b : bool, if b then 1 else 0)).
    apply bool_decide_ext. rewrite elem_of_cons.
    split; [by right | intros [Heq|Hin]; [congruence | done]].
Qed.

(** *** The registry along a run *)

Lemma JsMap_set_set {V} (m : JsMap.t V) (k : string) (v1 v2 : V) :
  JsMap.set (JsMap.set m k v1) k v2 = JsMap.set m k v2.
Proof.
  induction m as [|[k' v'] m IH]; simpl.
  - by rewrite decide_True.
  - destruct (decide (k' = k)) as [->|Hne]; simpl.
    + by rewrite decide_True.
    + by rewrite decide_False, IH.
Qed.

Lemma track_ok (socket : Socket) (r : Registry) :
  registry_ok r → registry_ok (socketHandler.track socket r).
Proof.
  unfold registry_ok, socketHandler.track, JsMap.has. intros Hok. simpl.
  destruct (JsMap.get (userSockets r) (userId socket)) as [s|] eqn:Hget; simpl.
  - rewrite Hget. apply JsMap_Forall_set; [done |]. apply JsSet_add_nonempty.
  - rewrite JsMap_get_set, JsMap_set_set.
    apply JsMap_Forall_set; [done |]. apply JsSet_add_nonempty.
Qed.

Lemma untrack_ok (socket : Socket) (r : Registry) :
  registry_ok r → registry_ok (socketHandler.untrack socket r).1.
Proof.
  unfold registry_ok, socketHandler.untrack, JsSet.size. intros Hok.
  destruct (JsMap.get (userSockets r) (userId socket)) as [s|]; [| done].
  destruct (JsSet.delete s (id socket)) as [|x s'] eqn:Hdel; simpl.
  - by apply JsMap_Forall_delete.
  - by apply JsMap_Forall_set.
Qed.

Lemma registry_after_ok (ev : socketHandler.ClientEvent) (r : Registry) :
  registry_ok r → registry_ok (registry_after ev r).
Proof.
  destruct ev; simpl; auto using track_ok, untrack_ok.
Qed.

Lemma registry_after_modify {A} (f : Registry → Registry) (rest : M A) (w : World) :
  preserves registry rest →
  registry (exec (socketHandler.modify_registry f ;;; rest) w) = f (registry w).
Proof.
  intros Hrest. unfold exec, bind, socketHandler.modify_registry, modify.
  by rewrite Hrest.
Qed.

Lemma registry_after_update {A B} (f : Registry → Registry * A) (k : A → M B)
    (w : World) :
  (∀ a, preserves registry (k a)) →
  registry (exec (bind (socketHandler.update_registry f) k) w) = (f (registry w)).1.
Proof.
  intros Hk. unfold exec, bind, socketHandler.update_registry.
  by rewrite Hk.
Qed.

Lemma notifyParticipants_keeps_registry (chatRoomId : string)
    (message : Message.populated) :
  preserves registry (chatHandler.notifyParticipants chatRoomId message).
Proof. unfold chatHandler.notifyParticipants. keep. Qed.

Lemma preserves_exec {A X} (part : World → X) (m : M A) (w : World) :
  preserves part m → part (exec m w) = part w.
Proof. intros Hm. apply Hm. Qed.

Lemma step_registry (w : World) (ev : socketHandler.ClientEvent) :
  registry (socketHandler.step w ev) = registry_after ev (registry w).
Proof.
  unfold socketHandler.step.
  destruct ev as [s|s r|s r|s data|s data|s mid|s r|s r|s r|s| |d];
    cbn [registry_after socketHandler.handle].
  - unfold socketHandler.onConnection. apply registry_after_modify. keep.
  - apply preserves_exec. unfold socketHandler.onRoomJoin. keep.
  - apply preserves_exec. unfold socketHandler.onRoomLeave. keep.
  - apply preserves_exec.
    unfold socketHandler.onMessageSend, chatHandler.handleSendMessage. keep.
    apply notifyParticipants_keeps_registry.
  - apply preserves_exec.
    unfold socketHandler.onMessageEdit, chatHandler.handleEditMessage. keep.
  - apply preserves_exec.
    unfold socketHandler.onMessageDelete, chatHandler.handleDeleteMessage. keep.
  - apply preserves_exec. unfold socketHandler.onTypingStart. keep.
  - apply preserves_exec. unfold socketHandler.onTypingStop. keep.
  - apply preserves_exec.
    unfold socketHandler.onMessagesRead, chatHandler.handleMarkAsRead. keep.
  - unfold exec, bind at 1, modify.
    unfold socketHandler.onDisconnect.
    etrans; [apply registry_after_update; intros [|]; keep | done].
  - done.
  - done.
Qed.

Lemma run_registry_ok (evs : list socketHandler.ClientEvent) (w : World) :
  registry_ok (registry w) → registry_ok (registry (socketHandler.run evs w)).
Proof.
  revert w. induction evs as [|ev evs IH]; intros w Hok; [done |].
  simpl. apply IH. rewrite step_registry. by apply registry_after_ok.
Qed.

Lemma boot_registry_ok (d : Db) (schedule : list bool) (now : Date) :
  registry_ok (registry (socketHandler.boot d schedule now)).
Proof. constructor. Qed.

Lemma registry_eta (r : Registry) : mkRegistry (onlineUsers r) (userSockets r) = r.
Proof. by destruct r. Qed.

Lemma with_registry_same (w : World) : with_registry (registry w) w = w.
Proof. by destruct w. Qed.

Lemma getUserSockets_ok (r : Registry) (u : string) (s : JsSet.t) :
  registry_ok r → JsMap.get (userSockets r) u = Some s → s ≠ [].
Proof.
  intros Hok Hget. apply JsMap_get_elem in Hget.
  unfold registry_ok in Hok. rewrite Forall_forall in Hok.
  apply (Hok (u, s) Hget).
Qed.

(** Unregistering a socket the registry does not hold changes nothing. *)
Lemma untrack_absent (socket : Socket) (r : Registry) :
  registry_ok r →
  JsMap.has (onlineUsers r) (id socket) = false →
  id socket ∉ socketHandler.getUserSockets r (userId socket) →
  socketHandler.untrack socket r = (r, false).
Proof.
  unfold JsMap.has, socketHandler.getUserSockets, socketHandler.untrack.
  intros Hok Hhas Hout.
  destruct (JsMap.get (onlineUsers r) (id socket)) eqn:Hget; [done |].
  rewrite (JsMap_delete_absent _ _ Hget).
  destruct (JsMap.get (userSockets r) (userId socket)) as [s|] eqn:Hs.
  - rewrite (JsSet_delete_absent _ _ Hout).
    pose proof (getUserSockets_ok r _ s Hok Hs) as Hne.
    destruct s as [|x s]; [done |]. simpl.
    by rewrite (JsMap_set_same _ _ _ Hs), registry_eta.
  - by rewrite registry_eta.
Qed.

Lemma disconnect_absent (socket : Socket) (w : World) :
  registry_ok (registry w) →
  JsMap.has (onlineUsers (registry w)) (id socket) = false →
  id socket ∉ socketHandler.getUserSockets (registry w) (userId socket) →
  socketHandler.onDisconnect socket w = (Return tt, w).
Proof.
  intros Hok Hhas Hout.
  unfold socketHandler.onDisconnect, bind, socketHandler.update_registry.
  rewrite (untrack_absent socket _ Hok Hhas Hout). simpl.
  by rewrite with_registry_same.
Qed.

Lemma disconnect_registry (socket : Socket) (w : World) :
  registry (exec (socketHandler.onDisconnect socket) w)
  = (socketHandler.untrack socket (registry w)).1.
Proof.
  unfold socketHandler.onDisconnect.
  apply registry_after_update. intros [|]; keep.
Qed.

(** After [untrack], the socket is in neither map. *)
Lemma untrack_removes (socket : Socket) (r : Registry) :
  JsMap.has (onlineUsers (socketHandler.untrack socket r).1) (id socket) = false
  ∧ id socket
    ∉ socketHandler.getUserSockets (socketHandler.untrack socket r).1 (userId socket).
Proof.
  unfold socketHandler.untrack, socketHandler.getUserSockets, JsMap.has.
  destruct (JsMap.get (userSockets r) (userId socket)) as [s|] eqn:Hs.
  - destruct (JsSet.size (JsSet.delete s (id socket)) =? 0); simpl;
      rewrite JsMap_get_delete; (split; [done |]).
    + rewrite JsMap_get_delete. apply not_elem_of_nil.
    + rewrite JsMap_get_set. apply JsSet_not_in_delete.
  - simpl. rewrite JsMap_get_delete, Hs. split; [done | apply not_elem_of_nil].
Qed.

Lemma emitted_nothing {A} (m : M A) (w : World) (c : Completion A) :
  m w = (c, w) → emitted m w = [].
Proof.
  intros Hrun. unfold emitted, exec. rewrite Hrun. simpl.
  by rewrite drop_all.
Qed.

(** C8: in every state the server can reach, running the disconnect
    handler for a socket that the registry does not hold ends normally
    and leaves the whole state, registry and outbox included, as it was;
    in particular a second run right after a first one does nothing and
    sends no user:offline. *)
Theorem C8_unregister_absent_is_noop
    (evs : list socketHandler.ClientEvent) (d : Db) (schedule : list bool)
    (now : Date) (socket : Socket) :
  let w := socketHandler.run evs (socketHandler.boot d schedule now) in
  (JsMap.has (onlineUsers (registry w)) (id socket) = false →
   id socket ∉ socketHandler.getUserSockets (registry w) (userId socket) →
   socketHandler.onDisconnect socket w = (Return tt, w)
   ∧ emitted (socketHandler.onDisconnect socket) w = [])
  ∧ (let w1 := exec (socketHandler.onDisconnect socket) w in
     socketHandler.onDisconnect socket w1 = (Return tt, w1)
     ∧ emitted (socketHandler.onDisconnect socket) w1 = []).
Proof.
  intros w.
  assert (Hok : registry_ok (registry w))
    by apply run_registry_ok, boot_registry_ok.
  split.
  - intros Hhas Hout.
    pose proof (disconnect_absent socket w Hok Hhas Hout) as Hrun.
    split; [done | by eapply emitted_nothing].
  - intros w1.
    assert (Hrun : socketHandler.onDisconnect socket w1 = (Return tt, w1)).
    { destruct (untrack_removes socket (registry w)) as [Hhas Hout].
      apply disconnect_absent; subst w1; rewrite disconnect_registry;
        [by apply untrack_ok | done | done]. }
    split; [done | by eapply emitted_nothing].
Qed.

Lemma C8_unregister_absent_witness :
  socketHandler.onDisconnect Sample.sA2
    (socketHandler.run [socketHandler.Connection Sample.sA1] Sample.w0)
  = (Return tt, socketHandler.run [socketHandler.Connection Sample.sA1] Sample.w0).
Proof.
  destruct (C8_unregister_absent_is_noop
              [socketHandler.Connection Sample.sA1] Sample.sampleDb [] 7 Sample.sA2)
    as [Habsent _].
  apply Habsent.
  - vm_compute; reflexivity.
  - apply (bool_decide_unpack _). vm_compute. exact I.
Defined.

(** *** The sockets of a user *)

Section JsMap_more.
Context {V : Type}.
Implicit Types (m : JsMap.t V) (k : string) (v : V).

Lemma JsMap_get_set_ne m k k' v :
  k ≠ k' → JsMap.get (JsMap.set m k v) k' = JsMap.get m k'.
Proof.
  intros Hne. induction m as [|[k0 v0] m IH]; simpl.
  - by rewrite decide_False.
  - destruct (decide (k0 = k)) as [->|Hk]; simpl.
    + by rewrite !decide_False.
    + by rewrite IH.
Qed.

Lemma JsMap_get_delete_ne m k k' :
  k ≠ k' → JsMap.get (JsMap.delete m k) k' = JsMap.get m k'.
Proof.
  intros Hne. unfold JsMap.delete. induction m as [|[k0 v0] m IH]; [done |].
  rewrite filter_cons. simpl.
  destruct (decide (k0 ≠ k)) as [Hk|Hk]; simpl.
  - by rewrite IH.
  - apply dec_stable in Hk. subst k0. by rewrite decide_False.
Qed.

Lemma JsMap_keys_set m k v :
  JsMap.keys (JsMap.set m k v)
  = if JsMap.has m k then JsMap.keys m else JsMap.keys m ++ [k].
Proof.
  unfold JsMap.has, JsMap.keys. induction m as [|[k0 v0] m IH]; simpl; [done |].
  destruct (decide (k0 = k)) as [->|Hk]; simpl; [done |].
  change (list_fmap (string * V)%type string fst) with (fmap (M:=list) (@fst string V)).
  rewrite IH. by destruct (JsMap.get m k).
Qed.

Lemma JsMap_keys_delete m k :
  JsMap.keys (JsMap.delete m k) = filter (λ k', k' ≠ k) (JsMap.keys m).
Proof.
  unfold JsMap.delete, JsMap.keys. induction m as [|[k0 v0] m IH]; [done |].
  rewrite filter_cons. cbn [fst].
  destruct (decide (k0 ≠ k)) as [Hk|Hk].
  - rewrite !fmap_cons, filter_cons. cbn [fst].
    rewrite decide_True by done. by rewrite IH.
  - rewrite fmap_cons, filter_cons. cbn [fst].
    by rewrite decide_False by done.
Qed.

Lemma JsMap_keys_NoDup_set m k v :
  NoDup (JsMap.keys m) → NoDup (JsMap.keys (JsMap.set m k v)).
Proof.
  intros Hnd. rewrite JsMap_keys_set.
  destruct (JsMap.has m k) eqn:Hhas; [done |].
  apply NoDup_app. repeat split; [done | | apply NoDup_singleton].
  intros x Hx ->%list_elem_of_singleton.
  apply JsMap_has_keys in Hx. congruence.
Qed.

Lemma JsMap_keys_NoDup_delete m k :
  NoDup (JsMap.keys m) → NoDup (JsMap.keys (JsMap.delete m k)).
Proof. intros Hnd. rewrite JsMap_keys_delete. by apply NoDup_filter. Qed.

End JsMap_more.

Lemma track_sockets_other (socket : Socket) (r : Registry) (u : string) :
  u ≠ userId socket →
  socketHandler.getUserSockets (socketHandler.track socket r) u
  = socketHandler.getUserSockets r u.
Proof.
  intros Hne. unfold socketHandler.getUserSockets, socketHandler.track, JsMap.has.
  simpl.
  destruct (JsMap.get (userSockets r) (userId socket)) as [s|] eqn:Hs; simpl.
  - rewrite Hs. by rewrite JsMap_get_set_ne.
  - rewrite JsMap_get_set. by rewrite !JsMap_get_set_ne.
Qed.

Lemma untrack_sockets_other (socket : Socket) (r : Registry) (u : string) :
  u ≠ userId socket →
  socketHandler.getUserSockets (socketHandler.untrack socket r).1 u
  = socketHandler.getUserSockets r u.
Proof.
  intros Hne. unfold socketHandler.getUserSockets, socketHandler.untrack.
  destruct (JsMap.get (userSockets r) (userId socket)) as [s|]; [| done].
  destruct (JsSet.size (JsSet.delete s (id socket)) =? 0); simpl.
  - by rewrite JsMap_get_delete_ne.
  - by rewrite JsMap_get_set_ne.
Qed.

Lemma JsSet_elem_add (s : JsSet.t) (x y : string) :
  x ∈ JsSet.add s y ↔ x ∈ s ∨ x = y.
Proof.
  unfold JsSet.add, JsSet.has.
  destruct (bool_decide_reflect (y ∈ s)) as [Hy|Hy].
  - split; [tauto |]. by intros [?| ->].
  - by rewrite elem_of_app, list_elem_of_singleton.
Qed.

Lemma JsSet_elem_delete (s : JsSet.t) (x y : string) :
  x ∈ JsSet.delete s y ↔ x ∈ s ∧ x ≠ y.
Proof. unfold JsSet.delete. rewrite list_elem_of_filter. tauto. Qed.

Lemma track_sockets (socket : Socket) (r : Registry) :
  socketHandler.getUserSockets (socketHandler.track socket r) (userId socket)
  = JsSet.add (socketHandler.getUserSockets r (userId socket)) (id socket).
Proof.
  unfold socketHandler.getUserSockets, socketHandler.track, JsMap.has. simpl.
  destruct (JsMap.get (userSockets r) (userId socket)) as [s|] eqn:Hs; simpl.
  - by rewrite Hs, JsMap_get_set.
  - by rewrite JsMap_get_set, JsMap_get_set.
Qed.

Lemma untrack_sockets (socket : Socket) (r : Registry) :
  let rest := JsSet.delete (socketHandler.getUserSockets r (userId socket))
                           (id socket) in
  socketHandler.isUserOnline r (userId socket) = true →
  socketHandler.getUserSockets (socketHandler.untrack socket r).1 (userId socket)
  = rest
  ∧ (socketHandler.untrack socket r).2 = bool_decide (rest = [])
  ∧ socketHandler.isUserOnline (socketHandler.untrack socket r).1 (userId socket)
    = negb (bool_decide (rest = [])).
Proof.
  unfold socketHandler.isUserOnline, socketHandler.getUserSockets,
    socketHandler.untrack, JsMap.has, JsSet.size.
  destruct (JsMap.get (userSockets r) (userId socket)) as [s|] eqn:Hs; [| done].
  intros _. destruct (JsSet.delete s (id socket)) as [|x s'] eqn:Hdel; simpl.
  - by rewrite JsMap_get_delete.
  - by rewrite JsMap_get_set.
Qed.

(** *** Which connections the registry holds *)

Section calm.

Lemma calm_ret {A} (a : A) : calm (ret a).
Proof. by intros w Hf. Qed.

Lemma calm_throw {A} (e : string) : calm (@throw A e).
Proof. by intros w Hf. Qed.

Lemma calm_gets {A} (f : World → A) : calm (gets f).
Proof. by intros w Hf. Qed.

Lemma calm_modify (f : World → World) :
  (∀ w, faults (f w) = faults w) → calm (modify f).
Proof. intros Hfaults w Hf. simpl. by rewrite Hfaults. Qed.

Lemma calm_await : calm await_.
Proof. intros w Hf. unfold await_. by rewrite Hf. Qed.

Lemma calm_update_registry {A} (f : Registry → Registry * A) :
  calm (socketHandler.update_registry f).
Proof. by intros w Hf. Qed.

Lemma calm_bind {A B} (m : M A) (k : A → M B) :
  calm m → (∀ a, calm (k a)) → calm (bind m k).
Proof.
  intros Hm Hk w Hf. unfold bind. specialize (Hm w Hf).
  destruct (m w) as [[a|e] w1]; simpl in *; [by apply Hk | done].
Qed.

Lemma calm_try_catch {A} (m : M A) (h : string → M A) :
  calm m → (∀ e, calm (h e)) → calm (try_catch m h).
Proof.
  intros Hm Hh w Hf. unfold try_catch. specialize (Hm w Hf).
  destruct (m w) as [[a|e] w1]; simpl in *; [done | by apply Hh].
Qed.

Lemma calm_detached (m : M unit) : calm m → calm (detached m).
Proof. intros Hm w Hf. by apply Hm. Qed.

Lemma calm_for_of {A} (xs : list A) (body : A → M unit) :
  (∀ x, calm (body x)) → calm (for_of xs body).
Proof.
  intros Hbody. induction xs as [|x xs IH]; simpl.
  - apply calm_ret.
  - apply calm_bind; [apply Hbody | intros _; apply IH].
Qed.

End calm.

Ltac calm_step :=
  lazymatch goal with
  | |- calm (ret _) => apply calm_ret
  | |- calm (throw _) => apply calm_throw
  | |- calm (gets _) => apply calm_gets
  | |- calm await_ => apply calm_await
  | |- calm (modify _) => apply calm_modify; intros ?; reflexivity
  | |- calm (socketHandler.update_registry _) => apply calm_update_registry
  | |- calm (bind _ _) => apply calm_bind; [| intros ?]
  | |- calm (try_catch _ _) => apply calm_try_catch; [| intros ?]
  | |- calm (detached _) => apply calm_detached
  | |- calm (for_of _ _) => apply calm_for_of; intros ?
  | |- calm (match ?x with _ => _ end) => destruct x
  | |- calm _ =>
      progress unfold ChatRooms.findById, ChatRooms.save, Messages.findById,
        Messages.save, Messages.create, Messages.populate,
        Users.findByIdAndUpdate, chatHandler.notifyOne, chatHandler.sender_id,
        chatHandler.notifyParticipants, chatHandler.handleSendMessage,
        chatHandler.handleEditMessage, chatHandler.handleDeleteMessage,
        chatHandler.handleMarkAsRead,
        socketHandler.emitError, socketHandler.socket_join,
        socketHandler.socket_leave, socketHandler.modify_registry,
        socketHandler.onConnection, socketHandler.onRoomJoin,
        socketHandler.onRoomLeave, socketHandler.onMessageSend,
        socketHandler.onMessageEdit, socketHandler.onMessageDelete,
        socketHandler.onTypingStart, socketHandler.onTypingStop,
        socketHandler.onMessagesRead, socketHandler.onDisconnect,
        new_Date, emit, console_error
  end.

Lemma handle_calm (ev : socketHandler.ClientEvent) : calm (socketHandler.handle ev).
Proof. destruct ev; cbn [socketHandler.handle]; repeat calm_step. Qed.

Lemma connection_returns (socket : Socket) (w : World) :
  faults w = [] → returns (socketHandler.onConnection socket) w = true.
Proof.
  intros Hf.
  unfold returns, socketHandler.onConnection, socketHandler.modify_registry,
    Users.findByIdAndUpdate, socketHandler.socket_join.
  munfold. simpl. by rewrite Hf.
Qed.

Lemma connection_rejected (socket : Socket) (w : World) (later : list bool) :
  faults w = true :: later → returns (socketHandler.onConnection socket) w = false.
Proof.
  intros Hf.
  unfold returns, socketHandler.onConnection, socketHandler.modify_registry,
    Users.findByIdAndUpdate, socketHandler.socket_join.
  munfold. simpl. by rewrite Hf.
Qed.

Lemma sockets_online (r : Registry) (u i : string) :
  i ∈ socketHandler.getUserSockets r u → socketHandler.isUserOnline r u = true.
Proof.
  unfold socketHandler.getUserSockets, socketHandler.isUserOnline, JsMap.has.
  destruct (JsMap.get (userSockets r) u); [done |].
  by intros ?%elem_of_nil.
Qed.

Lemma online_sockets (r : Registry) (u : string) :
  registry_ok r →
  socketHandler.isUserOnline r u = true →
  ∃ i, i ∈ socketHandler.getUserSockets r u.
Proof.
  unfold socketHandler.getUserSockets, socketHandler.isUserOnline, JsMap.has.
  intros Hok. destruct (JsMap.get (userSockets r) u) as [s|] eqn:Hs; [| done].
  intros _. pose proof (getUserSockets_ok r u s Hok Hs) as Hne.
  destruct s as [|i s]; [done |]. exists i. left.
Qed.

Ltac hears_cases :=
  try match goal with
      | |- context [socketServer.hears ?s ?socket] =>
          destruct (socketServer.hears s socket)
      end.

Lemma receive_registry (s : socketServer.t) (a : socketServer.Arrival) :
  registry (socketServer.world (socketServer.receive s a))
  = match a with
    | socketServer.OpenAndClose socket
    | socketServer.Arrive (socketHandler.Connection socket) =>
        socketHandler.track socket (registry (socketServer.world s))
    | socketServer.Arrive (socketHandler.Disconnect socket) =>
        if socketServer.hears s socket
        then (socketHandler.untrack socket (registry (socketServer.world s))).1
        else registry (socketServer.world s)
    | _ => registry (socketServer.world s)
    end.
Proof.
  destruct a as [ev|socket]; [destruct ev |]; simpl;
    hears_cases; simpl; rewrite ?step_registry; done.
Qed.

Lemma receive_listening (s : socketServer.t) (a : socketServer.Arrival) (i : string) :
  i ∈ socketServer.listening (socketServer.receive s a) →
  i ∈ socketServer.listening s
  ∨ ∃ socket, a = socketServer.Arrive (socketHandler.Connection socket)
              ∧ i = id socket.
Proof.
  destruct a as [ev|socket]; [destruct ev |]; simpl;
    hears_cases; simpl; try (by left).
  - destruct (returns _ _); [| by left].
    rewrite elem_of_union, elem_of_singleton.
    intros [-> | ?]; [right; by eexists | by left].
  - intros [? _]%elem_of_difference. by left.
Qed.

Lemma receive_registry_ok (s : socketServer.t) (a : socketServer.Arrival) :
  registry_ok (registry (socketServer.world s)) →
  registry_ok (registry (socketServer.world (socketServer.receive s a))).
Proof.
  intros Hok. rewrite receive_registry.
  destruct a as [ev|socket]; [destruct ev |]; hears_cases;
    try done; try by apply track_ok. by apply untrack_ok.
Qed.

Lemma serve_snoc (arrivals : list socketServer.Arrival) (a : socketServer.Arrival)
    (s : socketServer.t) :
  socketServer.serve (arrivals ++ [a]) s
  = socketServer.receive (socketServer.serve arrivals s) a.
Proof. unfold socketServer.serve. by rewrite foldl_app. Qed.

Lemma serve_cons (a : socketServer.Arrival) (later : list socketServer.Arrival)
    (s : socketServer.t) :
  socketServer.serve (a :: later) s
  = socketServer.serve later (socketServer.receive s a).
Proof. done. Qed.

Lemma serve_app (before later : list socketServer.Arrival) (s : socketServer.t) :
  socketServer.serve (before ++ later) s
  = socketServer.serve later (socketServer.serve before s).
Proof. unfold socketServer.serve. by rewrite foldl_app. Qed.

Lemma serve_registry_ok (arrivals : list socketServer.Arrival) (s : socketServer.t) :
  registry_ok (registry (socketServer.world s)) →
  registry_ok (registry (socketServer.world (socketServer.serve arrivals s))).
Proof.
  revert s. induction arrivals as [|a arrivals IH]; intros s Hok; [done |].
  apply IH. by apply receive_registry_ok.
Qed.

Lemma live_snoc (arrivals : list socketServer.Arrival) (a : socketServer.Arrival) :
  socketServer.live (arrivals ++ [a])
  = socketServer.opens (socketServer.live arrivals) a.
Proof. unfold socketServer.live. by rewrite foldl_app. Qed.

Lemma live_sockets (arrivals : list socketServer.Arrival) (socket : Socket) :
  socket ∈ socketServer.live arrivals → socket ∈ socketServer.sockets arrivals.
Proof.
  induction arrivals as [|a arrivals IH] using rev_ind;
    [by intros ?%elem_of_nil |].
  rewrite live_snoc. unfold socketServer.sockets. rewrite omap_app, elem_of_app.
  destruct a as [ev|s']; [destruct ev |]; simpl;
    try (intros ?; left; by apply IH).
  - rewrite elem_of_app, list_elem_of_singleton.
    intros [? | ->]; [left; by apply IH | by right].
  - intros [_ ?]%list_elem_of_filter. left. by apply IH.
Qed.

Lemma coherent_prefix (arrivals : list socketServer.Arrival)
    (a : socketServer.Arrival) :
  socketServer.coherent (arrivals ++ [a]) → socketServer.coherent arrivals.
Proof.
  unfold socketServer.coherent, socketServer.sockets.
  rewrite omap_app, !Forall_forall. intros Hco s Hs.
  rewrite Forall_forall. intros s' Hs'.
  assert (Forall (λ s'0, id s = id s'0 → s = s'0)
            (omap (λ a, match a with
                        | socketServer.Arrive ev => socketServer.socketOf ev
                        | socketServer.OpenAndClose socket => Some socket
                        end) arrivals
             ++ omap (λ a, match a with
                           | socketServer.Arrive ev => socketServer.socketOf ev
                           | socketServer.OpenAndClose socket => Some socket
                           end) [a])) as Hall.
  { apply Hco. rewrite elem_of_app. by left. }
  rewrite Forall_forall in Hall. apply Hall. rewrite elem_of_app. by left.
Qed.

Lemma coherent_same (arrivals : list socketServer.Arrival) (s s' : Socket) :
  socketServer.coherent arrivals →
  s ∈ socketServer.sockets arrivals → s' ∈ socketServer.sockets arrivals →
  id s = id s' → s = s'.
Proof.
  unfold socketServer.coherent. rewrite Forall_forall. intros Hco Hs Hs'.
  specialize (Hco s Hs). rewrite Forall_forall in Hco. by apply Hco.
Qed.

(** With every call resolving and every arrival delivered, the registry
    holds the live connections and those have their listeners. *)
Lemma serve_tracks_the_live (arrivals : list socketServer.Arrival)
    (d : Db) (now : Date) :
  socketServer.coherent arrivals →
  forallb socketServer.delivered arrivals = true →
  let s := socketServer.serve arrivals (socketServer.start d [] now) in
  faults (socketServer.world s) = []
  ∧ (∀ i, i ∈ socketServer.listening s ↔ i ∈ id <$> socketServer.live arrivals)
  ∧ ∀ u i, i ∈ socketHandler.getUserSockets (registry (socketServer.world s)) u
           ↔ ∃ socket, socket ∈ socketServer.live arrivals
                       ∧ id socket = i ∧ userId socket = u.
Proof.
  induction arrivals as [|a arrivals IH] using rev_ind; intros Hco Hall s.
  { subst s. simpl. split; [done |]. split.
    - intros i. rewrite elem_of_empty. split; [done | by intros ?%elem_of_nil].
    - intros u i. unfold socketHandler.getUserSockets. simpl. split.
      + by intros ?%elem_of_nil.
      + by intros (socket & ?%elem_of_nil & _). }
  rewrite forallb_app, andb_true_iff in Hall. destruct Hall as [Hall Ha].
  destruct (IH (coherent_prefix _ _ Hco) Hall) as (Hf & Hlisten & Hsockets).
  clear IH. subst s. rewrite serve_snoc.
  set (s0 := socketServer.serve arrivals (socketServer.start d [] now)) in *.
  assert (∀ s1 s2, s1 ∈ socketServer.sockets (arrivals ++ [a]) →
                   s2 ∈ socketServer.sockets (arrivals ++ [a]) →
                   id s1 = id s2 → s1 = s2) as Hsame
    by (intros s1 s2; by apply coherent_same).
  assert (∀ s1, s1 ∈ socketServer.live arrivals →
                s1 ∈ socketServer.sockets (arrivals ++ [a])) as Hlive.
  { intros s1 Hs1. unfold socketServer.sockets. rewrite omap_app, elem_of_app.
    left. by apply live_sockets. }
  assert (∀ socket, match a with
                    | socketServer.Arrive ev => socketServer.socketOf ev
                    | socketServer.OpenAndClose s1 => Some s1
                    end = Some socket →
                    socket ∈ socketServer.sockets (arrivals ++ [a])) as Hnew.
  { intros socket Hsocket. unfold socketServer.sockets.
    rewrite omap_app, elem_of_app. right. simpl. rewrite Hsocket. left. }
  split; [| split].
  - destruct a as [ev|socket]; [| done].
    destruct ev; simpl; hears_cases; simpl;
      try done; try (by apply handle_calm).
  - intros i. rewrite live_snoc.
    destruct a as [ev|socket]; [| done].
    destruct ev; simpl;
      try (hears_cases; simpl; by apply Hlisten).
    + rewrite connection_returns by done.
      rewrite elem_of_union, elem_of_singleton, fmap_app, elem_of_app, Hlisten.
      simpl. rewrite list_elem_of_singleton. tauto.
    + unfold socketServer.hears.
      destruct (bool_decide_reflect (id socket ∈ socketServer.listening s0))
        as [Hhears|Hdeaf]; simpl.
      * rewrite elem_of_difference, elem_of_singleton, Hlisten,
          !list_elem_of_fmap.
        split.
        -- intros [(s1 & -> & Hs1) Hne]. exists s1. split; [done |].
           by apply list_elem_of_filter.
        -- intros (s1 & -> & [Hne Hs1]%list_elem_of_filter).
           split; [by exists s1 | done].
      * rewrite Hlisten, !list_elem_of_fmap. split.
        -- intros (s1 & -> & Hs1). exists s1. split; [done |].
           apply list_elem_of_filter. split; [| done].
           intros Heq. apply Hdeaf, Hlisten. rewrite <- Heq.
           apply list_elem_of_fmap. by exists s1.
        -- intros (s1 & -> & [_ Hs1]%list_elem_of_filter). by exists s1.
  - intros u i. rewrite receive_registry, live_snoc.
    destruct a as [ev|socket]; [| done].
    destruct ev; simpl; try apply Hsockets.
    + destruct (decide (u = userId socket)) as [->|Hu].
      * rewrite track_sockets, JsSet_elem_add, Hsockets. split.
        -- intros [(s1 & Hs1 & Hid & Hus) | ->].
           ++ exists s1. rewrite elem_of_app. split; [by left | done].
           ++ exists socket. rewrite elem_of_app.
              split; [right; left | done].
        -- intros (s1 & [Hs1 | ->%list_elem_of_singleton]%elem_of_app & Hid & Hus).
           ++ left. by exists s1.
           ++ by right.
      * rewrite track_sockets_other, Hsockets by done. split.
        -- intros (s1 & Hs1 & Hid & Hus). exists s1.
           rewrite elem_of_app. split; [by left | done].
        -- intros (s1 & [Hs1 | ->%list_elem_of_singleton]%elem_of_app & Hid & Hus).
           ++ by exists s1.
           ++ by destruct Hu.
    + unfold socketServer.hears.
      destruct (bool_decide_reflect (id socket ∈ socketServer.listening s0))
        as [Hhears|Hdeaf].
      * apply Hlisten, list_elem_of_fmap in Hhears as (s1 & Hid1 & Hs1).
        assert (s1 = socket) as ->.
        { apply Hsame; [by apply Hlive | by apply Hnew | done]. }
        assert (id socket
                ∈ socketHandler.getUserSockets (registry (socketServer.world s0))
                    (userId socket)) as Hin
          by (apply Hsockets; by exists socket).
        destruct (decide (u = userId socket)) as [->|Hu].
        -- destruct (untrack_sockets socket (registry (socketServer.world s0)))
             as (-> & _); [by eapply sockets_online |].
           rewrite JsSet_elem_delete, Hsockets. split.
           ++ intros [(s2 & Hs2 & Hid & Hus) Hne]. exists s2.
              split; [| done]. apply list_elem_of_filter. by rewrite Hid.
           ++ intros (s2 & [Hne Hs2]%list_elem_of_filter & Hid & Hus).
              split; [by exists s2 | by rewrite <- Hid].
        -- rewrite untrack_sockets_other, Hsockets by done. split.
           ++ intros (s2 & Hs2 & Hid & Hus). exists s2. split; [| done].
              apply list_elem_of_filter. split; [| done]. intros Heq.
              apply Hu. rewrite <- Hus. f_equal.
              apply Hsame; [by apply Hlive | by apply Hnew | done].
           ++ intros (s2 & [_ Hs2]%list_elem_of_filter & Hid & Hus).
              by exists s2.
      * rewrite Hsockets. split.
        -- intros (s2 & Hs2 & Hid & Hus). exists s2. split; [| done].
           apply list_elem_of_filter. split; [| done]. intros Heq.
           apply Hdeaf, Hlisten. rewrite <- Heq. apply list_elem_of_fmap.
           by exists s2.
        -- intros (s2 & [_ Hs2]%list_elem_of_filter & Hid & Hus).
           by exists s2.
Qed.

Lemma registry_ok_presence (r : Registry) (u : string) :
  registry_ok r →
  (socketHandler.isUserOnline r u = true ↔ socketHandler.getUserSockets r u ≠ [])
  ∧ length (filter (λ x, x = u) (socketHandler.getOnlineUsers r))
    = (if socketHandler.isUserOnline r u then 1 else 0).
Proof.
  intros Hok. split.
  - unfold socketHandler.isUserOnline, socketHandler.getUserSockets, JsMap.has.
    destruct (JsMap.get (userSockets r) u) as [s|] eqn:Hs.
    + split; [intros _; by eapply getUserSockets_ok | done].
    + split; [done | by intros []].
  - unfold socketHandler.getOnlineUsers, JsSet.to_list,
      socketHandler.isUserOnline.
    destruct (JsSet_of_list_spec (JsMap.keys (userSockets r))) as [Hnd Hin].
    rewrite (NoDup_occurs_once _ _ Hnd).
    apply (f_equal (λ b : bool, if b then 1 else 0)).
    apply eq_true_iff_eq.
    rewrite bool_decide_eq_true, Hin. symmetry. apply JsMap_has_keys.
Qed.

Lemma track_keeps (socket : Socket) (r : Registry) (u i : string) :
  i ∈ socketHandler.getUserSockets r u →
  i ∈ socketHandler.getUserSockets (socketHandler.track socket r) u.
Proof.
  intros Hin. destruct (decide (u = userId socket)) as [->|Hu].
  - rewrite track_sockets, JsSet_elem_add. by left.
  - by rewrite track_sockets_other.
Qed.

Lemma untrack_keeps (socket : Socket) (r : Registry) (u i : string) :
  i ∈ socketHandler.getUserSockets r u →
  i ≠ id socket →
  i ∈ socketHandler.getUserSockets (socketHandler.untrack socket r).1 u.
Proof.
  intros Hin Hne. destruct (decide (u = userId socket)) as [->|Hu].
  - destruct (untrack_sockets socket r) as (-> & _);
      [by eapply sockets_online |].
    by apply JsSet_elem_delete.
  - by rewrite untrack_sockets_other.
Qed.

Lemma connections_app (before later : list socketServer.Arrival) :
  socketServer.connections (before ++ later)
  = socketServer.connections before ++ socketServer.connections later.
Proof. apply omap_app. Qed.

Lemma opened_connections (arrivals : list socketServer.Arrival) (open : Socket) :
  socketServer.Arrive (socketHandler.Connection open) ∈ arrivals →
  open ∈ socketServer.connections arrivals.
Proof.
  intros Hin. apply list_elem_of_omap.
  by exists (socketServer.Arrive (socketHandler.Connection open)).
Qed.

Lemma live_opened (arrivals : list socketServer.Arrival) (open : Socket) :
  open ∈ socketServer.live arrivals →
  socketServer.Arrive (socketHandler.Connection open) ∈ arrivals.
Proof.
  induction arrivals as [|a arrivals IH] using rev_ind;
    [by intros ?%elem_of_nil |].
  rewrite live_snoc, elem_of_app.
  destruct a as [ev|s']; [destruct ev |]; simpl;
    try (intros ?; left; by apply IH).
  - rewrite elem_of_app, !list_elem_of_singleton.
    intros [? | ->]; [left; by apply IH | by right].
  - intros [_ ?]%list_elem_of_filter. left. by apply IH.
Qed.

Lemma serve_listening (arrivals : list socketServer.Arrival) (s : socketServer.t)
    (i : string) :
  i ∈ socketServer.listening (socketServer.serve arrivals s) →
  i ∈ socketServer.listening s ∨ i ∈ id <$> socketServer.connections arrivals.
Proof.
  induction arrivals as [|a arrivals IH] using rev_ind; [by left |].
  rewrite serve_snoc. intros [Hin | (socket & -> & ->)]%receive_listening.
  - destruct (IH Hin) as [? | Hold]; [by left | right].
    rewrite connections_app, fmap_app, elem_of_app. by left.
  - right. rewrite connections_app, fmap_app, elem_of_app. right. simpl. left.
Qed.

(** A socket that the registry holds and that has no listener stays in
    the registry, whatever arrives, as long as its id is not given to a new
    connection. *)
Lemma receive_keeps_unheard (s : socketServer.t) (a : socketServer.Arrival)
    (socket : Socket) :
  id socket ∈ socketHandler.getUserSockets (registry (socketServer.world s))
                (userId socket) →
  id socket ∉ socketServer.listening s →
  id socket ∉ id <$> socketServer.connections [a] →
  id socket
  ∈ socketHandler.getUserSockets
      (registry (socketServer.world (socketServer.receive s a))) (userId socket)
  ∧ id socket ∉ socketServer.listening (socketServer.receive s a).
Proof.
  intros Hin Hdeaf Hfresh. split.
  - rewrite receive_registry.
    destruct a as [ev|s']; [destruct ev |]; try done; try by apply track_keeps.
    unfold socketServer.hears.
    destruct (bool_decide_reflect (id socket0 ∈ socketServer.listening s))
      as [Hhears|]; [| done].
    apply untrack_keeps; [done |]. intros Heq. apply Hdeaf. by rewrite Heq.
  - intros [? | (s' & -> & Heq)]%receive_listening; [done |].
    apply Hfresh. simpl. rewrite Heq. left.
Qed.

Lemma serve_keeps_unheard (later : list socketServer.Arrival) (s : socketServer.t)
    (socket : Socket) :
  id socket ∈ socketHandler.getUserSockets (registry (socketServer.world s))
                (userId socket) →
  id socket ∉ socketServer.listening s →
  id socket ∉ id <$> socketServer.connections later →
  id socket
  ∈ socketHandler.getUserSockets
      (registry (socketServer.world (socketServer.serve later s))) (userId socket).
Proof.
  revert s. induction later as [|a later IH]; intros s Hin Hdeaf Hfresh; [done |].
  change (a :: later) with ([a] ++ later) in Hfresh.
  rewrite connections_app, fmap_app, elem_of_app in Hfresh.
  destruct (receive_keeps_unheard s a socket) as [Hin' Hdeaf']; try done.
  { intros ?. apply Hfresh. by left. }
  rewrite serve_cons. apply IH; try done. intros ?. apply Hfresh. by right.
Qed.

(** C9: the registry follows the connections only as far as their
    [disconnect] is heard.  A user opens a connection and closes it while
    the status update of the connection handler is pending (whatever
    arrived before and arrives later, provided the socket's id is not given
    to another connection): no live connection has that id any more, and
    when the arrivals open no other connection of the user, the user has no
    live connection at all; yet the registry still holds the socket, reports
    the user online and lists the user once among the online users.  In
    every state the server reaches the registry agrees with itself: a user
    is reported online exactly when the set of socket ids kept for them is
    not empty, and is then listed exactly once.  And when no call fails and
    every connection has its listeners before it closes, the set kept for a
    user holds exactly the ids of the user's live connections, so that the
    user is reported online exactly when one of their connections is
    live. *)
Theorem C9_registry_keeps_a_connection_closed_during_the_update
    (d : Db) (schedule : list bool) (now : Date)
    (before later : list socketServer.Arrival) (socket : Socket) :
  id socket ∉ id <$> socketServer.connections (before ++ later) →
  let arrivals := before ++ socketServer.OpenAndClose socket :: later in
  let r := registry (socketServer.world
             (socketServer.serve arrivals (socketServer.start d schedule now))) in
  ((∀ open, open ∈ socketServer.live arrivals → id open ≠ id socket)
   ∧ ((∀ other, other ∈ socketServer.connections (before ++ later) →
                userId other ≠ userId socket) →
      ∀ open, open ∈ socketServer.live arrivals → userId open ≠ userId socket)
   ∧ id socket ∈ socketHandler.getUserSockets r (userId socket)
   ∧ socketHandler.isUserOnline r (userId socket) = true
   ∧ length (filter (λ x, x = userId socket) (socketHandler.getOnlineUsers r)) = 1)
  ∧ (∀ u,
       (socketHandler.isUserOnline r u = true
        ↔ socketHandler.getUserSockets r u ≠ [])
       ∧ length (filter (λ x, x = u) (socketHandler.getOnlineUsers r))
         = (if socketHandler.isUserOnline r u then 1 else 0))
  ∧ (∀ heard u,
       socketServer.coherent heard →
       forallb socketServer.delivered heard = true →
       let r' := registry (socketServer.world
                   (socketServer.serve heard (socketServer.start d [] now))) in
       (socketHandler.isUserOnline r' u = true
        ↔ ∃ open, open ∈ socketServer.live heard ∧ userId open = u)
       ∧ (∀ i, i ∈ socketHandler.getUserSockets r' u
               ↔ ∃ open, open ∈ socketServer.live heard
                         ∧ id open = i ∧ userId open = u)
       ∧ length (filter (λ x, x = u) (socketHandler.getOnlineUsers r'))
         = (if socketHandler.isUserOnline r' u then 1 else 0)).
Proof.
  intros Hfresh arrivals r.
  assert (Hok : registry_ok r) by apply serve_registry_ok, boot_registry_ok.
  assert (Hopened : ∀ open, open ∈ socketServer.live arrivals →
                            open ∈ socketServer.connections (before ++ later)).
  { intros open Hopen%live_opened. subst arrivals.
    rewrite elem_of_app, elem_of_cons in Hopen.
    rewrite connections_app, elem_of_app.
    destruct Hopen as [? | [? | ?]]; [left | done | right];
      by apply opened_connections. }
  assert (Hin : id socket ∈ socketHandler.getUserSockets r (userId socket)).
  { subst r arrivals. rewrite serve_app, serve_cons.
    rewrite connections_app, fmap_app, elem_of_app in Hfresh.
    apply serve_keeps_unheard.
    - rewrite receive_registry, track_sockets, JsSet_elem_add. by right.
    - intros [[]%elem_of_empty | ?]%serve_listening. apply Hfresh. by left.
    - intros ?. apply Hfresh. by right. }
  assert (Honline : socketHandler.isUserOnline r (userId socket) = true)
    by (by eapply sockets_online).
  split; [| split].
  - split; [| split; [| split; [| split]]]; try done.
    + intros open Hopen Heq. apply Hfresh. rewrite <- Heq.
      by apply list_elem_of_fmap_2, Hopened.
    + intros Hothers open Hopen. by apply Hothers, Hopened.
    + destruct (registry_ok_presence r (userId socket) Hok) as [_ ->].
      by rewrite Honline.
  - intros u. by apply registry_ok_presence.
  - intros heard u Hco Hall r'.
    assert (Hok' : registry_ok r') by apply serve_registry_ok, boot_registry_ok.
    destruct (serve_tracks_the_live heard d now Hco Hall) as (_ & _ & Hsockets).
    fold r' in Hsockets. split; [| split].
    + split.
      * intros (i & Hi)%online_sockets; [| done].
        apply Hsockets in Hi as (open & ? & _ & ?). by exists open.
      * intros (open & Hopen & Hu). apply (sockets_online r' u (id open)).
        apply Hsockets. by exists open.
    + apply Hsockets.
    + by apply registry_ok_presence.
Qed.

(** B comes and goes; in between A opens a connection and closes it before
    its status update is over. *)
Lemma C9_closed_during_the_update_witness :
  let arrivals :=
    [socketServer.Arrive (socketHandler.Connection Sample.sB1);
     socketServer.OpenAndClose Sample.sA1;
     socketServer.Arrive (socketHandler.Disconnect Sample.sB1)] in
  let r := registry (socketServer.world
             (socketServer.serve arrivals
                (socketServer.start Sample.sampleDb [] 7))) in
  socketServer.live arrivals = []
  ∧ "sA1" ∈ socketHandler.getUserSockets r "A"
  ∧ socketHandler.isUserOnline r "A" = true
  ∧ length (filter (λ x, x = "A") (socketHandler.getOnlineUsers r)) = 1.
Proof.
  destruct (C9_registry_keeps_a_connection_closed_during_the_update
              Sample.sampleDb [] 7
              [socketServer.Arrive (socketHandler.Connection Sample.sB1)]
              [socketServer.Arrive (socketHandler.Disconnect Sample.sB1)]
              Sample.sA1) as [(_ & _ & Hin & Honline & Hlisted) _].
  - apply (bool_decide_unpack _). vm_compute. exact I.
  - split; [reflexivity |]. split; [exact Hin |].
    split; [exact Honline | exact Hlisted].
Defined.

(** Every connection whose status update resolves broadcasts user:online,
    whether or not the user was online already. *)
Lemma connection_always_broadcasts (socket : Socket) (w : World) :
  resolves 1 w = true →
  countEvent "user:online" (emitted (socketHandler.onConnection socket) w) = 1.
Proof.
  intros Hres.
  assert (∃ ids, outbox (exec (socketHandler.onConnection socket) w)
                 = outbox w
                   ++ [mkEmit (BroadcastExcept (id socket)) "user:online"
                         (PUserOnline (userId socket) (username socket));
                       mkEmit (ToSocket (id socket)) "users:online"
                         (PUsersOnline ids)]) as [ids Hout].
  { unfold socketHandler.onConnection, socketHandler.modify_registry,
      Users.findByIdAndUpdate, socketHandler.socket_join, resolves in *.
    munfold.
    destruct (faults w) as [|[] fs] eqn:Hf; simpl in Hres; try discriminate;
      wsimpl; rewrite ?Hf; wsimpl; eexists; by rewrite <- app_assoc. }
  by rewrite (emitted_app _ _ _ Hout).
Qed.

Lemma C7_edit_by_non_owner_witness :
  (∃ message,
     emitted (socketHandler.onMessageEdit Sample.sB1 (mkEditData "M1" "edited"))
             Sample.w0 = [errorTo Sample.sB1 message]
     ∧ (resolves 1 Sample.w0 = true →
        message = "You can only edit your own messages"))
  ∧ countEvent "message:edited"
      (emitted (socketHandler.onMessageEdit Sample.sB1 (mkEditData "M1" "edited"))
               Sample.w0) = 0
  ∧ db (exec (socketHandler.onMessageEdit Sample.sB1 (mkEditData "M1" "edited"))
             Sample.w0) = db Sample.w0
  ∧ messages (db (exec (socketHandler.onMessageEdit Sample.sB1
                          (mkEditData "M1" "edited")) Sample.w0))
      !! "M1" = Some Sample.messageM1.
Proof.
  apply (C7_edit_by_non_owner_rejected Sample.w0 Sample.sB1
           (mkEditData "M1" "edited") Sample.messageM1).
  - vm_compute; reflexivity.
  - apply (bool_decide_unpack _). vm_compute. exact I.
Defined.

Lemma C10_deleted_message_witness :
  Message.content (Message.toJSON Sample.messageM2) = "This message has been deleted"
  ∧ Message.media (Message.toJSON Sample.messageM2) = None.
Proof.
  destruct (C10_deleted_message_hidden Sample.messageM2 7) as [Hjson _].
  apply Hjson. reflexivity.
Defined.

(** *** Presence broadcasts along a session *)

Lemma countEvent_app (name : string) (xs ys : list Emit) :
  countEvent name (xs ++ ys) = countEvent name xs + countEvent name ys.
Proof. unfold countEvent. by rewrite filter_app, length_app. Qed.

Lemma connection_outbox (socket : Socket) (w : World) :
  faults w = [] →
  outbox (socketHandler.step w (socketHandler.Connection socket))
  = outbox w
    ++ [mkEmit (BroadcastExcept (id socket)) "user:online"
          (PUserOnline (userId socket) (username socket));
        mkEmit (ToSocket (id socket)) "users:online"
          (PUsersOnline
             (socketHandler.getOnlineUsers
                (socketHandler.track socket (registry w))))].
Proof.
  intros Hf.
  unfold socketHandler.step, socketHandler.handle,
    socketHandler.onConnection, socketHandler.modify_registry,
    Users.findByIdAndUpdate, socketHandler.socket_join.
  munfold. wsimpl. rewrite Hf. wsimpl. by rewrite <- app_assoc.
Qed.

Lemma connection_effect (socket : Socket) (w : World) :
  faults w = [] →
  let w' := socketHandler.step w (socketHandler.Connection socket) in
  faults w' = []
  ∧ registry w' = socketHandler.track socket (registry w)
  ∧ countEvent "user:online" (outbox w')
    = countEvent "user:online" (outbox w) + 1
  ∧ countEvent "user:offline" (outbox w')
    = countEvent "user:offline" (outbox w).
Proof.
  intros Hf w'. split; [| split; [| split]].
  - subst w'. unfold socketHandler.step, socketHandler.handle,
      socketHandler.onConnection, socketHandler.modify_registry,
      Users.findByIdAndUpdate, socketHandler.socket_join.
    munfold. wsimpl. by rewrite Hf.
  - apply step_registry.
  - subst w'. by rewrite (connection_outbox socket w Hf), countEvent_app.
  - subst w'. rewrite (connection_outbox socket w Hf), countEvent_app.
    change (countEvent "user:offline" (outbox w) + 0
            = countEvent "user:offline" (outbox w)). lia.
Qed.

Lemma disconnect_outbox (socket : Socket) (w : World) :
  faults w = [] →
  outbox (socketHandler.step w (socketHandler.Disconnect socket))
  = outbox w
    ++ (if (socketHandler.untrack socket (registry w)).2
        then [mkEmit (BroadcastExcept (id socket)) "user:offline"
                (PUserOffline (userId socket) (clock w))]
        else []).
Proof.
  intros Hf.
  unfold socketHandler.step, socketHandler.handle,
    socketHandler.onDisconnect, socketHandler.update_registry,
    Users.findByIdAndUpdate.
  munfold. wsimpl.
  destruct (socketHandler.untrack socket (registry w)).2; wsimpl;
    rewrite ?Hf; wsimpl; by rewrite ?app_nil_r.
Qed.

Lemma disconnect_effect (socket : Socket) (w : World) :
  faults w = [] →
  let w' := socketHandler.step w (socketHandler.Disconnect socket) in
  faults w' = []
  ∧ registry w' = (socketHandler.untrack socket (registry w)).1
  ∧ countEvent "user:online" (outbox w') = countEvent "user:online" (outbox w)
  ∧ countEvent "user:offline" (outbox w')
    = countEvent "user:offline" (outbox w)
      + (if (socketHandler.untrack socket (registry w)).2 then 1 else 0).
Proof.
  intros Hf w'. split; [| split; [| split]].
  - subst w'. unfold socketHandler.step, socketHandler.handle,
      socketHandler.onDisconnect, socketHandler.update_registry,
      Users.findByIdAndUpdate.
    munfold. wsimpl.
    destruct (socketHandler.untrack socket (registry w)).2; wsimpl;
      by rewrite ?Hf.
  - apply step_registry.
  - subst w'. rewrite (disconnect_outbox socket w Hf), countEvent_app.
    destruct (socketHandler.untrack socket (registry w)).2;
      change (countEvent "user:online" (outbox w) + 0
              = countEvent "user:online" (outbox w)); lia.
  - subst w'. rewrite (disconnect_outbox socket w Hf), countEvent_app.
    by destruct (socketHandler.untrack socket (registry w)).2.
Qed.

Lemma run_cons (ev : socketHandler.ClientEvent)
    (evs : list socketHandler.ClientEvent) (w : World) :
  socketHandler.run (ev :: evs) w = socketHandler.run evs (socketHandler.step w ev).
Proof. done. Qed.

Lemma run_app (evs1 evs2 : list socketHandler.ClientEvent) (w : World) :
  socketHandler.run (evs1 ++ evs2) w
  = socketHandler.run evs2 (socketHandler.run evs1 w).
Proof. apply foldl_app. Qed.

Lemma tabs_cons (u name sid : string) (sids : list string) :
  tabs u name (sid :: sids) = mkSocket sid u name :: tabs u name sids.
Proof. done. Qed.

(** Opening connections: one user:online each. *)
Lemma connections_effect (u name : string) (socketIds : list string) (w : World) :
  faults w = [] →
  let w' := socketHandler.run (socketHandler.Connection <$> tabs u name socketIds) w in
  faults w' = []
  ∧ (∀ x, x ∈ socketHandler.getUserSockets (registry w') u
          ↔ x ∈ socketHandler.getUserSockets (registry w) u ∨ x ∈ socketIds)
  ∧ countEvent "user:online" (outbox w')
    = countEvent "user:online" (outbox w) + length socketIds
  ∧ countEvent "user:offline" (outbox w') = countEvent "user:offline" (outbox w).
Proof.
  revert w. induction socketIds as [|sid sids IH]; intros w Hf; cbv zeta.
  - split; [done |]. split; [intros x; rewrite elem_of_nil; tauto |].
    split; [simpl; lia | done].
  - rewrite tabs_cons, fmap_cons, run_cons.
    destruct (connection_effect (mkSocket sid u name) w Hf)
      as (Hf1 & Hr1 & Hon1 & Hoff1).
    destruct (IH _ Hf1) as (Hf2 & Hin2 & Hon2 & Hoff2).
    split; [done |]. split; [| split].
    + intros x. rewrite Hin2, Hr1.
      rewrite (track_sockets (mkSocket sid u name)). simpl.
      rewrite JsSet_elem_add, elem_of_cons. tauto.
    + rewrite Hon2, Hon1. simpl. lia.
    + by rewrite Hoff2, Hoff1.
Qed.

(** Closing all the connections a user has, in any order: one
    user:offline, sent when the last one closes. *)
Lemma disconnections_effect (u name : string) (order : list string) (w : World) :
  faults w = [] →
  order ≠ [] →
  NoDup order →
  (∀ x, x ∈ socketHandler.getUserSockets (registry w) u ↔ x ∈ order) →
  let w' := socketHandler.run (socketHandler.Disconnect <$> tabs u name order) w in
  countEvent "user:online" (outbox w') = countEvent "user:online" (outbox w)
  ∧ countEvent "user:offline" (outbox w')
    = countEvent "user:offline" (outbox w) + 1
  ∧ socketHandler.isUserOnline (registry w') u = false.
Proof.
  revert w. induction order as [|sid order IH]; intros w Hf Hne Hnd Hin; [done |].
  apply NoDup_cons in Hnd as [Hsid Hnd]. cbv zeta.
  rewrite tabs_cons, fmap_cons, run_cons.
  destruct (disconnect_effect (mkSocket sid u name) w Hf)
    as (Hf1 & Hr1 & Hon1 & Hoff1).
  assert (Honline : socketHandler.isUserOnline (registry w) u = true).
  { unfold socketHandler.isUserOnline, socketHandler.getUserSockets, JsMap.has in *.
    destruct (JsMap.get (userSockets (registry w)) u); [done |].
    exfalso. apply (not_elem_of_nil sid), Hin. left. }
  destruct (untrack_sockets (mkSocket sid u name) (registry w) Honline)
    as (Hrest & Hlast & Hon). simpl in Hrest, Hlast, Hon.
  assert (Hrest_in : ∀ x, x ∈ JsSet.delete
                                (socketHandler.getUserSockets (registry w) u) sid
                          ↔ x ∈ order).
  { intros x. rewrite JsSet_elem_delete, Hin, elem_of_cons.
    split; [by intros [[?|?] ?] |]. intros Hx. split; [by right |].
    intros ->. by apply Hsid. }
  destruct order as [|sid' order].
  - assert (JsSet.delete (socketHandler.getUserSockets (registry w) u) sid = [])
      as Hnil.
    { destruct (JsSet.delete _ sid) as [|x rest] eqn:Hdel; [done |].
      exfalso. apply (not_elem_of_nil x), Hrest_in. left. }
    change (socketHandler.run (socketHandler.Disconnect <$> tabs u name []) ?x)
      with x.
    rewrite Hon1, Hoff1, Hr1, Hon, Hlast, Hnil. by repeat split.
  - assert (JsSet.delete (socketHandler.getUserSockets (registry w) u) sid ≠ [])
      as Hcons.
    { intros Hnil. rewrite Hnil in Hrest_in.
      apply (not_elem_of_nil sid'), Hrest_in. left. }
    destruct (IH _ Hf1) as (Hon2 & Hoff2 & Hfin); [done | done | |].
    { intros x. by rewrite Hr1, Hrest. }
    rewrite Hon2, Hoff2, Hon1, Hoff1, Hlast.
    rewrite bool_decide_eq_false_2 by done. repeat split; [lia | done].
Qed.

(** C1 fails on the code.  Take a user who is offline, N >= 1 socket ids,
    and let the user open a connection for each and then close them all,
    in any order, with every status update resolving.  The offline half of
    the claim holds: exactly one user:offline is broadcast.  The online
    half does not: user:online is broadcast N times, once per connection,
    not once for the first connection only. *)
Theorem C1_one_online_broadcast_per_connection
    (w : World) (u name : string) (socketIds order : list string) :
  faults w = [] →
  socketHandler.isUserOnline (registry w) u = false →
  socketIds ≠ [] →
  NoDup socketIds →
  order ≡ₚ socketIds →
  let w' := socketHandler.run
              ((socketHandler.Connection <$> tabs u name socketIds)
               ++ (socketHandler.Disconnect <$> tabs u name order)) w in
  countEvent "user:online" (outbox w')
    = countEvent "user:online" (outbox w) + length socketIds
  ∧ countEvent "user:offline" (outbox w')
    = countEvent "user:offline" (outbox w) + 1.
Proof.
  intros Hf Hoff Hne Hnd Hperm w'.
  subst w'. rewrite run_app.
  destruct (connections_effect u name socketIds w Hf) as (Hf1 & Hin1 & Hon1 & Hoff1).
  set (w1 := socketHandler.run
               (socketHandler.Connection <$> tabs u name socketIds) w) in *.
  assert (Hempty : socketHandler.getUserSockets (registry w) u = []).
  { unfold socketHandler.isUserOnline, socketHandler.getUserSockets, JsMap.has in *.
    by destruct (JsMap.get (userSockets (registry w)) u). }
  destruct (disconnections_effect u name order w1 Hf1) as (Hon2 & Hoff2 & _).
  - intros ->. apply Permutation_nil_l in Hperm. by apply Hne.
  - by rewrite Hperm.
  - intros x. rewrite Hin1, Hempty, Hperm, elem_of_nil. tauto.
  - rewrite Hon2, Hoff2, Hon1, Hoff1. by split.
Qed.

Lemma C1_three_tabs_witness :
  let sent :=
    outbox (socketHandler.run
              ((socketHandler.Connection <$> tabs "A" "alice" ["sA1"; "sA2"; "sA3"])
               ++ (socketHandler.Disconnect
                     <$> tabs "A" "alice" ["sA2"; "sA1"; "sA3"])) Sample.w0) in
  countEvent "user:online" sent = 0 + 3 ∧ countEvent "user:offline" sent = 0 + 1.
Proof.
  apply (C1_one_online_broadcast_per_connection
           Sample.w0 "A" "alice" ["sA1"; "sA2"; "sA3"] ["sA2"; "sA1"; "sA3"]).
  - reflexivity.
  - reflexivity.
  - discriminate.
  - apply (bool_decide_unpack _). vm_compute. exact I.
  - apply perm_swap.
Defined.

(** The scenario of the spec, evaluated: three tabs opened and closed. *)
Example three_tabs_trace :
  let sent :=
    outbox (socketHandler.run
              [socketHandler.Connection Sample.sA1;
               socketHandler.Connection Sample.sA2;
               socketHandler.Connection Sample.sA3;
               socketHandler.Disconnect Sample.sA1;
               socketHandler.Disconnect Sample.sA2;
               socketHandler.Disconnect Sample.sA3] Sample.w0) in
  countEvent "user:online" sent = 3 ∧ countEvent "user:offline" sent = 1.
Proof. split; vm_compute; reflexivity. Qed.

(** ** Further properties of the code *)

(** *** Sending, editing, deleting, reading *)

Lemma handleSendMessage_success
    (w : World) (socket : Socket) (data : SendData) (room : ChatRoom.t) :
  resolves 4 w = true →
  chatRooms (db w) !! sd_chatRoomId data = Some room →
  ChatRoom.isParticipant room (userId socket) = true →
  let stored := sentMessage w socket data in
  let w1 := exec (chatHandler.handleSendMessage socket data) w in
  (chatHandler.handleSendMessage socket data w).1
  = Return (Message.mkPopulated stored (senderOf w (userId socket)))
  ∧ outbox w1 = outbox w
  ∧ faults w1 = drop 4 (faults w)
  ∧ db w1 = mkDb (users (db w))
                 (<[ChatRoom._id room
                    := ChatRoom.with_lastMessage room (Some (Message._id stored))]>
                    (chatRooms (db w)))
                 (<[Message._id stored := stored]> (messages (db w))).
Proof.
  intros Hres Hroom Hin. cbv zeta.
  unfold chatHandler.handleSendMessage, ChatRooms.findById, ChatRooms.save,
    Messages.create, Messages.populate, sentMessage, senderOf, resolves in *.
  munfold.
  destruct (faults w) as [|[] [|[] [|[] [|[] fs]]]] eqn:Hf; simpl in Hres;
    try discriminate; wsimpl; repeat (rewrite Hf; wsimpl);
    rewrite Hroom, Hin; simpl; wsimpl; repeat (rewrite Hf; wsimpl); done.
Qed.

Lemma onMessageSend_after_success
    (w : World) (socket : Socket) (data : SendData) (pm : Message.populated) :
  (chatHandler.handleSendMessage socket data w).1 = Return pm →
  exec (socketHandler.onMessageSend socket data) w
  = exec (chatHandler.notifyParticipants (sd_chatRoomId data) pm)
         (with_outbox
            (outbox (exec (chatHandler.handleSendMessage socket data) w)
             ++ [mkEmit (ToChannel (roomChannel (sd_chatRoomId data)))
                   "message:new" (PMessage pm)])
            (exec (chatHandler.handleSendMessage socket data) w)).
Proof.
  intros Hrun. unfold socketHandler.onMessageSend, exec.
  unfold bind at 1, try_catch, bind at 1.
  destruct (chatHandler.handleSendMessage socket data w) as [c w1].
  simpl in Hrun. subst c.
  unfold emit, modify, bind, ret, detached. by simpl.
Qed.

Lemma resolves_drop (n k : nat) (w : World) :
  resolves (n + k) w = true → forallb negb (take k (drop n (faults w))) = true.
Proof.
  unfold resolves. generalize (faults w). induction n as [|n IH]; intros fs.
  - by rewrite drop_0.
  - destruct fs as [|b fs]; [by rewrite drop_nil, !take_nil |].
    simpl. intros [_ Hfs]%andb_true_iff. by apply IH.
Qed.

(** A member's message, when the lookup, the creation, the update of the
    room and the population of the sender resolve: the message is stored
    with the sender and room of the request and its content trimmed, the
    room points to it as its last message, and message:new goes out
    exactly once, on the channel of the room, before anything else and
    without any error event.
    When the lookup of the notification path resolves too and the sender's
    record exists, what follows is one notification per entry of the
    participants array other than the sender's. *)
Theorem send_by_member_is_stored_and_delivered_once
    (w : World) (socket : Socket) (data : SendData) (room : ChatRoom.t) :
  resolves 4 w = true →
  chatRooms (db w) !! sd_chatRoomId data = Some room →
  ChatRoom.isParticipant room (userId socket) = true →
  let stored := sentMessage w socket data in
  let pm := Message.mkPopulated stored (senderOf w (userId socket)) in
  let new := mkEmit (ToChannel (roomChannel (sd_chatRoomId data)))
                    "message:new" (PMessage pm) in
  let w' := exec (socketHandler.onMessageSend socket data) w in
  messages (db w') !! Message._id stored = Some stored
  ∧ ChatRoom.lastMessage <$> chatRooms (db w') !! ChatRoom._id room
    = Some (Some (Message._id stored))
  ∧ (∃ notices,
       emitted (socketHandler.onMessageSend socket data) w = new :: notices
       ∧ countEvent "message:new" notices = 0
       ∧ countEvent "error" notices = 0)
  ∧ (resolves 5 w = true → is_Some (users (db w) !! userId socket) →
     emitted (socketHandler.onMessageSend socket data) w
     = new :: (notice (sd_chatRoomId data) pm <$> others (userId socket) room)).
Proof.
  intros Hres Hroom Hin stored pm new w'.
  destruct (handleSendMessage_success w socket data room Hres Hroom Hin)
    as (Hrun & Hout1 & Hf1 & Hdb1).
  fold stored in Hrun, Hdb1. fold pm in Hrun.
  set (w1 := exec (chatHandler.handleSendMessage socket data) w) in *.
  set (w2 := with_outbox (outbox w1 ++ [new]) w1) in *.
  assert (Hexec : exec (socketHandler.onMessageSend socket data) w
                  = exec (chatHandler.notifyParticipants (sd_chatRoomId data) pm) w2)
    by exact (onMessageSend_after_success w socket data pm Hrun).
  destruct (notify_cases (sd_chatRoomId data) pm w2)
    as (w3 & Hrun3 & Hdb3 & _ & Hout3).
  assert (Hw' : w' = w3).
  { subst w'. rewrite Hexec. unfold exec. by rewrite Hrun3. }
  assert (Hdb' : db w' = db w1) by (by rewrite Hw', Hdb3).
  assert (Hout2 : outbox w2 = outbox w ++ [new])
    by (subst w2; wsimpl; by rewrite Hout1).
  assert (Hsplit : ∃ notices,
            outbox w3 = outbox w2 ++ notices
            ∧ emitted (chatHandler.notifyParticipants (sd_chatRoomId data) pm) w2
              = notices
            ∧ countEvent "message:new" notices = 0
            ∧ countEvent "error" notices = 0).
  { destruct Hout3 as [Hsame | (room' & s & _ & _ & _ & Hmore)].
    - exists []. rewrite app_nil_r. split; [done |]. split; [| done].
      apply emitted_app. unfold exec. rewrite Hrun3. simpl.
      by rewrite Hsame, app_nil_r.
    - eexists. split; [exact Hmore |]. split.
      + apply emitted_app. unfold exec. by rewrite Hrun3.
      + by rewrite !countEvent_notices. }
  destruct Hsplit as (notices & Hout3' & Hnotices & Hnew & Herr).
  assert (Hemitted : emitted (socketHandler.onMessageSend socket data) w
                     = new :: notices).
  { apply emitted_app. fold w'. rewrite Hw', Hout3', Hout2.
    by rewrite <- app_assoc. }
  split; [| split; [| split]].
  - rewrite Hdb', Hdb1. simpl. apply lookup_insert_eq.
  - rewrite Hdb', Hdb1. simpl. by rewrite lookup_insert_eq.
  - by exists notices.
  - intros Hres5 [usr Husr]. rewrite Hemitted. f_equal. rewrite <- Hnotices.
    assert (Hs : Message.senderDoc pm = Some (User.select (userId socket) usr)).
    { subst pm. unfold senderOf. simpl. by rewrite Husr. }
    set (room' := ChatRoom.with_lastMessage room (Some (Message._id stored))) in *.
    assert (Hroom2 : ∃ r, chatRooms (db w2) !! sd_chatRoomId data = Some r
                          ∧ ChatRoom.participants r = ChatRoom.participants room).
    { subst w2. wsimpl. rewrite Hdb1. simpl. rewrite lookup_insert.
      case_decide; [by exists room' | by exists room]. }
    destruct Hroom2 as (r & Hr & Hps).
    assert (Hres2 : resolves 1 w2 = true).
    { unfold resolves. subst w2. wsimpl. rewrite Hf1.
      by apply (resolves_drop 4 1). }
    rewrite (notify_sends (sd_chatRoomId data) pm w2 r _ Hres2 Hr Hs).
    unfold others. by rewrite Hps.
Qed.

(** A send can fail after the message is stored: when the creation
    resolves and the update of the room rejects, the new message stays in
    the collection, the room is not updated, nobody is sent message:new or
    a notification, and the sending socket gets an error event. *)
Theorem send_failing_after_create_keeps_the_message
    (w : World) (socket : Socket) (data : SendData) (room : ChatRoom.t)
    (later : list bool) :
  faults w = false :: false :: true :: later →
  chatRooms (db w) !! sd_chatRoomId data = Some room →
  ChatRoom.isParticipant room (userId socket) = true →
  let stored := sentMessage w socket data in
  let w' := exec (socketHandler.onMessageSend socket data) w in
  messages (db w') !! Message._id stored = Some stored
  ∧ chatRooms (db w') = chatRooms (db w)
  ∧ emitted (socketHandler.onMessageSend socket data) w
    = [errorTo socket collaboratorFailure].
Proof.
  intros Hf Hroom Hin stored w'.
  assert (db w' = mkDb (users (db w)) (chatRooms (db w))
                       (<[Message._id stored := stored]> (messages (db w)))
          ∧ outbox w' = outbox w ++ [errorTo socket collaboratorFailure])
    as [Hdb Hout].
  { subst w' stored.
    unfold socketHandler.onMessageSend, chatHandler.handleSendMessage,
      ChatRooms.findById, ChatRooms.save, Messages.create, Messages.populate,
      socketHandler.emitError, sentMessage.
    munfold. rewrite Hf. wsimpl. rewrite Hroom, Hin. simpl. by wsimpl. }
  split; [| split].
  - rewrite Hdb. simpl. apply lookup_insert_eq.
  - by rewrite Hdb.
  - by apply emitted_app.
Qed.


(** Deleting and then editing: after the author's delete of a message
    stored under its own id (lookup and save resolving), the store holds
    the soft-deleted message, whose serialisation shows the placeholder;
    an edit the author then attempts is refused with the error of the
    deleted-message check and changes nothing. *)
Theorem delete_then_edit_is_refused
    (w : World) (socket : Socket) (m : Message.t) (content : string) :
  resolves 3 w = true →
  messages (db w) !! Message._id m = Some m →
  Message.sender m = userId socket →
  let w1 := exec (socketHandler.onMessageDelete socket (Message._id m)) w in
  let w2 := exec (socketHandler.onMessageEdit socket
                    (mkEditData (Message._id m) content)) w1 in
  messages (db w1) !! Message._id m = Some (Message.softDelete m (clock w))
  ∧ Message.content
      <$> (Message.toJSON <$> messages (db w1) !! Message._id m)
    = Some "This message has been deleted"
  ∧ emitted (socketHandler.onMessageEdit socket
               (mkEditData (Message._id m) content)) w1
    = [errorTo socket "Cannot edit deleted message"]
  ∧ db w2 = db w1.
Proof.
  intros Hres Hm Hown w1 w2.
  assert (Hw1 : db w1 = mkDb (users (db w)) (chatRooms (db w))
                             (<[Message._id m := Message.softDelete m (clock w)]>
                                (messages (db w)))
                ∧ faults w1 = drop 2 (faults w)).
  { subst w1.
    unfold socketHandler.onMessageDelete, chatHandler.handleDeleteMessage,
      Messages.findById, Messages.save, socketHandler.emitError, resolves in *.
    munfold.
    destruct (faults w) as [|[] [|[] fs]] eqn:Hf; simpl in Hres;
      try discriminate; wsimpl; repeat (rewrite Hf; wsimpl);
      rewrite Hm, bool_decide_eq_true_2 by done; simpl; wsimpl;
      repeat (rewrite Hf; wsimpl); done. }
  destruct Hw1 as [Hdb1 Hf1].
  assert (Hstored : messages (db w1) !! Message._id m
                    = Some (Message.softDelete m (clock w))).
  { rewrite Hdb1. simpl. apply lookup_insert_eq. }
  assert (Hres1 : resolves 1 w1 = true).
  { unfold resolves. rewrite Hf1. by apply (resolves_drop 2 1). }
  assert (outbox w2 = outbox w1 ++ [errorTo socket "Cannot edit deleted message"]
          ∧ db w2 = db w1) as [Hout2 Hdb2].
  { subst w2.
    unfold socketHandler.onMessageEdit, chatHandler.handleEditMessage,
      Messages.findById, socketHandler.emitError, resolves in *.
    munfold. simpl ed_messageId.
    destruct (faults w1) as [|[] fs] eqn:Hf; simpl in Hres1;
      try discriminate; wsimpl; rewrite Hstored; simpl;
      rewrite bool_decide_eq_true_2 by done; by wsimpl. }
  split; [done |]. split; [by rewrite Hstored |].
  split; [by apply emitted_app | done].
Qed.

(** A member's read receipt, lookup and save resolving: the room is stored
    with the member's last-read time set to now, and messages:read, naming
    the reader and the room, is the only event, sent to the room's channel
    except the reader's own socket. *)
Theorem read_receipt_by_member_is_stored_and_announced
    (w : World) (socket : Socket) (roomId : string) (room : ChatRoom.t) :
  resolves 2 w = true →
  chatRooms (db w) !! roomId = Some room →
  ChatRoom.isParticipant room (userId socket) = true →
  let w' := exec (socketHandler.onMessagesRead socket roomId) w in
  chatRooms (db w')
  = <[ChatRoom._id room := ChatRoom.updateLastRead room (userId socket) (clock w)]>
      (chatRooms (db w))
  ∧ messages (db w') = messages (db w)
  ∧ emitted (socketHandler.onMessagesRead socket roomId) w
    = [mkEmit (ToChannelExcept (roomChannel roomId) (id socket)) "messages:read"
         (PRead (userId socket) roomId)].
Proof.
  intros Hres Hroom Hin w'.
  assert (db w' = mkDb (users (db w))
                       (<[ChatRoom._id room
                          := ChatRoom.updateLastRead room (userId socket) (clock w)]>
                          (chatRooms (db w)))
                       (messages (db w))
          ∧ outbox w'
            = outbox w
              ++ [mkEmit (ToChannelExcept (roomChannel roomId) (id socket))
                    "messages:read" (PRead (userId socket) roomId)])
    as [Hdb Hout].
  { subst w'.
    unfold socketHandler.onMessagesRead, chatHandler.handleMarkAsRead,
      ChatRooms.findById, ChatRooms.save, socketHandler.emitError, resolves in *.
    munfold.
    destruct (faults w) as [|[] [|[] fs]] eqn:Hf; simpl in Hres;
      try discriminate; wsimpl; repeat (rewrite Hf; wsimpl);
      rewrite Hroom, Hin; simpl; wsimpl; repeat (rewrite Hf; wsimpl); done. }
  split; [| split].
  - by rewrite Hdb.
  - by rewrite Hdb.
  - by apply emitted_app.
Qed.

(** *** Channels *)

(** Joining and leaving a room channel.  Any socket may join the channel
    of any room id: the handler looks at neither the room nor its
    participants.  After the join the socket is in the channel, after the
    leave it is not; no other membership of any socket changes, nothing is
    sent, and the collections and the registry stay as they were. *)
Theorem room_join_then_leave
    (w : World) (socket : Socket) (roomId : string) :
  let w1 := socketHandler.step w (socketHandler.RoomJoin socket roomId) in
  let w2 := socketHandler.step w1 (socketHandler.RoomLeave socket roomId) in
  joinedTo w1 (id socket) (roomChannel roomId)
  ∧ ¬ joinedTo w2 (id socket) (roomChannel roomId)
  ∧ (∀ socketId channel,
       (socketId, channel) ≠ (id socket, roomChannel roomId) →
       (joinedTo w1 socketId channel ↔ joinedTo w socketId channel)
       ∧ (joinedTo w2 socketId channel ↔ joinedTo w socketId channel))
  ∧ db w2 = db w ∧ registry w2 = registry w ∧ outbox w2 = outbox w.
Proof.
  intros w1 w2.
  assert (Ha1 : adapter w1
                = <[id socket := {[roomChannel roomId]}
                                 ∪ default ∅ (adapter w !! id socket)]> (adapter w))
    by done.
  assert (Ha2 : adapter w2
                = <[id socket := default ∅ (adapter w1 !! id socket)
                                 ∖ {[roomChannel roomId]}]> (adapter w1))
    by done.
  unfold joinedTo. rewrite Ha2, Ha1.
  split; [| split; [| split]].
  - rewrite lookup_insert_eq. simpl.
    apply elem_of_union. left. by apply elem_of_singleton.
  - rewrite !lookup_insert_eq. simpl.
    rewrite elem_of_difference, elem_of_singleton. tauto.
  - intros socketId channel Hne.
    destruct (decide (socketId = id socket)) as [->|Hsid].
    + assert (channel ≠ roomChannel roomId) by congruence.
      rewrite !lookup_insert_eq. simpl.
      rewrite elem_of_difference, elem_of_union, !elem_of_singleton. tauto.
    + rewrite !lookup_insert_ne by done. tauto.
  - done.
Qed.

(** *** Presence *)

Lemma track_online (socket : Socket) (r : Registry) :
  socketHandler.isUserOnline (socketHandler.track socket r) (userId socket) = true.
Proof.
  pose proof (track_sockets socket r) as Hs.
  unfold socketHandler.isUserOnline, socketHandler.getUserSockets, JsMap.has in *.
  destruct (JsMap.get (userSockets (socketHandler.track socket r)) (userId socket));
    [done |].
  symmetry in Hs. by apply JsSet_add_nonempty in Hs.
Qed.

(** A connection whose status update rejects: the handler stops there.
    The socket is already in the registry and its user counts as online,
    but no user:online and no users:online is sent, the socket is not put
    into its private channel, and the user record is untouched. *)
Theorem connection_with_failed_status_update
    (w : World) (socket : Socket) (later : list bool) :
  faults w = true :: later →
  let w' := socketHandler.step w (socketHandler.Connection socket) in
  returns (socketHandler.onConnection socket) w = false
  ∧ registry w' = socketHandler.track socket (registry w)
  ∧ socketHandler.isUserOnline (registry w') (userId socket) = true
  ∧ id socket ∈ socketHandler.getUserSockets (registry w') (userId socket)
  ∧ emitted (socketHandler.handle (socketHandler.Connection socket)) w = []
  ∧ adapter w' = adapter w
  ∧ db w' = db w.
Proof.
  intros Hf w'.
  assert (socketHandler.onConnection socket w
          = (Throw collaboratorFailure,
             with_faults later
               (with_registry (socketHandler.track socket (registry w)) w)))
    as Hrun.
  { unfold socketHandler.onConnection, socketHandler.modify_registry,
      Users.findByIdAndUpdate.
    munfold. wsimpl. by rewrite Hf. }
  assert (Hw' : w' = with_faults later
                       (with_registry (socketHandler.track socket (registry w)) w)).
  { subst w'. unfold socketHandler.step, socketHandler.handle, exec.
    by rewrite Hrun. }
  split; [unfold returns; by rewrite Hrun |].
  rewrite Hw'. wsimpl.
  split; [done |]. split; [apply track_online |].
  split; [rewrite track_sockets, JsSet_elem_add; by right |].
  split; [| done].
  apply emitted_app. unfold socketHandler.handle, exec. rewrite Hrun. simpl.
  by rewrite app_nil_r.
Qed.

Lemma isUserOnline_sockets (r : Registry) (u : string) :
  socketHandler.isUserOnline r u = false → socketHandler.getUserSockets r u = [].
Proof.
  unfold socketHandler.isUserOnline, socketHandler.getUserSockets, JsMap.has.
  by destruct (JsMap.get (userSockets r) u).
Qed.

(** Closing a connection of a user who is online.  While another socket
    of the user remains, the handler makes no collaborator call, sends
    nothing and leaves the collections alone, and the user stays online.
    When it was the last one and the status update resolves, the user
    record, if there is one, becomes offline with the time read before the
    update as lastSeen, the user is online no more, and user:offline is
    the only event, broadcast to every other socket; the lastSeen it
    carries is read anew after the update and is no earlier. *)
Theorem disconnect_persists_and_announces_offline_at_the_last_socket
    (w : World) (socket : Socket) :
  socketHandler.isUserOnline (registry w) (userId socket) = true →
  let rest := JsSet.delete
                (socketHandler.getUserSockets (registry w) (userId socket))
                (id socket) in
  let w' := exec (socketHandler.onDisconnect socket) w in
  (rest ≠ [] →
   emitted (socketHandler.onDisconnect socket) w = []
   ∧ db w' = db w ∧ faults w' = faults w
   ∧ socketHandler.getUserSockets (registry w') (userId socket) = rest
   ∧ socketHandler.isUserOnline (registry w') (userId socket) = true)
  ∧ (rest = [] → resolves 1 w = true →
     (∃ lastSeen,
        clock w ≤ lastSeen
        ∧ emitted (socketHandler.onDisconnect socket) w
          = [mkEmit (BroadcastExcept (id socket)) "user:offline"
               (PUserOffline (userId socket) lastSeen)])
     ∧ users (db w')
       = alter (Users.setOffline (clock w)) (userId socket) (users (db w))
     ∧ socketHandler.isUserOnline (registry w') (userId socket) = false).
Proof.
  intros Hon rest w'.
  destruct (untrack_sockets socket (registry w) Hon) as (Hrest & Hlast & Hon').
  fold rest in Hrest, Hlast, Hon'.
  assert (Hreg : registry w' = (socketHandler.untrack socket (registry w)).1)
    by apply disconnect_registry.
  split.
  - intros Hne. rewrite bool_decide_eq_false_2 in Hlast, Hon' by done.
    assert (w' = with_registry (socketHandler.untrack socket (registry w)).1 w)
      as Hw'.
    { subst w'. unfold socketHandler.onDisconnect, socketHandler.update_registry.
      munfold. by rewrite Hlast. }
    rewrite Hreg, Hrest, Hon'.
    split; [| by rewrite Hw'].
    apply emitted_app. fold w'. rewrite Hw'. wsimpl. by rewrite app_nil_r.
  - intros Hnil Hres. rewrite bool_decide_eq_true_2 in Hlast, Hon' by done.
    rewrite Hreg, Hon'.
    assert (outbox w' = outbox w
                        ++ [mkEmit (BroadcastExcept (id socket)) "user:offline"
                              (PUserOffline (userId socket) (clock w))]
            ∧ users (db w')
              = alter (Users.setOffline (clock w)) (userId socket) (users (db w)))
      as [Hout Hdb].
    { subst w'.
      unfold socketHandler.onDisconnect, socketHandler.update_registry,
        Users.findByIdAndUpdate, resolves in *.
      munfold. rewrite Hlast. wsimpl.
      destruct (faults w) as [|[] fs] eqn:Hf; simpl in Hres; try discriminate;
        by wsimpl. }
    split; [| done].
    exists (clock w). split; [done | by apply emitted_app].
Qed.

(** Closing the last connection of a user when the status update rejects:
    the registry already shows the user offline, but the user record is
    not updated and user:offline is never broadcast. *)
Theorem last_disconnect_with_failed_status_update
    (w : World) (socket : Socket) (later : list bool) :
  faults w = true :: later →
  socketHandler.isUserOnline (registry w) (userId socket) = true →
  JsSet.delete (socketHandler.getUserSockets (registry w) (userId socket))
               (id socket) = [] →
  let w' := exec (socketHandler.onDisconnect socket) w in
  returns (socketHandler.onDisconnect socket) w = false
  ∧ socketHandler.isUserOnline (registry w') (userId socket) = false
  ∧ emitted (socketHandler.onDisconnect socket) w = []
  ∧ db w' = db w.
Proof.
  intros Hf Hon Hnil w'.
  destruct (untrack_sockets socket (registry w) Hon) as (_ & Hlast & Hon').
  rewrite Hnil in Hlast, Hon'. simpl in Hlast, Hon'.
  assert (socketHandler.onDisconnect socket w
          = (Throw collaboratorFailure,
             with_faults later
               (with_registry (socketHandler.untrack socket (registry w)).1 w)))
    as Hrun.
  { unfold socketHandler.onDisconnect, socketHandler.update_registry,
      Users.findByIdAndUpdate.
    munfold. rewrite Hlast. wsimpl. by rewrite Hf. }
  split; [unfold returns; by rewrite Hrun |].
  assert (Hw' : w' = with_faults later
                       (with_registry
                          (socketHandler.untrack socket (registry w)).1 w))
    by (subst w'; unfold exec; by rewrite Hrun).
  split; [by rewrite Hw' |]. split; [| by rewrite Hw'].
  apply emitted_app. fold w'. rewrite Hw'. wsimpl. by rewrite app_nil_r.
Qed.

(** *** The two maps of the registry *)

Lemma track_index_ok (socket : Socket) (r : Registry) :
  index_ok r → index_ok (socketHandler.track socket r).
Proof.
  intros Hok sid u Hget.
  assert (Honl : onlineUsers (socketHandler.track socket r)
                 = JsMap.set (onlineUsers r) (id socket) (userId socket)) by done.
  rewrite Honl in Hget.
  destruct (decide (id socket = sid)) as [<-|Hsid].
  - rewrite JsMap_get_set in Hget. injection Hget as <-.
    rewrite track_sockets, JsSet_elem_add. by right.
  - rewrite JsMap_get_set_ne in Hget by done. apply Hok in Hget.
    destruct (decide (u = userId socket)) as [->|Hu].
    + rewrite track_sockets, JsSet_elem_add. by left.
    + by rewrite track_sockets_other.
Qed.

Lemma untrack_index_ok (socket : Socket) (r : Registry) :
  index_ok r → index_ok (socketHandler.untrack socket r).1.
Proof.
  intros Hok sid u Hget.
  assert (Honl : onlineUsers (socketHandler.untrack socket r).1
                 = JsMap.delete (onlineUsers r) (id socket)).
  { unfold socketHandler.untrack.
    destruct (JsMap.get (userSockets r) (userId socket)) as [s|]; [| done].
    by destruct (JsSet.size (JsSet.delete s (id socket)) =? 0). }
  rewrite Honl in Hget.
  destruct (decide (id socket = sid)) as [<-|Hsid].
  - by rewrite JsMap_get_delete in Hget.
  - rewrite JsMap_get_delete_ne in Hget by done. apply Hok in Hget.
    destruct (decide (u = userId socket)) as [->|Hu].
    + assert (socketHandler.isUserOnline r (userId socket) = true) as Hon.
      { destruct (socketHandler.isUserOnline r (userId socket)) eqn:Hoff; [done |].
        apply isUserOnline_sockets in Hoff. rewrite Hoff in Hget.
        by apply not_elem_of_nil in Hget. }
      destruct (untrack_sockets socket r Hon) as (-> & _ & _).
      apply JsSet_elem_delete. split; [done | congruence].
    + by rewrite untrack_sockets_other.
Qed.

Lemma run_index_ok (evs : list socketHandler.ClientEvent) (w : World) :
  index_ok (registry w) → index_ok (registry (socketHandler.run evs w)).
Proof.
  revert w. induction evs as [|ev evs IH]; intros w Hok; [done |].
  rewrite run_cons. apply IH. rewrite step_registry.
  destruct ev; simpl; auto using track_index_ok, untrack_index_ok.
Qed.

(** The reverse index agrees with the sets of sockets: in every state the
    server can reach, a socket id that [onlineUsers] maps to a user is in
    that user's set of sockets, so that user is reported online. *)
Theorem tracked_socket_belongs_to_an_online_user
    (evs : list socketHandler.ClientEvent) (d : Db) (schedule : list bool)
    (now : Date) (socketId u : string) :
  let r := registry (socketHandler.run evs (socketHandler.boot d schedule now)) in
  JsMap.get (onlineUsers r) socketId = Some u →
  socketId ∈ socketHandler.getUserSockets r u
  ∧ socketHandler.isUserOnline r u = true.
Proof.
  intros r Hget.
  assert (Hok : index_ok r).
  { apply run_index_ok. intros sid v Hv. discriminate Hv. }
  pose proof (Hok _ _ Hget) as Hin. split; [done |].
  destruct (socketHandler.isUserOnline r u) eqn:Hoff; [done |].
  apply isUserOnline_sockets in Hoff. rewrite Hoff in Hin.
  by apply not_elem_of_nil in Hin.
Qed.

Lemma JsSet_add_NoDup (s : JsSet.t) (x : string) : NoDup s → NoDup (JsSet.add s x).
Proof.
  intros Hnd. unfold JsSet.add, JsSet.has.
  destruct (bool_decide_reflect (x ∈ s)) as [Hx|Hx]; [done |].
  apply NoDup_app. repeat split; [done | | apply NoDup_singleton].
  intros y Hy ->%list_elem_of_singleton. by apply Hx.
Qed.

Lemma JsSet_fold_add_fresh (l : list string) (acc : JsSet.t) :
  NoDup (acc ++ l) → foldl JsSet.add acc l = acc ++ l.
Proof.
  revert acc. induction l as [|y l IH]; intros acc Hnd; simpl.
  - by rewrite app_nil_r.
  - assert (y ∉ acc) as Hy.
    { apply NoDup_app in Hnd as (_ & Hdisj & _). intros Hin.
      apply (Hdisj y Hin). left. }
    unfold JsSet.add at 2, JsSet.has. rewrite bool_decide_eq_false_2 by done.
    rewrite IH; rewrite <- app_assoc; done.
Qed.

Lemma track_wf (socket : Socket) (r : Registry) :
  registry_wf r → registry_wf (socketHandler.track socket r).
Proof.
  intros (Honl & Hus & Hsets). unfold registry_wf, socketHandler.track, JsMap.has.
  simpl. split; [by apply JsMap_keys_NoDup_set |].
  destruct (JsMap.get (userSockets r) (userId socket)) as [s|] eqn:Hs; simpl.
  - rewrite Hs. split; [by apply JsMap_keys_NoDup_set |].
    apply JsMap_Forall_set; [done |]. simpl. apply JsSet_add_NoDup.
    apply JsMap_get_elem in Hs. rewrite Forall_forall in Hsets.
    apply (Hsets _ Hs).
  - rewrite JsMap_get_set, JsMap_set_set.
    split; [by apply JsMap_keys_NoDup_set |].
    apply JsMap_Forall_set; [done |]. simpl. apply JsSet_add_NoDup, NoDup_nil_2.
Qed.

Lemma untrack_wf (socket : Socket) (r : Registry) :
  registry_wf r → registry_wf (socketHandler.untrack socket r).1.
Proof.
  intros (Honl & Hus & Hsets). unfold registry_wf, socketHandler.untrack.
  destruct (JsMap.get (userSockets r) (userId socket)) as [s|] eqn:Hs; simpl.
  - destruct (JsSet.size (JsSet.delete s (id socket)) =? 0); simpl;
      (split; [by apply JsMap_keys_NoDup_delete |]).
    + split; [by apply JsMap_keys_NoDup_delete | by apply JsMap_Forall_delete].
    + split; [by apply JsMap_keys_NoDup_set |].
      apply JsMap_Forall_set; [done |]. simpl. apply NoDup_filter.
      apply JsMap_get_elem in Hs. rewrite Forall_forall in Hsets.
      apply (Hsets _ Hs).
  - split; [by apply JsMap_keys_NoDup_delete | done].
Qed.

Lemma run_wf (evs : list socketHandler.ClientEvent) (w : World) :
  registry_wf (registry w) → registry_wf (registry (socketHandler.run evs w)).
Proof.
  revert w. induction evs as [|ev evs IH]; intros w Hok; [done |].
  rewrite run_cons. apply IH. rewrite step_registry.
  destruct ev; simpl; auto using track_wf, untrack_wf.
Qed.

(** The registry stays a pair of proper maps: in every state the server
    can reach no socket id and no user id is a key twice and no set of
    sockets holds a socket twice.  So the snapshot of online users is just
    the keys of [userSockets] in their order of insertion; wrapping them
    in a Set removes nothing. *)
Theorem registry_maps_are_well_formed
    (evs : list socketHandler.ClientEvent) (d : Db) (schedule : list bool)
    (now : Date) :
  let r := registry (socketHandler.run evs (socketHandler.boot d schedule now)) in
  NoDup (JsMap.keys (onlineUsers r))
  ∧ NoDup (JsMap.keys (userSockets r))
  ∧ (∀ u, NoDup (socketHandler.getUserSockets r u))
  ∧ socketHandler.getOnlineUsers r = JsMap.keys (userSockets r).
Proof.
  intros r.
  assert (Hwf : registry_wf r).
  { apply run_wf. repeat split; constructor. }
  destruct Hwf as (Honl & Hus & Hsets).
  split; [done |]. split; [done |]. split.
  - intros u. unfold socketHandler.getUserSockets.
    destruct (JsMap.get (userSockets r) u) as [s|] eqn:Hs; [| constructor].
    apply JsMap_get_elem in Hs. rewrite Forall_forall in Hsets.
    apply (Hsets _ Hs).
  - unfold socketHandler.getOnlineUsers, JsSet.to_list, JsSet.of_list.
    by rewrite JsSet_fold_add_fresh.
Qed.

Lemma notifyParticipants_keeps_adapter (chatRoomId : string)
    (message : Message.populated) :
  preserves adapter (chatHandler.notifyParticipants chatRoomId message).
Proof. unfold chatHandler.notifyParticipants. keep. Qed.

(** Messages, typing indicators and read receipts never touch presence:
    the handlers of message:send, message:edit, message:delete,
    typing:start, typing:stop and messages:read leave the registry and the
    channel memberships of all sockets as they were, however they end. *)
Theorem chat_events_keep_presence_and_channels
    (w : World) (ev : socketHandler.ClientEvent) :
  isChatEvent ev = true →
  registry (socketHandler.step w ev) = registry w
  ∧ adapter (socketHandler.step w ev) = adapter w.
Proof.
  intros Hev. split.
  - rewrite step_registry. by destruct ev.
  - unfold socketHandler.step.
    destruct ev as [s|s r|s r|s data|s data|s mid|s r|s r|s r|s| |d];
      try discriminate; cbn [socketHandler.handle]; apply preserves_exec.
    + unfold socketHandler.onMessageSend, chatHandler.handleSendMessage. keep.
      apply notifyParticipants_keeps_adapter.
    + unfold socketHandler.onMessageEdit, chatHandler.handleEditMessage. keep.
    + unfold socketHandler.onMessageDelete, chatHandler.handleDeleteMessage. keep.
    + unfold socketHandler.onTypingStart. keep.
    + unfold socketHandler.onTypingStop. keep.
    + unfold socketHandler.onMessagesRead, chatHandler.handleMarkAsRead. keep.
Qed.

(** *** The models *)

Lemma readers_existsb (rs : list Message.read_t) (u : string) :
  existsb (λ r, bool_decide (Message.reader r = u)) rs = true
  ↔ u ∈ Message.reader <$> rs.
Proof.
  induction rs as [|r rs IH]; simpl.
  - split; [done | by intros ?%elem_of_nil].
  - rewrite orb_true_iff, IH, bool_decide_eq_true, elem_of_cons.
    split; (intros [?|?]; [by left | by right]).
Qed.

Lemma markAsRead_sender (m : Message.t) (now : Date) :
  MessageMethods.markAsRead m (Message.sender m) now = m.
Proof.
  unfold MessageMethods.markAsRead.
  rewrite (bool_decide_eq_true_2 (Message.sender m = Message.sender m)) by done.
  by rewrite andb_false_r.
Qed.

Lemma markAsRead_cases (m : Message.t) (u : string) (now : Date) :
  (MessageMethods.markAsRead m u now = m
   ∧ (u ∈ MessageMethods.readers m ∨ u = Message.sender m))
  ∨ (MessageMethods.markAsRead m u now
     = MessageMethods.with_readBy m (Message.readBy m ++ [Message.mkRead u now])
     ∧ (u ∉ MessageMethods.readers m) ∧ u ≠ Message.sender m).
Proof.
  unfold MessageMethods.markAsRead, MessageMethods.readers.
  destruct (existsb (λ r, bool_decide (Message.reader r = u)) (Message.readBy m))
    eqn:Hread; simpl.
  { left. split; [done |]. left. by apply readers_existsb. }
  destruct (bool_decide_reflect (Message.sender m = u)) as [Hs|Hs]; simpl.
  { left. split; [done |]. by right. }
  right. split; [done |]. split; [| congruence].
  intros Hin. apply readers_existsb in Hin. congruence.
Qed.

(** Read receipts of a message: marking as read is idempotent, never
    records the author, records any other user, keeps the receipts that
    were there, and keeps the readers distinct. *)
Theorem markAsRead_records_each_reader_once
    (m : Message.t) (u : string) (now later : Date) :
  MessageMethods.markAsRead (MessageMethods.markAsRead m u now) u later
    = MessageMethods.markAsRead m u now
  ∧ MessageMethods.markAsRead m (Message.sender m) now = m
  ∧ (u ≠ Message.sender m →
     u ∈ MessageMethods.readers (MessageMethods.markAsRead m u now))
  ∧ Message.readBy m `prefix_of` Message.readBy (MessageMethods.markAsRead m u now)
  ∧ (NoDup (MessageMethods.readers m) →
     NoDup (MessageMethods.readers (MessageMethods.markAsRead m u now)))
  ∧ (Message.sender m ∉ MessageMethods.readers m →
     Message.sender m
     ∉ MessageMethods.readers (MessageMethods.markAsRead m u now)).
Proof.
  split; [| split; [apply markAsRead_sender |]].
  - destruct (markAsRead_cases (MessageMethods.markAsRead m u now) u later)
      as [[Heq _] | (_ & Hout & Hne)]; [done |].
    exfalso.
    destruct (markAsRead_cases m u now) as [[Heq [Hin | Hs]] | (Heq & _ & _)].
    + rewrite Heq in Hout. by apply Hout.
    + rewrite Heq in Hne. by apply Hne.
    + apply Hout. rewrite Heq. unfold MessageMethods.readers. simpl.
      rewrite fmap_app, elem_of_app. right. simpl. left.
  - destruct (markAsRead_cases m u now) as [[Heq Hwhy] | (Heq & Hout & Hne)];
      rewrite Heq.
    + repeat split; try done. intros Hne. by destruct Hwhy.
    + unfold MessageMethods.readers in *. simpl. rewrite fmap_app. simpl.
      split; [intros _; rewrite elem_of_app; right; left |].
      split; [by apply prefix_app_r |].
      split.
      * intros Hnd. apply NoDup_app.
        repeat split; [done | | apply NoDup_singleton].
        intros x Hx ->%list_elem_of_singleton. by apply Hout.
      * intros Hs. rewrite elem_of_app. intros [Hin | Hin]; [done |].
        apply list_elem_of_singleton in Hin. by apply Hne.
Qed.

Lemma room_eta (room : ChatRoom.t) :
  ChatRoom.with_participants room (ChatRoom.participants room) = room.
Proof. by destruct room. Qed.

Lemma isParticipant_false (room : ChatRoom.t) (u : string) :
  ChatRoom.isParticipant room u = false ↔ u ∉ ChatRoomMethods.members room.
Proof.
  unfold ChatRoomMethods.members. rewrite <- isParticipant_elem.
  by destruct (ChatRoom.isParticipant room u).
Qed.

(** Adding a participant makes the user a participant with one more
    entry at the end, unless the user is one already, in which case the
    room does not change; so a second add changes nothing, nobody loses
    membership, and a list of distinct users stays one. *)
Theorem addParticipant_adds_once
    (room : ChatRoom.t) (u role role' : string) (now later : Date) :
  let added := ChatRoom.addParticipant room u role now in
  ChatRoom.isParticipant added u = true
  ∧ ChatRoom.addParticipant added u role' later = added
  ∧ (ChatRoom.isParticipant room u = true → added = room)
  ∧ (ChatRoom.isParticipant room u = false →
     ChatRoom.participants added
     = ChatRoom.participants room ++ [ChatRoom.mkParticipant u role now now])
  ∧ (∀ v, ChatRoom.isParticipant room v = true →
          ChatRoom.isParticipant added v = true)
  ∧ (NoDup (ChatRoomMethods.members room) → NoDup (ChatRoomMethods.members added)).
Proof.
  intros added. subst added.
  assert (Hin : ChatRoom.isParticipant (ChatRoom.addParticipant room u role now) u
                = true).
  { unfold ChatRoom.addParticipant.
    destruct (ChatRoom.isParticipant room u) eqn:Hu; simpl; [done |].
    apply isParticipant_elem. simpl. rewrite fmap_app, elem_of_app.
    right. simpl. left. }
  split; [done |]. split.
  { unfold ChatRoom.addParticipant at 1. by rewrite Hin. }
  split; [intros Hu; unfold ChatRoom.addParticipant; by rewrite Hu |].
  split; [intros Hu; unfold ChatRoom.addParticipant; by rewrite Hu |].
  split.
  - intros v Hv. unfold ChatRoom.addParticipant.
    destruct (ChatRoom.isParticipant room u); simpl; [done |].
    apply isParticipant_elem. simpl. rewrite fmap_app, elem_of_app. left.
    by apply isParticipant_elem.
  - apply addParticipant_NoDup.
Qed.

(** Removing a participant takes every entry of that user out and no
    entry of anybody else; and removing a user right after adding them to
    a room they were not in gives the room back. *)
Theorem removeParticipant_removes_only_that_user
    (room : ChatRoom.t) (u role : string) (now : Date) :
  let removed := ChatRoomMethods.removeParticipant room u in
  ChatRoom.isParticipant removed u = false
  ∧ (∀ p, p ∈ ChatRoom.participants removed
          ↔ p ∈ ChatRoom.participants room ∧ ChatRoom.user p ≠ u)
  ∧ (∀ v, v ≠ u →
          ChatRoom.isParticipant removed v = ChatRoom.isParticipant room v
          ∧ ChatRoomMethods.isAdmin removed v = ChatRoomMethods.isAdmin room v)
  ∧ (ChatRoom.isParticipant room u = false →
     removed = room
     ∧ ChatRoomMethods.removeParticipant
         (ChatRoom.addParticipant room u role now) u = room).
Proof.
  intros removed. subst removed. unfold ChatRoomMethods.removeParticipant.
  split; [| split; [| split]].
  - apply isParticipant_false. unfold ChatRoomMethods.members. simpl.
    intros [p [Hp Hin]]%list_elem_of_fmap.
    apply list_elem_of_filter in Hin as [Hne _]. by apply Hne.
  - intros p. simpl. rewrite list_elem_of_filter. tauto.
  - intros v Hv. unfold ChatRoom.isParticipant, ChatRoomMethods.isAdmin. simpl.
    induction (ChatRoom.participants room) as [|p ps [IH1 IH2]]; [done |].
    rewrite filter_cons.
    destruct (decide (ChatRoom.user p ≠ u)) as [Hp|Hp]; simpl.
    + rewrite IH1. split; [done |].
      destruct (bool_decide (ChatRoom.user p = v)); [done | apply IH2].
    + apply dec_stable in Hp.
      rewrite (bool_decide_eq_false_2 (ChatRoom.user p = v)) by congruence.
      by simpl.
  - intros Hu.
    assert (filter (λ p, ChatRoom.user p ≠ u) (ChatRoom.participants room)
            = ChatRoom.participants room) as Hsame.
    { apply filter_all. intros p Hp Heq. apply isParticipant_false in Hu.
      apply Hu. unfold ChatRoomMethods.members. apply list_elem_of_fmap.
      by exists p. }
    split; [by rewrite Hsame, room_eta |].
    unfold ChatRoom.addParticipant. rewrite Hu. simpl.
    rewrite filter_app, Hsame, filter_cons. simpl.
    rewrite decide_False by (intros Hc; by apply Hc).
    rewrite filter_nil, app_nil_r. by destruct room.
Qed.

(** *** Group administration over REST *)

Ltac runfold :=
  unfold Rest.bind, Rest.pure, Rest.raise, Rest.lift, Rest.populate,
    ChatRooms.findById, ChatRooms.save in *;
  munfold.

Lemma adminCount_filter (ps : list ChatRoom.participant) (u : string) :
  NoDup (ChatRoom.user <$> ps) →
  length (filter (λ p, ChatRoom.role p = "admin")
                 (filter (λ p, ChatRoom.user p ≠ u) ps))
  + match find (λ p, bool_decide (ChatRoom.user p = u)) ps with
    | Some q => if bool_decide (ChatRoom.role q = "admin") then 1 else 0
    | None => 0
    end
  = length (filter (λ p, ChatRoom.role p = "admin") ps).
Proof.
  induction ps as [|p ps IH]; [done |].
  rewrite fmap_cons, NoDup_cons. intros [Hp Hnd].
  rewrite (filter_cons (λ p, ChatRoom.user p ≠ u)). simpl.
  destruct (decide (ChatRoom.user p ≠ u)) as [Hne|Heq].
  - rewrite bool_decide_eq_false_2 by done.
    rewrite !(filter_cons (λ p, ChatRoom.role p = "admin")).
    destruct (decide (ChatRoom.role p = "admin")); simpl;
      specialize (IH Hnd); lia.
  - apply dec_stable in Heq. rewrite bool_decide_eq_true_2 by done.
    rewrite (filter_all (λ p, ChatRoom.user p ≠ u) ps).
    + rewrite (filter_cons (λ p, ChatRoom.role p = "admin") p).
      destruct (decide (ChatRoom.role p = "admin")) as [Hr|Hr].
      * rewrite bool_decide_eq_true_2 by done. simpl. lia.
      * rewrite bool_decide_eq_false_2 by done. lia.
    + intros q Hq Hu. apply Hp. rewrite <- Heq in Hu. rewrite <- Hu.
      apply list_elem_of_fmap. by exists q.
Qed.

Lemma adminCount_removeParticipant (room : ChatRoom.t) (u : string) :
  NoDup (ChatRoomMethods.members room) →
  chatRoomRest.adminCount (ChatRoomMethods.removeParticipant room u)
  + (if ChatRoomMethods.isAdmin room u then 1 else 0)
  = chatRoomRest.adminCount room.
Proof.
  intros Hnd. unfold chatRoomRest.adminCount, ChatRoomMethods.isAdmin. simpl.
  rewrite <- (adminCount_filter _ u Hnd).
  by destruct (find _ _) as [q|]; [destruct (bool_decide _) |].
Qed.

Lemma members_removeParticipant (room : ChatRoom.t) (u : string) :
  ChatRoomMethods.members (ChatRoomMethods.removeParticipant room u)
  = filter (λ v, v ≠ u) (ChatRoomMethods.members room).
Proof.
  unfold ChatRoomMethods.members. simpl.
  induction (ChatRoom.participants room) as [|p ps IH]; [done |].
  rewrite fmap_cons, !filter_cons.
  destruct (decide (ChatRoom.user p ≠ u)); [rewrite fmap_cons |]; by rewrite IH.
Qed.

Lemma NoDup_filter_keep (l : list string) (P : string → Prop)
    `{!∀ x, Decision (P x)} :
  NoDup l → NoDup (filter P l).
Proof.
  induction l as [|x l IH]; [done |].
  rewrite NoDup_cons, filter_cons. intros [Hx Hnd].
  destruct (decide (P x)); [| by apply IH].
  apply NoDup_cons. split; [| by apply IH].
  intros Hin. apply list_elem_of_filter in Hin as [_ Hin]. by apply Hx.
Qed.

Lemma removeParticipant_gone (room : ChatRoom.t) (u : string) :
  ChatRoom.isParticipant (ChatRoomMethods.removeParticipant room u) u = false.
Proof.
  apply isParticipant_false. rewrite members_removeParticipant.
  intros Hin. apply list_elem_of_filter in Hin as [Hne _]. by apply Hne.
Qed.

Lemma removeParticipant_governed (room : ChatRoom.t) (u : string) :
  chatRoomRest.governed room →
  (ChatRoomMethods.isAdmin room u = true → 2 ≤ chatRoomRest.adminCount room) →
  chatRoomRest.governed (ChatRoomMethods.removeParticipant room u).
Proof.
  intros [Hnd Hadmin] Hlast. split.
  - rewrite members_removeParticipant. by apply NoDup_filter_keep.
  - intros Hsome.
    assert (ChatRoom.participants room ≠ []) as Hroom.
    { intros Hnil. apply Hsome. simpl. by rewrite Hnil. }
    specialize (Hadmin Hroom).
    pose proof (adminCount_removeParticipant room u Hnd) as Hcount.
    destruct (ChatRoomMethods.isAdmin room u); [specialize (Hlast eq_refl) |]; lia.
Qed.

(** Removing a participant of a group over REST, every awaited call
    resolving.  The request is carried out only for the participant
    themself or for an admin of the group, and never for the only admin:
    it is refused with 403 and with 400 "Cannot remove the last admin", and
    a refusal changes nothing.  When it is carried out, every entry of the
    target and nothing else is gone from the stored room, which still lists
    nobody twice and still has an admin if anyone is left. *)
Theorem rest_removeParticipant_keeps_an_admin
    (w : World) (actor roomId target : string) (room : ChatRoom.t) :
  resolves 3 w = true →
  chatRooms (db w) !! roomId = Some room →
  ChatRoom.type room = "group" →
  chatRoomRest.governed room →
  let allowed := target = actor ∨ ChatRoomMethods.isAdmin room actor = true in
  let lastAdmin :=
    ChatRoomMethods.isAdmin room target = true ∧ chatRoomRest.adminCount room ≤ 1 in
  let removed := ChatRoomMethods.removeParticipant room target in
  let result := chatRoomRest.removeParticipant actor roomId target w in
  match result.1 with
  | Rest.Done response =>
      allowed ∧ ¬ lastAdmin
      ∧ chatRooms (db result.2) = <[ChatRoom._id room := removed]> (chatRooms (db w))
      ∧ ChatRoom.isParticipant removed target = false
      ∧ chatRoomRest.governed removed
      ∧ Rest.status response = 200
      ∧ Rest.room <$> Rest.data response = Some removed
  | Rest.Raised error =>
      db result.2 = db w
      ∧ ((¬ allowed
          ∧ error = Rest.ForbiddenError "Not authorized to remove this participant")
         ∨ (allowed ∧ lastAdmin
            ∧ error = Rest.BadRequestError "Cannot remove the last admin"))
  end.
Proof.
  intros Hres Hroom Htype Hgov allowed lastAdmin removed result.
  subst result allowed lastAdmin.
  unfold chatRoomRest.removeParticipant, resolves in *. runfold.
  destruct (faults w) as [|[] [|[] [|[] fs]]] eqn:Hf; simpl in Hres;
    try discriminate; wsimpl; repeat (rewrite Hf; wsimpl);
    rewrite Hroom, Htype; simpl.
  all: destruct (bool_decide_reflect (target = actor)) as [Hself|Hself]; simpl.
  all: destruct (ChatRoomMethods.isAdmin room actor) eqn:Hactor; simpl.
  all: try (split; [done |]; left; split; [intros [?|?]; done | done]).
  all: destruct (ChatRoomMethods.isAdmin room target) eqn:Htarget; simpl.
  all: try destruct (Nat.leb_spec (chatRoomRest.adminCount room) 1) as [Hle|Hgt];
    simpl; wsimpl; repeat (rewrite Hf; wsimpl).
  all: try (split; [done |]; right;
            split; [first [by left | by right] |]; split; [by split | done]).
  all: split; [first [by left | by right] |].
  all: split; [intros [? ?]; first [lia | congruence] |].
  all: split; [done |].
  all: split; [apply removeParticipant_gone |].
  all: split; [apply removeParticipant_governed; [done | intros ?; first [lia | congruence]] |].
  all: done.
Qed.

Lemma promoteFirstOther_users (ps : list ChatRoom.participant) (u : string) :
  ChatRoom.user <$> chatRoomRest.promoteFirstOther ps u = ChatRoom.user <$> ps.
Proof.
  induction ps as [|p ps IH]; [done |]. simpl.
  destruct (bool_decide (ChatRoom.user p ≠ u)); [done |].
  by rewrite !fmap_cons, IH.
Qed.

Lemma promoteFirstOther_others (ps : list ChatRoom.participant) (u : string) :
  filter (λ p, ChatRoom.user p ≠ u) (chatRoomRest.promoteFirstOther ps u)
  = match filter (λ p, ChatRoom.user p ≠ u) ps with
    | [] => []
    | p :: rest =>
        ChatRoom.mkParticipant (ChatRoom.user p) "admin"
          (ChatRoom.joinedAt p) (ChatRoom.lastRead p) :: rest
    end.
Proof.
  induction ps as [|p ps IH]; [done |]. simpl.
  destruct (bool_decide_reflect (ChatRoom.user p ≠ u)) as [Hne|Heq].
  - rewrite !filter_cons. simpl. by rewrite !decide_True by done.
  - rewrite !filter_cons, !decide_False by done. apply IH.
Qed.

Lemma users_filter (ps : list ChatRoom.participant) (u : string) :
  ChatRoom.user <$> filter (λ p, ChatRoom.user p ≠ u) ps
  = filter (λ v, v ≠ u) (ChatRoom.user <$> ps).
Proof.
  induction ps as [|p ps IH]; [done |].
  rewrite fmap_cons, !filter_cons.
  destruct (decide (ChatRoom.user p ≠ u)); [rewrite fmap_cons |]; by rewrite IH.
Qed.

Lemma departure_participants (room : ChatRoom.t) (u : string) :
  ChatRoom._id (chatRoomRest.departure room u) = ChatRoom._id room
  ∧ ChatRoom.isActive (chatRoomRest.departure room u)
    = (if decide (ChatRoom.participants (chatRoomRest.departure room u) = [])
       then false else ChatRoom.isActive room)
  ∧ ChatRoom.participants (chatRoomRest.departure room u)
    = if ChatRoomMethods.isAdmin room u
         && (chatRoomRest.adminCount room <=? 1)
         && (1 <? length (ChatRoom.participants room))
      then match others u room with
           | [] => []
           | p :: rest =>
               ChatRoom.mkParticipant (ChatRoom.user p) "admin"
                 (ChatRoom.joinedAt p) (ChatRoom.lastRead p) :: rest
           end
      else others u room.
Proof.
  unfold chatRoomRest.departure, others.
  set (promote := ChatRoomMethods.isAdmin room u
                  && (chatRoomRest.adminCount room <=? 1)
                  && (1 <? length (ChatRoom.participants room))).
  assert (ChatRoom.participants
            (ChatRoomMethods.removeParticipant
               (if promote
                then ChatRoom.with_participants room
                       (chatRoomRest.promoteFirstOther (ChatRoom.participants room) u)
                else room) u)
          = if promote
            then match filter (λ p, ChatRoom.user p ≠ u) (ChatRoom.participants room) with
                 | [] => []
                 | p :: rest =>
                     ChatRoom.mkParticipant (ChatRoom.user p) "admin"
                       (ChatRoom.joinedAt p) (ChatRoom.lastRead p) :: rest
                 end
            else filter (λ p, ChatRoom.user p ≠ u) (ChatRoom.participants room))
    as Hps.
  { destruct promote; simpl; [apply promoteFirstOther_others | done]. }
  destruct (Nat.eqb_spec
              (length (ChatRoom.participants
                 (ChatRoomMethods.removeParticipant
                    (if promote
                     then ChatRoom.with_participants room
                            (chatRoomRest.promoteFirstOther
                               (ChatRoom.participants room) u)
                     else room) u))) 0) as [Hlen|Hlen].
  - apply length_zero_iff_nil in Hlen.
    split; [by destruct promote |]. split; [| by rewrite <- Hps].
    simpl in *. by rewrite decide_True.
  - split; [by destruct promote |]. split; [| by rewrite <- Hps].
    rewrite decide_False by (intros Hnil; by rewrite Hnil in Hlen).
    by destruct promote.
Qed.

Lemma isParticipant_single (room : ChatRoom.t) (u : string) :
  ChatRoom.isParticipant room u = true →
  length (ChatRoom.participants room) ≤ 1 →
  others u room = [].
Proof.
  unfold ChatRoom.isParticipant, others.
  destruct (ChatRoom.participants room) as [|p [|q ps]]; simpl; [done | | lia].
  rewrite orb_false_r, bool_decide_eq_true. intros Hp _.
  by rewrite filter_cons, decide_False by (intros Hne; by apply Hne).
Qed.

(** Leaving a group over REST, lookup and save resolving.  The member's
    entry goes and everybody else stays, in order.  When the only admin
    leaves, the first of the remaining participants is made admin; when
    the last participant leaves, the room is stored inactive.  So the
    stored room still lists nobody twice and has an admin if anyone is
    left. *)
Theorem rest_leaveGroup_hands_the_group_over
    (w : World) (actor roomId : string) (room : ChatRoom.t) :
  resolves 2 w = true →
  chatRooms (db w) !! roomId = Some room →
  ChatRoom.type room = "group" →
  chatRoomRest.governed room →
  ChatRoom.isParticipant room actor = true →
  let result := chatRoomRest.leaveGroup actor roomId w in
  let stored := chatRoomRest.departure room actor in
  result.1
  = Rest.Done (Rest.mkResponse 200 true (Some "Left group successfully") None)
  ∧ chatRooms (db result.2) = <[ChatRoom._id room := stored]> (chatRooms (db w))
  ∧ ChatRoomMethods.members stored
    = filter (λ v, v ≠ actor) (ChatRoomMethods.members room)
  ∧ chatRoomRest.governed stored
  ∧ ChatRoom.isActive stored
    = (if decide (ChatRoom.participants stored = []) then false
       else ChatRoom.isActive room)
  ∧ (ChatRoomMethods.isAdmin room actor = true →
     chatRoomRest.adminCount room ≤ 1 →
     ∀ p, head (ChatRoom.participants stored) = Some p → ChatRoom.role p = "admin")
  ∧ (ChatRoomMethods.isAdmin room actor = false ∨ 2 ≤ chatRoomRest.adminCount room →
     ChatRoom.participants stored = others actor room).
Proof.
  intros Hres Hroom Htype Hgov Hin result stored.
  destruct (departure_participants room actor) as (Hid & Hactive & Hps).
  fold stored in Hid, Hactive, Hps.
  assert (result.1
          = Rest.Done (Rest.mkResponse 200 true (Some "Left group successfully") None)
          ∧ chatRooms (db result.2)
            = <[ChatRoom._id room := stored]> (chatRooms (db w))) as [Hout Hdb].
  { rewrite <- Hid. subst result stored.
    unfold chatRoomRest.leaveGroup, resolves in *. runfold.
    destruct (faults w) as [|[] [|[] fs]] eqn:Hf; simpl in Hres;
      try discriminate; wsimpl; repeat (rewrite Hf; wsimpl);
      rewrite Hroom, Htype, Hin; simpl; wsimpl; repeat (rewrite Hf; wsimpl);
      done. }
  destruct Hgov as [Hnd Hadmin].
  assert (ChatRoomMethods.members stored
          = filter (λ v, v ≠ actor) (ChatRoomMethods.members room)) as Hmembers.
  { unfold ChatRoomMethods.members. rewrite Hps, <- users_filter. unfold others.
    destruct (_ && _ && _); [| done].
    by destruct (filter _ (ChatRoom.participants room)). }
  pose proof (adminCount_removeParticipant room actor Hnd) as Hcount.
  unfold chatRoomRest.adminCount at 1 in Hcount. simpl in Hcount.
  fold (others actor room) in Hcount.
  split; [done |]. split; [done |]. split; [done |]. split; [| split; [done |]].
  - split; [rewrite Hmembers; by apply NoDup_filter_keep |].
    intros Hsome. unfold chatRoomRest.adminCount. rewrite Hps in *.
    assert (ChatRoom.participants room ≠ []) as Hne.
    { intros Hnil. unfold ChatRoom.isParticipant in Hin. by rewrite Hnil in Hin. }
    specialize (Hadmin Hne).
    destruct (ChatRoomMethods.isAdmin room actor) eqn:Hactor; simpl in *.
    + destruct (Nat.leb_spec (chatRoomRest.adminCount room) 1) as [Hle|Hgt];
        simpl in *; [| lia].
      destruct (Nat.ltb_spec 1 (length (ChatRoom.participants room))) as [Hlt|Hge].
      * destruct (others actor room) as [|p rest]; [done |].
        rewrite filter_cons, decide_True by done. simpl. lia.
      * exfalso. apply Hsome. apply isParticipant_single; [done | lia].
    + lia.
  - split.
    + intros Hactor Hle p. rewrite Hps, Hactor. simpl.
      destruct (Nat.leb_spec (chatRoomRest.adminCount room) 1) as [_|Hgt];
        simpl; [| lia].
      destruct (Nat.ltb_spec 1 (length (ChatRoom.participants room))) as [Hlt|Hge].
      * destruct (others actor room) as [|q rest]; simpl; [done |].
        by intros [= <-].
      * rewrite isParticipant_single by (done || lia). done.
    + intros Hno. rewrite Hps.
      destruct Hno as [Hactor | Hmany]; [by rewrite Hactor |].
      destruct (Nat.leb_spec (chatRoomRest.adminCount room) 1) as [Hle|Hgt];
        [lia |].
      by rewrite andb_false_r.
Qed.

(** Adding a participant to a group over REST, every awaited call
    resolving.  Only an admin of the group can add, and only somebody who
    is not a participant yet; a refusal (403, 400) changes nothing.  The
    new participant is stored as the last entry, as a member with the
    current time as joining and last-read time; the room still lists
    nobody twice and has as many admins as before. *)
Theorem rest_addParticipant_by_admins_only
    (w : World) (actor roomId target : string) (room : ChatRoom.t) :
  resolves 3 w = true →
  chatRooms (db w) !! roomId = Some room →
  ChatRoom.type room = "group" →
  chatRoomRest.governed room →
  let added :=
    ChatRoom.with_participants room
      (ChatRoom.participants room
       ++ [ChatRoom.mkParticipant target "member" (clock w) (clock w)]) in
  let result := chatRoomRest.addParticipant actor roomId target w in
  match result.1 with
  | Rest.Done response =>
      ChatRoomMethods.isAdmin room actor = true
      ∧ ChatRoom.isParticipant room target = false
      ∧ chatRooms (db result.2) = <[ChatRoom._id room := added]> (chatRooms (db w))
      ∧ chatRoomRest.governed added
      ∧ chatRoomRest.adminCount added = chatRoomRest.adminCount room
      ∧ Rest.status response = 200
      ∧ Rest.room <$> Rest.data response = Some added
  | Rest.Raised error =>
      db result.2 = db w
      ∧ ((ChatRoomMethods.isAdmin room actor = false
          ∧ error = Rest.ForbiddenError "Only admins can add participants")
         ∨ (ChatRoomMethods.isAdmin room actor = true
            ∧ ChatRoom.isParticipant room target = true
            ∧ error = Rest.BadRequestError "User is already a participant"))
  end.
Proof.
  intros Hres Hroom Htype [Hnd Hadmin] added result. subst result.
  unfold chatRoomRest.addParticipant, resolves in *. runfold.
  destruct (faults w) as [|[] [|[] [|[] fs]]] eqn:Hf; simpl in Hres;
    try discriminate; wsimpl; repeat (rewrite Hf; wsimpl);
    rewrite Hroom, Htype; simpl.
  all: destruct (ChatRoomMethods.isAdmin room actor) eqn:Hactor; simpl;
    [| split; [done |]; by left].
  all: destruct (ChatRoom.isParticipant room target) eqn:Htarget; simpl;
    [split; [done |]; by right |].
  all: wsimpl; repeat (rewrite Hf; wsimpl).
  all: unfold ChatRoom.addParticipant; rewrite Htarget; simpl.
  all: split; [done |]; split; [done |]; split; [done |].
  all: split; [| split; [| done]].
  all: try (unfold chatRoomRest.adminCount; simpl;
            rewrite filter_app, filter_cons, decide_False by done;
            by rewrite filter_nil, app_nil_r).
  all: split.
  all: try (unfold ChatRoomMethods.members; simpl; rewrite fmap_app;
            apply NoDup_app; repeat split;
            [done | | apply NoDup_singleton];
            intros x Hx ->%list_elem_of_singleton;
            apply isParticipant_false in Htarget; by apply Htarget).
  all: intros _; unfold chatRoomRest.adminCount in *; simpl;
    rewrite filter_app, length_app.
  all: destruct (ChatRoom.participants room) as [|p ps] eqn:Hps;
    [by unfold ChatRoomMethods.isAdmin in Hactor; rewrite Hps in Hactor |].
  all: assert (1 ≤ length (filter (λ p, ChatRoom.role p = "admin") (p :: ps)))
    by (by apply Hadmin); lia.
Qed.

(** Marking a room as read over REST, lookup and save resolving: for a
    participant the room is stored exactly as the socket's read receipt
    stores it, but no event is sent to anybody; anybody else is refused
    with 403 and nothing changes. *)
Theorem rest_markAsRead_stores_without_announcing
    (w : World) (socket : Socket) (roomId : string) (room : ChatRoom.t) :
  resolves 2 w = true →
  chatRooms (db w) !! roomId = Some room →
  let result := chatRoomRest.markAsRead (userId socket) roomId w in
  outbox result.2 = outbox w
  ∧ match result.1 with
    | Rest.Done response =>
        ChatRoom.isParticipant room (userId socket) = true
        ∧ chatRooms (db result.2)
          = <[ChatRoom._id room
              := ChatRoom.updateLastRead room (userId socket) (clock w)]>
              (chatRooms (db w))
        ∧ db result.2 = db (exec (socketHandler.onMessagesRead socket roomId) w)
        ∧ Rest.status response = 200
    | Rest.Raised error =>
        ChatRoom.isParticipant room (userId socket) = false
        ∧ db result.2 = db w
        ∧ error = Rest.ForbiddenError "You are not a member of this chat room"
    end.
Proof.
  intros Hres Hroom result. subst result.
  unfold chatRoomRest.markAsRead, socketHandler.onMessagesRead,
    chatHandler.handleMarkAsRead, socketHandler.emitError, resolves in *.
  runfold.
  destruct (faults w) as [|[] [|[] fs]] eqn:Hf; simpl in Hres;
    try discriminate; wsimpl; repeat (rewrite Hf; wsimpl);
    rewrite Hroom; simpl; wsimpl;
    destruct (ChatRoom.isParticipant room (userId socket)) eqn:Hin; simpl;
    wsimpl; repeat (rewrite Hf; wsimpl); done.
Qed.

(** *** Reading a room's messages *)

#[local] Instance newestFirst_trans : Transitive MessageQueries.newestFirst.
Proof. unfold MessageQueries.newestFirst. intros a b c ? ?. lia. Qed.

#[local] Instance newestFirst_total : Total MessageQueries.newestFirst.
Proof. unfold MessageQueries.newestFirst. intros a b. lia. Qed.

Lemma matches_spec (roomId : string) (before : option Date) (m : Message.t) :
  MessageQueries.matches roomId before m = true
  ↔ Message.chatRoom m = roomId ∧ Message.isDeleted m = false
    ∧ ∀ t, before = Some t → Message.createdAt m < t.
Proof.
  unfold MessageQueries.matches.
  rewrite !andb_true_iff, bool_decide_eq_true, negb_true_iff.
  destruct before as [t|].
  - rewrite bool_decide_eq_true. split.
    + intros [[? ?] ?]. repeat split; try done. by intros ? [= <-].
    + intros (? & ? & Ht). repeat split; try done. by apply Ht.
  - split; [intros [[? ?] _] | intros (? & ? & _)]; repeat split; done.
Qed.

(** A page of a room's messages, the query resolving, for a page number
    and a page size of at least 1.  The page holds at most [limit]
    messages, oldest first; each of them is a stored message of that room
    that is not deleted and, with a cursor, older than the cursor; and on
    the first page no message of the room that qualifies and is left out is
    newer than one that is returned.  Reading changes nothing. *)
Theorem getMessages_returns_the_latest_of_the_room
    (w : World) (roomId : string) (page limit : nat) (before : option Date) :
  resolves 1 w = true →
  1 ≤ page →
  1 ≤ limit →
  let outcome := MessageQueries.getMessages roomId page limit before w in
  ∃ result,
    outcome.1 = Return result
    ∧ db outcome.2 = db w
    ∧ length result ≤ limit
    ∧ (∀ l, l ∈ result →
         (∃ k, messages (db w) !! k = Some (MessageQueries.doc l))
         ∧ MessageQueries.matches roomId before (MessageQueries.doc l) = true
         ∧ l = MessageQueries.populate (db w) (MessageQueries.doc l))
    ∧ Sorted (λ a b, Message.createdAt (MessageQueries.doc a)
                     ≤ Message.createdAt (MessageQueries.doc b)) result
    ∧ (page = 1 →
       ∀ k m, messages (db w) !! k = Some m →
         MessageQueries.matches roomId before m = true →
         m ∉ MessageQueries.doc <$> result →
         ∀ l, l ∈ result →
           Message.createdAt m ≤ Message.createdAt (MessageQueries.doc l)).
Proof.
  intros Hres Hpage Hlimit outcome.
  set (found := merge_sort MessageQueries.newestFirst
                  (filter (λ m, MessageQueries.matches roomId before m = true)
                          (map_to_list (messages (db w))).*2)).
  set (window := take limit (drop ((page - 1) * limit) found)).
  assert (outcome.1 = Return (reverse (MessageQueries.populate (db w) <$> window))
          ∧ db outcome.2 = db w) as [Hout Hdb].
  { subst outcome window found.
    unfold MessageQueries.getMessages, resolves in *. munfold.
    rewrite (bool_decide_eq_false_2 (page = 0)) by lia.
    rewrite (bool_decide_eq_false_2 (limit = 0)) by lia.
    destruct (faults w) as [|[] fs] eqn:Hf; simpl in Hres;
      try discriminate; wsimpl; done. }
  assert (StronglySorted MessageQueries.newestFirst found) as Hsorted.
  { apply StronglySorted_merge_sort; apply _. }
  assert (∀ m, m ∈ found ↔
               (∃ k, messages (db w) !! k = Some m)
               ∧ MessageQueries.matches roomId before m = true) as Hfound.
  { intros m. subst found. rewrite merge_sort_Permutation, list_elem_of_filter.
    rewrite list_elem_of_fmap. split.
    - intros [Hm [[k m'] [-> Hin]]]. apply elem_of_map_to_list in Hin.
      split; [by exists k | done].
    - intros [[k Hk] Hm]. split; [done |]. exists (k, m).
      split; [done |]. by apply elem_of_map_to_list. }
  assert (StronglySorted MessageQueries.newestFirst window) as Hwindow.
  { subst window.
    apply (StronglySorted_app_1_l _ _ (drop limit (drop ((page - 1) * limit) found))).
    rewrite take_drop.
    apply (StronglySorted_app_1_r _ (take ((page - 1) * limit) found)).
    by rewrite take_drop. }
  assert (∀ m, m ∈ window → m ∈ found) as Hsub.
  { intros m Hm. subst window.
    by apply (subseteq_drop ((page - 1) * limit)), (subseteq_take limit). }
  exists (reverse (MessageQueries.populate (db w) <$> window)).
  split; [done |]. split; [done |]. split; [| split; [| split]].
  - rewrite length_reverse, length_fmap. subst window. rewrite length_take. lia.
  - intros l Hl. apply elem_of_reverse, list_elem_of_fmap in Hl as [m [-> Hm]].
    simpl. apply Hsub, Hfound in Hm as [Hk Hm]. done.
  - apply (Sorted_reverse
             (λ a b, Message.createdAt (MessageQueries.doc b)
                     ≤ Message.createdAt (MessageQueries.doc a))).
    apply (Sorted_fmap _ MessageQueries.newestFirst); [done |].
    by apply StronglySorted_Sorted.
  - intros -> k m Hk Hm Hout' l Hl.
    apply elem_of_reverse, list_elem_of_fmap in Hl as [m' [-> Hm']]. simpl.
    assert (m ∈ found) as Hin by (apply Hfound; split; [by exists k | done]).
    subst window. simpl in *. rewrite drop_0 in *.
    rewrite <- (take_drop limit found) in Hin, Hsorted.
    apply elem_of_app in Hin as [Hin | Hin].
    + exfalso. apply Hout'. rewrite fmap_reverse, elem_of_reverse.
      apply list_elem_of_fmap. exists (MessageQueries.populate (db w) m).
      split; [done |]. apply list_elem_of_fmap. by exists m.
    + by apply (StronglySorted_app_1_elem_of _ _ _ m' m Hsorted).
Qed.

(** *** More of the room model *)

Lemma touchFirst_other (ps : list ChatRoom.participant) (u v : string) (now : Date) :
  v ≠ u →
  find (λ p, bool_decide (ChatRoom.user p = v)) (ChatRoom.touchFirst ps u now)
  = find (λ p, bool_decide (ChatRoom.user p = v)) ps.
Proof.
  intros Hv. induction ps as [|p ps IH]; [done |]. simpl.
  destruct (bool_decide_reflect (ChatRoom.user p = u)) as [Hp|Hp]; simpl.
  - by rewrite (bool_decide_eq_false_2 (ChatRoom.user p = v)) by congruence.
  - by rewrite IH.
Qed.

(** Recording a read: the one entry that changes is the first entry of
    the reader, whose last-read time becomes the current time; who is in
    the room, in which order, with which role and since when stays the
    same, as does every other user's entry; for somebody who is not a
    participant nothing changes at all. *)
Theorem updateLastRead_touches_the_reader_only
    (room : ChatRoom.t) (u : string) (now : Date) :
  let read := ChatRoom.updateLastRead room u now in
  ChatRoomMethods.members read = ChatRoomMethods.members room
  ∧ ChatRoom.role <$> ChatRoom.participants read
    = ChatRoom.role <$> ChatRoom.participants room
  ∧ ChatRoom.joinedAt <$> ChatRoom.participants read
    = ChatRoom.joinedAt <$> ChatRoom.participants room
  ∧ (∀ v, v ≠ u →
       find (λ p, bool_decide (ChatRoom.user p = v)) (ChatRoom.participants read)
       = find (λ p, bool_decide (ChatRoom.user p = v)) (ChatRoom.participants room))
  ∧ (ChatRoom.isParticipant room u = true →
     ChatRoom.lastRead
       <$> find (λ p, bool_decide (ChatRoom.user p = u)) (ChatRoom.participants read)
     = Some now)
  ∧ (ChatRoom.isParticipant room u = false → read = room)
  ∧ (∀ v, ChatRoom.isParticipant read v = ChatRoom.isParticipant room v
          ∧ ChatRoomMethods.isAdmin read v = ChatRoomMethods.isAdmin room v).
Proof.
  intros read. subst read.
  unfold ChatRoomMethods.members, ChatRoom.updateLastRead, ChatRoom.isParticipant,
    ChatRoomMethods.isAdmin.
  simpl.
  split; [| split; [| split; [| split; [| split; [| split]]]]].
  - induction (ChatRoom.participants room) as [|p ps IH]; [done |]. simpl.
    destruct (bool_decide (ChatRoom.user p = u)); [done |].
    by rewrite !fmap_cons, IH.
  - induction (ChatRoom.participants room) as [|p ps IH]; [done |]. simpl.
    destruct (bool_decide (ChatRoom.user p = u)); [done |].
    by rewrite !fmap_cons, IH.
  - induction (ChatRoom.participants room) as [|p ps IH]; [done |]. simpl.
    destruct (bool_decide (ChatRoom.user p = u)); [done |].
    by rewrite !fmap_cons, IH.
  - intros v Hv. by apply touchFirst_other.
  - induction (ChatRoom.participants room) as [|p ps IH]; [done |]. simpl.
    destruct (bool_decide_reflect (ChatRoom.user p = u)) as [Hp|Hp]; simpl.
    + intros _. by rewrite bool_decide_eq_true_2.
    + rewrite bool_decide_eq_false_2 by done. apply IH.
  - intros Hout.
    assert (ChatRoom.touchFirst (ChatRoom.participants room) u now
            = ChatRoom.participants room) as ->; [| by destruct room].
    induction (ChatRoom.participants room) as [|p ps IH]; [done |]. simpl in *.
    apply orb_false_iff in Hout as [Hp Hps]. rewrite Hp. by rewrite IH.
  - intros v. induction (ChatRoom.participants room) as [|p ps [IH1 IH2]]; [done |].
    simpl.
    destruct (bool_decide_reflect (ChatRoom.user p = u)) as [Hp|Hp]; simpl.
    + split; [done |]. by destruct (bool_decide (ChatRoom.user p = v)).
    + rewrite IH1. split; [done |].
      by destruct (bool_decide (ChatRoom.user p = v)).
Qed.

(** The participants a new group is created with: the creator comes
    first and is the only admin; a user is a participant exactly when
    they are the creator or were requested; the creator is listed once
    even when requested too; and a request that names nobody twice gives a
    list that names nobody twice. *)
Theorem new_group_has_its_creator_as_the_only_admin
    (creator : string) (requested : list string) (now : Date)
    (roomId name : string) :
  let room :=
    ChatRoom.mk roomId name "group"
      (chatRoomController.participantsList creator requested now)
      creator None true in
  ChatRoomMethods.members room = creator :: filter (λ id, id ≠ creator) requested
  ∧ ChatRoomMethods.isAdmin room creator = true
  ∧ chatRoomRest.adminCount room = 1
  ∧ (∀ v, v ≠ creator → ChatRoomMethods.isAdmin room v = false)
  ∧ (∀ v, ChatRoom.isParticipant room v = true ↔ v = creator ∨ v ∈ requested)
  ∧ entries creator room = 1
  ∧ (NoDup requested → chatRoomRest.governed room).
Proof.
  intros room.
  assert (ChatRoomMethods.members room
          = creator :: filter (λ id, id ≠ creator) requested) as Hmembers.
  { subst room. unfold ChatRoomMethods.members,
      chatRoomController.participantsList. simpl.
    f_equal. rewrite <- list_fmap_compose. simpl.
    by rewrite list_fmap_id. }
  assert (chatRoomRest.adminCount room = 1) as Hcount.
  { subst room. unfold chatRoomRest.adminCount,
      chatRoomController.participantsList. cbn [ChatRoom.participants].
    rewrite filter_cons, decide_True by done. rewrite length_cons. f_equal.
    apply length_zero_iff_nil, filter_none.
    intros p [id [-> _]]%list_elem_of_fmap. simpl. done. }
  split; [done |]. split; [| split; [done |]; split; [| split; [| split]]].
  - subst room. unfold ChatRoomMethods.isAdmin. simpl.
    by rewrite bool_decide_eq_true_2.
  - intros v Hv. subst room. unfold ChatRoomMethods.isAdmin. simpl.
    rewrite bool_decide_eq_false_2 by congruence.
    destruct (find _ _) as [p|] eqn:Hfind; [| done].
    apply find_some in Hfind as [Hin _].
    apply list_elem_of_In, list_elem_of_fmap in Hin as [id [-> _]]. done.
  - intros v. rewrite isParticipant_elem.
    fold (ChatRoomMethods.members room). rewrite Hmembers.
    rewrite elem_of_cons, list_elem_of_filter.
    destruct (decide (v = creator)) as [->|Hv]; [by split; left |].
    split; [intros [? | [_ ?]]; by right | intros [? | ?]; [done | by right]].
  - subst room. unfold entries, chatRoomController.participantsList.
    cbn [ChatRoom.participants].
    rewrite filter_cons, decide_True by done. rewrite length_cons. f_equal.
    apply length_zero_iff_nil, filter_none.
    intros p [id [-> Hid]]%list_elem_of_fmap. simpl.
    by apply list_elem_of_filter in Hid as [Hne _].
  - intros Hnd. split; [| intros _; lia].
    rewrite Hmembers. apply NoDup_cons. split; [| by apply NoDup_filter_keep].
    intros Hin. by apply list_elem_of_filter in Hin as [Hne _].
Qed.

(** *** Admission of a socket *)

(** The handshake of a socket.  The middleware never throws.  It lets a
    socket through only with a token that verifies and names a user who
    exists, and it attaches that user's id and name; without a token it
    answers "Authentication required", for a user who is gone "User not
    found", and for a token that does not verify, as for a user lookup
    that rejects, "Invalid token".  A refused attempt leaves no trace in
    the registry, sends nothing and changes no collection. *)
Theorem socketAuth_admits_verified_existing_users_only
    (jwt_verify : string → string + string)
    (w : World) (socketId : string) (handshake : auth.Handshake) :
  let token :=
    chatHandler.truthy
      (auth.or_else (auth.authToken handshake) (auth.queryToken handshake)) in
  let answer := auth.socketAuth jwt_verify socketId handshake w in
  let attempt := auth.connect jwt_verify socketId handshake w in
  (∃ admitted, answer.1 = Return admitted)
  ∧ db answer.2 = db w ∧ registry answer.2 = registry w
  ∧ outbox answer.2 = outbox w ∧ adapter answer.2 = adapter w
  ∧ (∀ socket, answer.1 = Return (inr socket) →
       ∃ t user, token = Some t
         ∧ jwt_verify t = inr (userId socket)
         ∧ users (db w) !! userId socket = Some user
         ∧ socket = mkSocket socketId (userId socket) (User.username user))
  ∧ (token = None → answer.1 = Return (inl "Authentication required"))
  ∧ (∀ t message, token = Some t → jwt_verify t = inl message →
       answer.1 = Return (inl "Invalid token"))
  ∧ (∀ t u, token = Some t → jwt_verify t = inr u →
       answer.1
       = Return (match faults w with
                 | true :: _ => inl "Invalid token"
                 | _ => match users (db w) !! u with
                        | Some user => inr (mkSocket socketId u (User.username user))
                        | None => inl "User not found"
                        end
                 end))
  ∧ (∀ message, answer.1 = Return (inl message) →
       registry attempt.2 = registry w ∧ outbox attempt.2 = outbox w
       ∧ db attempt.2 = db w ∧ adapter attempt.2 = adapter w).
Proof.
  intros token answer attempt. subst answer attempt.
  unfold auth.connect, auth.socketAuth, auth.User_findById. fold token.
  destruct token as [t|] eqn:Htoken.
  2: { munfold. simpl. repeat split; try done; try by eexists.
       all: try by intros socket [=]. }
  destruct (jwt_verify t) as [message|u] eqn:Hverify.
  { munfold. simpl. repeat split; try done; try by eexists.
    all: try by intros socket [=].
    all: try (intros t' u [= <-] Hu; congruence). }
  munfold.
  destruct (faults w) as [|[] fs] eqn:Hf; wsimpl; simpl;
    destruct (users (db w) !! u) as [user|] eqn:Huser; simpl; wsimpl.
  all: repeat split; try done; try by eexists.
  all: try (intros socket [= <-]; exists t, user; by simpl).
  all: try (intros t' message [= <-] Hm; congruence).
  all: try (intros t' u' [= <-] Hu; assert (u' = u) as -> by congruence;
            by rewrite ?Huser).
  all: try by intros socket [=].
Qed.

(** *** Messages over REST *)

Lemma exec_bind_keeps {A B X} (part : World → X) (m : M A) (k : A → M B)
    (w : World) :
  (∀ a, preserves part (k a)) → part (exec (bind m k) w) = part (exec m w).
Proof.
  intros Hk. unfold exec, bind.
  destruct (m w) as [[a|e] w1]; simpl; [apply Hk | done].
Qed.

Lemma exec_try_catch_keeps {A X} (part : World → X) (m : M A) (h : string → M A)
    (w : World) :
  (∀ e, preserves part (h e)) → part (exec (try_catch m h) w) = part (exec m w).
Proof.
  intros Hh. unfold exec, try_catch.
  destruct (m w) as [[a|e] w1]; simpl; [done | apply Hh].
Qed.

Lemma notifyParticipants_keeps_db (chatRoomId : string)
    (message : Message.populated) :
  preserves db (chatHandler.notifyParticipants chatRoomId message).
Proof. unfold chatHandler.notifyParticipants. keep. Qed.

Lemma handleEditMessage_sends_nothing (socket : Socket) (data : EditData) :
  preserves outbox (chatHandler.handleEditMessage socket data).
Proof. unfold chatHandler.handleEditMessage. keep. Qed.

Lemma handleDeleteMessage_sends_nothing (socket : Socket) (messageId : string) :
  preserves outbox (chatHandler.handleDeleteMessage socket messageId).
Proof. unfold chatHandler.handleDeleteMessage. keep. Qed.

Lemma rest_send_runs_the_handler (w : World) (socket : Socket) (data : SendData) :
  (messageRest.sendMessage (userId socket) (sd_chatRoomId data) (sd_content data)
     (sd_replyTo data) w).2
  = exec (chatHandler.handleSendMessage socket data) w.
Proof.
  unfold messageRest.sendMessage, chatHandler.handleSendMessage,
    Messages.create, Messages.populate.
  runfold.
  destruct (faults w) as [|[] [|[] [|[] [|[] fs]]]] eqn:Hf; wsimpl;
    repeat (rewrite ?Hf; wsimpl); try done.
  all: destruct (chatRooms (db w) !! sd_chatRoomId data) as [room|]; simpl;
    [| done].
  all: destruct (ChatRoom.isParticipant room (userId socket)); simpl;
    wsimpl; repeat (rewrite ?Hf; wsimpl); done.
Qed.

Lemma rest_edit_runs_the_handler (w : World) (socket : Socket) (data : EditData) :
  (messageRest.editMessage (userId socket) (ed_messageId data) (ed_content data) w).2
  = exec (chatHandler.handleEditMessage socket data) w.
Proof.
  unfold messageRest.editMessage, chatHandler.handleEditMessage,
    Messages.findById, Messages.save, Messages.populate.
  runfold.
  destruct (faults w) as [|[] [|[] [|[] fs]]] eqn:Hf; wsimpl;
    repeat (rewrite ?Hf; wsimpl); try done.
  all: destruct (messages (db w) !! ed_messageId data) as [m|]; simpl; [| done].
  all: destruct (bool_decide (Message.sender m = userId socket)); simpl; [| done].
  all: destruct (Message.isDeleted m); simpl;
    wsimpl; repeat (rewrite ?Hf; wsimpl); done.
Qed.

Lemma rest_delete_runs_the_handler (w : World) (socket : Socket)
    (messageId : string) :
  (messageRest.deleteMessage (userId socket) messageId w).2
  = exec (chatHandler.handleDeleteMessage socket messageId) w.
Proof.
  unfold messageRest.deleteMessage, chatHandler.handleDeleteMessage,
    Messages.findById, Messages.save.
  runfold.
  destruct (faults w) as [|[] [|[] fs]] eqn:Hf; wsimpl;
    repeat (rewrite ?Hf; wsimpl); try done.
  all: destruct (messages (db w) !! messageId) as [m|]; simpl; [| done].
  all: destruct (bool_decide (Message.sender m = userId socket)); simpl;
    wsimpl; repeat (rewrite ?Hf; wsimpl); done.
Qed.

(** The REST controllers [sendMessage], [editMessage] and [deleteMessage]
    leave the collections exactly as the listeners of message:send,
    message:edit and message:delete leave them for the same user and the
    same data, whichever awaited calls reject; but they send no event at
    all: no message:new, message:edited or message:deleted to the room and
    no notification to any participant.  This is about the requests that
    reach the controllers: the routes run their validators first, and
    those turn away requests that the socket events take, an edit with a
    blank content for one. *)
Theorem rest_messages_match_the_socket_handlers_without_events
    (w : World) (socket : Socket)
    (send : SendData) (edit : EditData) (messageId : string) :
  let sent :=
    messageRest.sendMessage (userId socket) (sd_chatRoomId send) (sd_content send)
      (sd_replyTo send) w in
  let edited :=
    messageRest.editMessage (userId socket) (ed_messageId edit) (ed_content edit) w in
  let deleted := messageRest.deleteMessage (userId socket) messageId w in
  (db sent.2 = db (exec (socketHandler.onMessageSend socket send) w)
   ∧ outbox sent.2 = outbox w)
  ∧ (db edited.2 = db (exec (socketHandler.onMessageEdit socket edit) w)
     ∧ outbox edited.2 = outbox w)
  ∧ (db deleted.2 = db (exec (socketHandler.onMessageDelete socket messageId) w)
     ∧ outbox deleted.2 = outbox w).
Proof.
  intros sent edited deleted. subst sent edited deleted.
  rewrite rest_send_runs_the_handler, rest_edit_runs_the_handler,
    rest_delete_runs_the_handler.
  split; [| split]; split.
  - unfold socketHandler.onMessageSend.
    rewrite exec_bind_keeps.
    2: { intros [message|]; [apply preserves_detached,
                               notifyParticipants_keeps_db | apply preserves_ret]. }
    rewrite exec_try_catch_keeps by (intros e; unfold socketHandler.emitError; keep).
    rewrite exec_bind_keeps; [done |]. intros a. keep.
  - apply handleSendMessage_sends_nothing.
  - unfold socketHandler.onMessageEdit.
    rewrite exec_try_catch_keeps by (intros e; unfold socketHandler.emitError; keep).
    rewrite exec_bind_keeps; [done |]. intros a. keep.
  - apply handleEditMessage_sends_nothing.
  - unfold socketHandler.onMessageDelete.
    rewrite exec_try_catch_keeps by (intros e; unfold socketHandler.emitError; keep).
    rewrite exec_bind_keeps; [done |]. intros a. keep.
  - apply handleDeleteMessage_sends_nothing.
Qed.

(** Marking a message as read over REST, every awaited call resolving:
    only a participant of the message's room is let through, anybody else
    (and anybody when the room is gone) gets 403 "Access denied" and
    nothing changes; for a participant the message is stored with the
    receipt the model adds, so nothing new is recorded for the author or
    for a reader who already has a receipt, and a deleted message takes
    receipts like any other. *)
Theorem rest_message_markAsRead_is_for_room_members
    (w : World) (actor messageId : string) (m : Message.t) :
  resolves 3 w = true →
  messages (db w) !! messageId = Some m →
  let member :=
    match chatRooms (db w) !! Message.chatRoom m with
    | Some room => ChatRoom.isParticipant room actor
    | None => false
    end in
  let marked := MessageMethods.markAsRead m actor (clock w) in
  let result := messageRest.markAsRead actor messageId w in
  outbox result.2 = outbox w
  ∧ chatRooms (db result.2) = chatRooms (db w)
  ∧ match result.1 with
    | Rest.Done response =>
        member = true
        ∧ messages (db result.2) = <[Message._id m := marked]> (messages (db w))
        ∧ (actor = Message.sender m ∨ actor ∈ MessageMethods.readers m → marked = m)
        ∧ messageRest.status response = 200
    | Rest.Raised error =>
        member = false
        ∧ db result.2 = db w
        ∧ error = Rest.ForbiddenError "Access denied"
    end.
Proof.
  intros Hres Hm member marked result. subst result member.
  unfold messageRest.markAsRead, Messages.findById, Messages.save, resolves in *.
  runfold.
  destruct (faults w) as [|[] [|[] [|[] fs]]] eqn:Hf; simpl in Hres;
    try discriminate; wsimpl; repeat (rewrite ?Hf; wsimpl);
    rewrite Hm; simpl; wsimpl; repeat (rewrite ?Hf; wsimpl).
  all: destruct (chatRooms (db w) !! Message.chatRoom m) as [room|]; simpl;
    [destruct (ChatRoom.isParticipant room actor); simpl |];
    wsimpl; repeat (rewrite ?Hf; wsimpl); try done.
  all: repeat split; try done.
  all: subst marked;
    destruct (markAsRead_cases m actor (clock w)) as [[Heq _] | (Heq & Hout & Hne)];
    rewrite Heq; try done.
  all: intros [Hwhy | Hwhy]; done.
Qed.

(** *** The further properties on the sample data *)

Lemma send_by_member_witness :
  emitted (socketHandler.onMessageSend Sample.sA1 (mkSendData "R1" "  hi " None))
          Sample.w0
  = mkEmit (ToChannel (roomChannel "R1")) "message:new"
      (PMessage
         (Message.mkPopulated
            (sentMessage Sample.w0 Sample.sA1 (mkSendData "R1" "  hi " None))
            (senderOf Sample.w0 "A")))
    :: (notice "R1"
          (Message.mkPopulated
             (sentMessage Sample.w0 Sample.sA1 (mkSendData "R1" "  hi " None))
             (senderOf Sample.w0 "A"))
          <$> others "A" Sample.roomR1)
  ∧ Message.content
      (sentMessage Sample.w0 Sample.sA1 (mkSendData "R1" "  hi " None)) = "hi".
Proof.
  assert (resolves 4 Sample.w0 = true) as H1 by (vm_compute; reflexivity).
  assert (chatRooms (db Sample.w0) !! "R1" = Some Sample.roomR1) as H2
    by (vm_compute; reflexivity).
  assert (ChatRoom.isParticipant Sample.roomR1 "A" = true) as H3
    by (vm_compute; reflexivity).
  destruct (send_by_member_is_stored_and_delivered_once
              Sample.w0 Sample.sA1 (mkSendData "R1" "  hi " None) Sample.roomR1
              H1 H2 H3) as (_ & _ & _ & Hall).
  split; [| vm_compute; reflexivity].
  apply Hall.
  - vm_compute; reflexivity.
  - exists Sample.userA. vm_compute; reflexivity.
Defined.

Lemma send_failing_after_create_witness :
  emitted (socketHandler.onMessageSend Sample.sA1 (mkSendData "R1" "hi" None))
          (socketHandler.boot Sample.sampleDb [false; false; true] 7)
  = [errorTo Sample.sA1 collaboratorFailure]
  ∧ messages
      (db (exec (socketHandler.onMessageSend Sample.sA1 (mkSendData "R1" "hi" None))
                (socketHandler.boot Sample.sampleDb [false; false; true] 7)))
      !! "msg0"
    = Some (sentMessage (socketHandler.boot Sample.sampleDb [false; false; true] 7)
                        Sample.sA1 (mkSendData "R1" "hi" None)).
Proof.
  destruct (send_failing_after_create_keeps_the_message
              (socketHandler.boot Sample.sampleDb [false; false; true] 7)
              Sample.sA1 (mkSendData "R1" "hi" None) Sample.roomR1 [])
    as (Hstored & _ & Hemitted).
  - reflexivity.
  - vm_compute; reflexivity.
  - vm_compute; reflexivity.
  - split; [exact Hemitted | exact Hstored].
Defined.


Lemma delete_then_edit_witness :
  emitted (socketHandler.onMessageEdit Sample.sA1 (mkEditData "M1" "again"))
          (exec (socketHandler.onMessageDelete Sample.sA1 "M1") Sample.w0)
  = [errorTo Sample.sA1 "Cannot edit deleted message"].
Proof.
  destruct (delete_then_edit_is_refused Sample.w0 Sample.sA1 Sample.messageM1
              "again") as (_ & _ & Hemitted & _).
  - vm_compute; reflexivity.
  - vm_compute; reflexivity.
  - reflexivity.
  - exact Hemitted.
Defined.

Lemma read_receipt_witness :
  emitted (socketHandler.onMessagesRead Sample.sB1 "R1") Sample.w0
  = [mkEmit (ToChannelExcept (roomChannel "R1") "sB1") "messages:read"
       (PRead "B" "R1")].
Proof.
  destruct (read_receipt_by_member_is_stored_and_announced
              Sample.w0 Sample.sB1 "R1" Sample.roomR1) as (_ & _ & Hemitted).
  - vm_compute; reflexivity.
  - vm_compute; reflexivity.
  - vm_compute; reflexivity.
  - exact Hemitted.
Defined.

Lemma connection_with_failed_status_update_witness :
  returns (socketHandler.onConnection Sample.sA1)
          (socketHandler.boot Sample.sampleDb [true] 7) = false
  ∧ socketHandler.isUserOnline
      (registry (socketHandler.step (socketHandler.boot Sample.sampleDb [true] 7)
                   (socketHandler.Connection Sample.sA1))) "A" = true
  ∧ emitted (socketHandler.handle (socketHandler.Connection Sample.sA1))
            (socketHandler.boot Sample.sampleDb [true] 7) = [].
Proof.
  destruct (connection_with_failed_status_update
              (socketHandler.boot Sample.sampleDb [true] 7) Sample.sA1 [])
    as (Hret & _ & Honline & _ & Hemitted & _).
  - reflexivity.
  - split; [exact Hret | split; [exact Honline | exact Hemitted]].
Defined.

Lemma disconnect_of_one_of_two_tabs_witness :
  emitted (socketHandler.onDisconnect Sample.sA1)
          (socketHandler.run [socketHandler.Connection Sample.sA1;
                              socketHandler.Connection Sample.sA2] Sample.w0)
  = [].
Proof.
  destruct (disconnect_persists_and_announces_offline_at_the_last_socket
              (socketHandler.run [socketHandler.Connection Sample.sA1;
                                  socketHandler.Connection Sample.sA2] Sample.w0)
              Sample.sA1) as [Hmany _].
  - vm_compute; reflexivity.
  - destruct Hmany as (Hemitted & _); [| exact Hemitted].
    vm_compute. discriminate.
Defined.

Lemma last_disconnect_with_failed_status_update_witness :
  socketHandler.isUserOnline
    (registry
       (exec (socketHandler.onDisconnect Sample.sA1)
             (socketHandler.run [socketHandler.Connection Sample.sA1]
                (socketHandler.boot Sample.sampleDb [false; true] 7)))) "A"
  = false
  ∧ emitted (socketHandler.onDisconnect Sample.sA1)
            (socketHandler.run [socketHandler.Connection Sample.sA1]
               (socketHandler.boot Sample.sampleDb [false; true] 7))
    = [].
Proof.
  destruct (last_disconnect_with_failed_status_update
              (socketHandler.run [socketHandler.Connection Sample.sA1]
                 (socketHandler.boot Sample.sampleDb [false; true] 7))
              Sample.sA1 []) as (_ & Hoffline & Hemitted & _).
  - vm_compute; reflexivity.
  - vm_compute; reflexivity.
  - vm_compute; reflexivity.
  - split; [exact Hoffline | exact Hemitted].
Defined.

Lemma tracked_socket_witness :
  "sA1" ∈ socketHandler.getUserSockets
            (registry (socketHandler.run [socketHandler.Connection Sample.sA1]
                         (socketHandler.boot Sample.sampleDb [] 7))) "A"
  ∧ socketHandler.isUserOnline
      (registry (socketHandler.run [socketHandler.Connection Sample.sA1]
                   (socketHandler.boot Sample.sampleDb [] 7))) "A" = true.
Proof.
  apply (tracked_socket_belongs_to_an_online_user
           [socketHandler.Connection Sample.sA1] Sample.sampleDb [] 7 "sA1" "A").
  vm_compute; reflexivity.
Defined.

Lemma chat_events_keep_presence_witness :
  registry (socketHandler.step
              (socketHandler.run [socketHandler.Connection Sample.sA1] Sample.w0)
              (socketHandler.MessageSend Sample.sA1 (mkSendData "R1" "hi" None)))
  = registry (socketHandler.run [socketHandler.Connection Sample.sA1] Sample.w0)
  ∧ adapter (socketHandler.step
               (socketHandler.run [socketHandler.Connection Sample.sA1] Sample.w0)
               (socketHandler.MessageSend Sample.sA1 (mkSendData "R1" "hi" None)))
    = adapter (socketHandler.run [socketHandler.Connection Sample.sA1] Sample.w0).
Proof.
  apply (chat_events_keep_presence_and_channels
           (socketHandler.run [socketHandler.Connection Sample.sA1] Sample.w0)
           (socketHandler.MessageSend Sample.sA1 (mkSendData "R1" "hi" None))).
  reflexivity.
Defined.

Lemma sample_room_governed : chatRoomRest.governed Sample.roomR1.
Proof.
  split.
  - apply (bool_decide_unpack _). vm_compute. exact I.
  - intros _. vm_compute. lia.
Defined.

Lemma rest_removeParticipant_witness :
  chatRooms (db (chatRoomRest.removeParticipant "A" "R1" "B" Sample.w0).2)
  = <["R1" := ChatRoomMethods.removeParticipant Sample.roomR1 "B"]>
      (chatRooms (db Sample.w0))
  ∧ chatRoomRest.governed (ChatRoomMethods.removeParticipant Sample.roomR1 "B").
Proof.
  assert (resolves 3 Sample.w0 = true) as H1 by (vm_compute; reflexivity).
  assert (chatRooms (db Sample.w0) !! "R1" = Some Sample.roomR1) as H2
    by (vm_compute; reflexivity).
  assert (ChatRoom.type Sample.roomR1 = "group") as H3 by reflexivity.
  pose proof (rest_removeParticipant_keeps_an_admin
                Sample.w0 "A" "R1" "B" Sample.roomR1 H1 H2 H3 sample_room_governed)
    as H.
  cbv zeta in H. revert H.
  destruct (chatRoomRest.removeParticipant "A" "R1" "B" Sample.w0).1
    as [response|error] eqn:E.
  - intros (_ & _ & Hdb & _ & Hgov & _). split; [exact Hdb | exact Hgov].
  - vm_compute in E. discriminate E.
Defined.

Lemma rest_leaveGroup_witness :
  (chatRoomRest.leaveGroup "A" "R1" Sample.w0).1
  = Rest.Done (Rest.mkResponse 200 true (Some "Left group successfully") None)
  ∧ chatRoomRest.governed (chatRoomRest.departure Sample.roomR1 "A")
  ∧ ChatRoomMethods.members (chatRoomRest.departure Sample.roomR1 "A")
    = filter (λ v, v ≠ "A") (ChatRoomMethods.members Sample.roomR1).
Proof.
  destruct (rest_leaveGroup_hands_the_group_over Sample.w0 "A" "R1" Sample.roomR1)
    as (Hdone & _ & Hmembers & Hgov & _).
  - vm_compute; reflexivity.
  - vm_compute; reflexivity.
  - reflexivity.
  - exact sample_room_governed.
  - vm_compute; reflexivity.
  - split; [exact Hdone | split; [exact Hgov | exact Hmembers]].
Defined.

Lemma rest_addParticipant_witness :
  chatRooms (db (chatRoomRest.addParticipant "A" "R1" "X" Sample.w0).2)
  = <["R1" := ChatRoom.with_participants Sample.roomR1
                (ChatRoom.participants Sample.roomR1
                 ++ [ChatRoom.mkParticipant "X" "member" 7 7])]>
      (chatRooms (db Sample.w0)).
Proof.
  assert (resolves 3 Sample.w0 = true) as H1 by (vm_compute; reflexivity).
  assert (chatRooms (db Sample.w0) !! "R1" = Some Sample.roomR1) as H2
    by (vm_compute; reflexivity).
  assert (ChatRoom.type Sample.roomR1 = "group") as H3 by reflexivity.
  pose proof (rest_addParticipant_by_admins_only
                Sample.w0 "A" "R1" "X" Sample.roomR1 H1 H2 H3 sample_room_governed)
    as H.
  cbv zeta in H. revert H.
  destruct (chatRoomRest.addParticipant "A" "R1" "X" Sample.w0).1
    as [response|error] eqn:E.
  - intros (_ & _ & Hdb & _). exact Hdb.
  - vm_compute in E. discriminate E.
Defined.

Lemma rest_markAsRead_witness :
  outbox (chatRoomRest.markAsRead "B" "R1" Sample.w0).2 = outbox Sample.w0
  ∧ db (chatRoomRest.markAsRead "B" "R1" Sample.w0).2
    = db (exec (socketHandler.onMessagesRead Sample.sB1 "R1") Sample.w0).
Proof.
  assert (resolves 2 Sample.w0 = true) as H1 by (vm_compute; reflexivity).
  assert (chatRooms (db Sample.w0) !! "R1" = Some Sample.roomR1) as H2
    by (vm_compute; reflexivity).
  pose proof (rest_markAsRead_stores_without_announcing
                Sample.w0 Sample.sB1 "R1" Sample.roomR1 H1 H2) as H.
  cbv zeta in H. destruct H as [Hout H]. revert H.
  change (userId Sample.sB1) with "B".
  destruct (chatRoomRest.markAsRead "B" "R1" Sample.w0).1
    as [response|error] eqn:E.
  - intros (_ & _ & Hdb & _). split; [exact Hout | exact Hdb].
  - vm_compute in E. discriminate E.
Defined.

Lemma getMessages_witness :
  ∃ result,
    (MessageQueries.getMessages "R1" 1 50 None Sample.w0).1 = Return result
    ∧ length result ≤ 50
    ∧ Sorted (λ a b, Message.createdAt (MessageQueries.doc a)
                     ≤ Message.createdAt (MessageQueries.doc b)) result.
Proof.
  destruct (getMessages_returns_the_latest_of_the_room Sample.w0 "R1" 1 50 None)
    as (result & Hret & _ & Hlen & _ & Hsorted & _).
  - vm_compute; reflexivity.
  - lia.
  - lia.
  - exists result. split; [exact Hret | split; [exact Hlen | exact Hsorted]].
Defined.

Lemma rest_message_markAsRead_witness :
  messages (db (messageRest.markAsRead "B" "M1" Sample.w0).2)
  = <["M1" := MessageMethods.markAsRead Sample.messageM1 "B" 7]>
      (messages (db Sample.w0)).
Proof.
  assert (resolves 3 Sample.w0 = true) as H1 by (vm_compute; reflexivity).
  assert (messages (db Sample.w0) !! "M1" = Some Sample.messageM1) as H2
    by (vm_compute; reflexivity).
  pose proof (rest_message_markAsRead_is_for_room_members
                Sample.w0 "B" "M1" Sample.messageM1 H1 H2) as H.
  cbv zeta in H. destruct H as (_ & _ & H). revert H.
  destruct (messageRest.markAsRead "B" "M1" Sample.w0).1
    as [response|error] eqn:E.
  - intros (_ & Hdb & _). exact Hdb.
  - vm_compute in E. discriminate E.
Defined.

(** *** Unread counts *)

Lemma countDocuments_run (query : Message.t → bool) (w : World) :
  faults w = [] →
  messageRest.Message_countDocuments query w
  = (Return (length (filter (λ m, query m = true)
                            (map_to_list (messages (db w))).*2)), w).
Proof.
  intros Hf. unfold messageRest.Message_countDocuments. munfold.
  by rewrite Hf.
Qed.

Lemma tally_run (u : string) (w : World) (rooms : list ChatRoom.t) :
  faults w = [] →
  NoDup (ChatRoom._id <$> rooms) →
  ∀ total ru,
    (∀ id, id ∈ ChatRoom._id <$> rooms → ru !! id = None) →
    total = map_fold (λ _ n acc, n + acc) 0 ru →
    ∃ total' ru',
      messageRest.tally u rooms total ru w = (Return (total', ru'), w)
      ∧ total' = map_fold (λ _ n acc, n + acc) 0 ru'
      ∧ ∀ id n, ru' !! id = Some n ↔
          ru !! id = Some n
          ∨ ∃ room, room ∈ rooms ∧ ChatRoom._id room = id
                    ∧ unreadIn (db w) u room = n ∧ 0 < n.
Proof.
  intros Hf. induction rooms as [|room rooms IH]; intros Hnd total ru Hfresh Htotal.
  { exists total, ru. split; [done |]. split; [done |].
    intros id n. split; [by left |].
    intros [? | (room & Hin & _)]; [done | by apply elem_of_nil in Hin]. }
  rewrite fmap_cons in Hnd, Hfresh. apply NoDup_cons in Hnd as [Hroom Hnd].
  cbn [messageRest.tally]. unfold bind at 1.
  rewrite countDocuments_run by done.
  fold (unreadIn (db w) u room).
  destruct (Nat.ltb_spec 0 (unreadIn (db w) u room)) as [Hpos|Hzero].
  - destruct (IH Hnd (total + unreadIn (db w) u room)
                (<[ChatRoom._id room := unreadIn (db w) u room]> ru))
      as (total' & ru' & Hrun & Hsum & Hspec).
    + intros id Hid. rewrite lookup_insert_ne by (intros <-; done).
      apply Hfresh. by right.
    + rewrite map_fold_insert_L.
      * lia.
      * intros; lia.
      * apply Hfresh. by left.
    + exists total', ru'. split; [done |]. split; [done |].
      intros id n. rewrite Hspec. split.
      * intros [Hin | (room' & Hin & Hid & Hn)].
        -- destruct (decide (id = ChatRoom._id room)) as [->|Hne].
           ++ rewrite lookup_insert_eq in Hin. injection Hin as <-.
              right. exists room. split; [by left | done].
           ++ rewrite lookup_insert_ne in Hin by done. by left.
        -- right. exists room'. split; [by right | done].
      * intros [Hin | (room' & Hin & Hid & Hn & Hp)].
        -- left. rewrite lookup_insert_ne; [done |].
           intros <-. rewrite Hfresh in Hin; [done | by left].
        -- apply elem_of_cons in Hin as [-> | Hin].
           ++ left. subst id n. by rewrite lookup_insert_eq.
           ++ right. by exists room'.
  - destruct (IH Hnd total ru) as (total' & ru' & Hrun & Hsum & Hspec).
    + intros id Hid. apply Hfresh. by right.
    + done.
    + exists total', ru'. split; [done |]. split; [done |].
      intros id n. rewrite Hspec. split.
      * intros [Hin | (room' & Hin & Hid)]; [by left |].
        right. exists room'. split; [by right | done].
      * intros [Hin | (room' & Hin & Hid & Hn & Hp)]; [by left |].
        apply elem_of_cons in Hin as [-> | Hin]; [lia |].
        right. by exists room'.
Qed.

Lemma NoDup_fmap_filter {A B} (f : A → B) (P : A → Prop)
    `{!∀ x, Decision (P x)} (l : list A) :
  NoDup (f <$> l) → NoDup (f <$> filter P l).
Proof.
  induction l as [|x l IH]; [done |].
  rewrite fmap_cons, NoDup_cons, filter_cons. intros [Hx Hnd].
  destruct (decide (P x)); [| by apply IH].
  rewrite fmap_cons. apply NoDup_cons. split; [| by apply IH].
  intros [y [Hy Hin]]%list_elem_of_fmap. apply Hx.
  apply list_elem_of_fmap. exists y. split; [done |].
  by apply list_elem_of_filter in Hin as [_ Hin].
Qed.

Lemma rooms_ids (d : Db) :
  rooms_by_id d →
  ChatRoom._id <$> (map_to_list (chatRooms d)).*2 = (map_to_list (chatRooms d)).*1.
Proof.
  intros Hid. rewrite <- list_fmap_compose.
  apply list_fmap_ext. intros i [k room] Hin. simpl.
  apply Hid. apply elem_of_map_to_list. by eapply list_elem_of_lookup_2.
Qed.

Lemma getUnreadCount_spec (w : World) (u : string) :
  faults w = [] →
  rooms_by_id (db w) →
  ∃ response,
    messageRest.getUnreadCount u w = (Rest.Done response, w)
    ∧ messageRest.totalUnread response
      = map_fold (λ _ n acc, n + acc) 0 (messageRest.roomUnread response)
    ∧ ∀ id n, messageRest.roomUnread response !! id = Some n ↔
        ∃ room, chatRooms (db w) !! id = Some room
                ∧ ChatRoom.isParticipant room u = true
                ∧ ChatRoom.isActive room = true
                ∧ unreadIn (db w) u room = n ∧ 0 < n.
Proof.
  intros Hf Hid.
  set (rooms := filter (λ room, ChatRoom.isParticipant room u = true
                                ∧ ChatRoom.isActive room = true)
                       (map_to_list (chatRooms (db w))).*2).
  destruct (tally_run u w rooms Hf) with (total := 0) (ru := (∅ : gmap string nat))
    as (total' & ru' & Hrun & Hsum & Hspec).
  - subst rooms. apply NoDup_fmap_filter. rewrite rooms_ids by done.
    apply NoDup_fst_map_to_list.
  - intros id _. apply lookup_empty.
  - by rewrite map_fold_empty.
  - exists (messageRest.mkUnreadResponse total' ru').
    split; [| split; [done |]].
    + unfold messageRest.getUnreadCount, messageRest.ChatRoom_find.
      unfold Rest.bind, Rest.lift, Rest.pure. munfold. rewrite Hf.
      fold rooms. by rewrite Hrun.
    + intros id n. simpl. rewrite Hspec. split.
      * intros [Hin | (room & Hin & Hroom & Hn)];
          [by rewrite lookup_empty in Hin |].
        subst rooms. apply list_elem_of_filter in Hin as [[Hp Ha] Hin].
        apply list_elem_of_fmap in Hin as [[k room'] [-> Hin]].
        apply elem_of_map_to_list in Hin. simpl in *.
        exists room'. rewrite <- Hroom, (Hid k room' Hin). done.
      * intros (room & Hin & Hp & Ha & Hn). right. exists room.
        split; [| split; [by apply Hid | done]].
        subst rooms. apply list_elem_of_filter. split; [done |].
        apply list_elem_of_fmap. exists (id, room). split; [done |].
        by apply elem_of_map_to_list.
Qed.

(** The unread counts of a user, no awaited call rejecting and every
    room stored under its id.  A room is in the per-room table exactly when
    it is active, the user is one of its participants and it holds at least
    one message that is newer than the user's last read, written by
    somebody else and not deleted; its entry is the number of those
    messages; and the total is the sum of the entries.  Counting changes
    nothing. *)
Theorem unread_counts_cover_the_active_rooms_of_the_user
    (w : World) (u : string) :
  faults w = [] →
  rooms_by_id (db w) →
  let result := messageRest.getUnreadCount u w in
  ∃ response,
    result.1 = Rest.Done response
    ∧ result.2 = w
    ∧ messageRest.totalUnread response
      = map_fold (λ _ n acc, n + acc) 0 (messageRest.roomUnread response)
    ∧ ∀ id n, messageRest.roomUnread response !! id = Some n ↔
        ∃ room, chatRooms (db w) !! id = Some room
                ∧ ChatRoom.isParticipant room u = true
                ∧ ChatRoom.isActive room = true
                ∧ unreadIn (db w) u room = n ∧ 0 < n.
Proof.
  intros Hf Hid result. subst result.
  destruct (getUnreadCount_spec w u Hf Hid) as (response & Hrun & Hsum & Hspec).
  exists response. by rewrite Hrun.
Qed.

Lemma readSince_updateLastRead (room : ChatRoom.t) (u : string) (now : Date) :
  ChatRoom.isParticipant room u = true →
  messageRest.readSince (ChatRoom.updateLastRead room u now) u = now.
Proof.
  unfold messageRest.readSince, ChatRoom.updateLastRead, ChatRoom.isParticipant.
  simpl. induction (ChatRoom.participants room) as [|p ps IH]; [done |]. simpl.
  destruct (bool_decide_reflect (ChatRoom.user p = u)) as [Hp|Hp]; simpl.
  - intros _. by rewrite bool_decide_eq_true_2.
  - rewrite bool_decide_eq_false_2 by done. apply IH.
Qed.

(** A read receipt clears the unread count.  When a participant's
    messages:read for a room goes through, and no message of the room is
    dated later than the receipt, the room holds no unread message for
    that user afterwards, and the per-room table of the unread counts that
    are computed next has no entry for the room. *)
Theorem read_receipt_clears_the_unread_count
    (w : World) (socket : Socket) (room : ChatRoom.t) :
  resolves 2 w = true →
  chatRooms (db w) !! ChatRoom._id room = Some room →
  ChatRoom.isParticipant room (userId socket) = true →
  (∀ k m, messages (db w) !! k = Some m →
          Message.chatRoom m = ChatRoom._id room →
          Message.createdAt m ≤ clock w) →
  let w' := exec (socketHandler.onMessagesRead socket (ChatRoom._id room)) w in
  ∃ stored,
    chatRooms (db w') !! ChatRoom._id room = Some stored
    ∧ unreadIn (db w') (userId socket) stored = 0
    ∧ (faults w' = [] → rooms_by_id (db w') →
       ∃ response,
         (messageRest.getUnreadCount (userId socket) w').1 = Rest.Done response
         ∧ messageRest.roomUnread response !! ChatRoom._id room = None).
Proof.
  intros Hres Hroom Hin Hdated w'.
  set (stored := ChatRoom.updateLastRead room (userId socket) (clock w)).
  assert (db w' = mkDb (users (db w))
                       (<[ChatRoom._id room := stored]> (chatRooms (db w)))
                       (messages (db w))) as Hdb.
  { subst w' stored.
    unfold socketHandler.onMessagesRead, chatHandler.handleMarkAsRead,
      ChatRooms.findById, ChatRooms.save, socketHandler.emitError, resolves in *.
    munfold.
    destruct (faults w) as [|[] [|[] fs]] eqn:Hf; simpl in Hres;
      try discriminate; wsimpl; repeat (rewrite Hf; wsimpl);
      rewrite Hroom, Hin; simpl; wsimpl; repeat (rewrite Hf; wsimpl); done. }
  assert (chatRooms (db w') !! ChatRoom._id room = Some stored) as Hstored.
  { rewrite Hdb. simpl. apply lookup_insert_eq. }
  assert (unreadIn (db w') (userId socket) stored = 0) as Hzero.
  { unfold unreadIn. rewrite Hdb. simpl.
    apply length_zero_iff_nil, filter_none.
    intros m [[k m'] [-> Hm]]%list_elem_of_fmap.
    apply elem_of_map_to_list in Hm. simpl in *.
    unfold messageRest.unreadQuery. subst stored.
    rewrite readSince_updateLastRead by done.
    destruct (bool_decide_reflect (Message.chatRoom m' = ChatRoom._id room))
      as [Hc|Hc]; simpl; [| done].
    rewrite bool_decide_eq_false_2; [done |].
    specialize (Hdated k m' Hm Hc). lia. }
  exists stored. split; [done |]. split; [done |].
  intros Hf Hid.
  destruct (getUnreadCount_spec w' (userId socket) Hf Hid)
    as (response & Hrun & _ & Hspec).
  exists response. split; [by rewrite Hrun |].
  destruct (messageRest.roomUnread response !! ChatRoom._id room) as [n|] eqn:Hn;
    [| done].
  apply Hspec in Hn as (room' & Hroom' & _ & _ & Hcount & Hpos).
  rewrite Hstored in Hroom'. injection Hroom' as <-. lia.
Qed.

Lemma sample_rooms_by_id : rooms_by_id Sample.sampleDb.
Proof.
  apply (bool_decide_unpack
           (map_Forall (λ k room, ChatRoom._id room = k)
                       (chatRooms Sample.sampleDb))).
  vm_compute. exact I.
Defined.

Lemma unread_counts_witness :
  ∃ response,
    (messageRest.getUnreadCount "B" Sample.w0).1 = Rest.Done response
    ∧ messageRest.totalUnread response
      = map_fold (λ _ n acc, n + acc) 0 (messageRest.roomUnread response).
Proof.
  destruct (unread_counts_cover_the_active_rooms_of_the_user Sample.w0 "B")
    as (response & Hdone & _ & Hsum & _).
  - reflexivity.
  - exact sample_rooms_by_id.
  - exists response. split; [exact Hdone | exact Hsum].
Defined.

Lemma read_receipt_clears_witness :
  ∃ stored,
    chatRooms
      (db (exec (socketHandler.onMessagesRead Sample.sB1 "R1") Sample.w0)) !! "R1"
    = Some stored
    ∧ unreadIn (db (exec (socketHandler.onMessagesRead Sample.sB1 "R1") Sample.w0))
               "B" stored = 0.
Proof.
  destruct (read_receipt_clears_the_unread_count Sample.w0 Sample.sB1 Sample.roomR1)
    as (stored & Hstored & Hzero & _).
  - vm_compute; reflexivity.
  - vm_compute; reflexivity.
  - vm_compute; reflexivity.
  - apply (bool_decide_unpack
             (map_Forall (λ k m, Message.chatRoom m = "R1" → Message.createdAt m ≤ 7)
                         (messages Sample.sampleDb))).
    vm_compute. exact I.
  - exists stored. split; [exact Hstored | exact Hzero].
Defined.

(** *** The private chat of two users *)

Lemma privateBetween_sym (u1 u2 : string) (room : ChatRoom.t) :
  ChatRoomStatics.privateBetween u2 u1 room
  = ChatRoomStatics.privateBetween u1 u2 room.
Proof.
  unfold ChatRoomStatics.privateBetween.
  by rewrite (andb_comm (ChatRoom.isParticipant room u2)).
Qed.

Lemma privateBetween_members (u1 u2 : string) (room : ChatRoom.t) :
  u1 ≠ u2 →
  ChatRoomStatics.privateBetween u1 u2 room = true →
  ChatRoom.type room = "private"
  ∧ ∀ v, ChatRoom.isParticipant room v = true ↔ v = u1 ∨ v = u2.
Proof.
  unfold ChatRoomStatics.privateBetween, ChatRoom.isParticipant. intros Hne.
  rewrite !andb_true_iff, bool_decide_eq_true, Nat.eqb_eq.
  intros [[Htype [H1 H2]] Hlen]. split; [done |].
  destruct (ChatRoom.participants room) as [|p [|q [|r ps]]]; try done.
  simpl in *. rewrite !orb_false_r in *.
  rewrite orb_true_iff, !bool_decide_eq_true in H1, H2.
  intros v. rewrite orb_false_r, orb_true_iff, !bool_decide_eq_true.
  destruct H1 as [H1|H1], H2 as [H2|H2];
    split; intros [?|?]; first [congruence | left; congruence | right; congruence].
Qed.

Lemma createPrivateChat_run (w : World) (u1 u2 : string) (room : ChatRoom.t)
    (w' : World) :
  u1 ≠ u2 →
  ChatRoomStatics.findOrCreatePrivateChat u1 u2 w = (Return room, w') →
  faults w' = [] →
  chatRoomRest.createPrivateChat u1 u2 w
  = (Rest.Done
       (Rest.mkResponse 201 true None
          (Some (Rest.mkPopulatedRoom room
                   ((λ p, users (db w') !! ChatRoom.user p)
                      <$> ChatRoom.participants room)))),
     w').
Proof.
  intros Hne Hrun Hf. unfold chatRoomRest.createPrivateChat.
  rewrite bool_decide_eq_false_2 by congruence.
  unfold Rest.bind at 1, Rest.lift at 1. rewrite Hrun.
  unfold Rest.bind, Rest.lift, Rest.pure, Rest.populate. munfold.
  by rewrite Hf.
Qed.

(** The private chat of two different users is created once.  With no
    awaited call rejecting and the next id free, asking for the chat gives
    a private room whose participants are exactly the two users; it is
    stored only if no such room was there; and when the other user asks
    next, they get the same room and nothing more is stored.  The REST
    route answers 201 with that room, and refuses a chat with oneself
    before it looks anything up. *)
Theorem private_chat_is_created_once (w : World) (u1 u2 : string) :
  faults w = [] →
  u1 ≠ u2 →
  chatRooms (db w) !! ("room" +:+ pretty (nextId w)) = None →
  let first := ChatRoomStatics.findOrCreatePrivateChat u1 u2 w in
  let second := ChatRoomStatics.findOrCreatePrivateChat u2 u1 first.2 in
  ∃ room,
    first.1 = Return room
    ∧ second.1 = Return room
    ∧ ChatRoom.type room = "private"
    ∧ (∀ v, ChatRoom.isParticipant room v = true ↔ v = u1 ∨ v = u2)
    ∧ db second.2 = db first.2
    ∧ (chatRooms (db first.2) = chatRooms (db w)
       ∨ ((∀ k old, chatRooms (db w) !! k = Some old →
                    ChatRoomStatics.privateBetween u1 u2 old = false)
          ∧ chatRooms (db first.2)
            = <[ChatRoom._id room := room]> (chatRooms (db w))))
    ∧ (∃ response,
         (chatRoomRest.createPrivateChat u1 u2 w).1 = Rest.Done response
         ∧ Rest.status response = 201
         ∧ Rest.room <$> Rest.data response = Some room
         ∧ db (chatRoomRest.createPrivateChat u1 u2 w).2 = db first.2)
    ∧ chatRoomRest.createPrivateChat u1 u1 w
      = (Rest.Raised (Rest.BadRequestError "Cannot create chat with yourself"), w).
Proof.
  intros Hf Hne Hfree first second.
  assert (chatRoomRest.createPrivateChat u1 u1 w
          = (Rest.Raised (Rest.BadRequestError "Cannot create chat with yourself"),
             w)) as Hself.
  { unfold chatRoomRest.createPrivateChat.
    by rewrite bool_decide_eq_true_2 by done. }
  set (found := filter (λ room, ChatRoomStatics.privateBetween u1 u2 room = true)
                       (map_to_list (chatRooms (db w))).*2).
  assert (∀ d, filter (λ room, ChatRoomStatics.privateBetween u2 u1 room = true)
                      (map_to_list (chatRooms d)).*2
               = filter (λ room, ChatRoomStatics.privateBetween u1 u2 room = true)
                        (map_to_list (chatRooms d)).*2) as Hsym.
  { intros d. apply list_filter_iff. intros room. by rewrite privateBetween_sym. }
  destruct (head found) as [room|] eqn:Hhead.
  - assert (first = (Return room, w)) as Hfirst.
    { subst first. unfold ChatRoomStatics.findOrCreatePrivateChat,
        ChatRoomStatics.findOne. munfold. rewrite Hf. fold found.
      by rewrite Hhead. }
    assert (second = (Return room, w)) as Hsecond.
    { subst second. rewrite Hfirst. simpl.
      unfold ChatRoomStatics.findOrCreatePrivateChat, ChatRoomStatics.findOne.
      munfold. rewrite Hf, Hsym. fold found. by rewrite Hhead. }
    assert (room ∈ found) as Hin.
    { destruct found as [|r rs]; [done |]. injection Hhead as ->. left. }
    apply list_elem_of_filter in Hin as [Hmatch _].
    destruct (privateBetween_members u1 u2 room Hne Hmatch) as [Htype Hmembers].
    exists room. rewrite Hfirst, Hsecond.
    rewrite (createPrivateChat_run w u1 u2 room w) by done. simpl.
    repeat split; try done; try apply Hmembers; [by left | by eexists].
  - set (room := ChatRoom.mk ("room" +:+ pretty (nextId w)) "" "private"
                   [ChatRoom.mkParticipant u1 "member" (clock w) (clock w);
                    ChatRoom.mkParticipant u2 "member" (clock w) (clock w)]
                   u1 None true).
    set (w1 := with_db (mkDb (users (db w))
                          (<[ChatRoom._id room := room]> (chatRooms (db w)))
                          (messages (db w)))
                 (with_nextId (S (nextId w)) w)).
    assert (first = (Return room, w1)) as Hfirst.
    { subst first. unfold ChatRoomStatics.findOrCreatePrivateChat,
        ChatRoomStatics.findOne, ChatRoomStatics.create. munfold.
      rewrite Hf. fold found. rewrite Hhead. by rewrite Hf. }
    assert (ChatRoomStatics.privateBetween u1 u2 room = true) as Hmatch.
    { unfold ChatRoomStatics.privateBetween, ChatRoom.isParticipant. simpl.
      rewrite (bool_decide_eq_true_2 (u1 = u1)) by done.
      rewrite (bool_decide_eq_true_2 (u2 = u2)) by done.
      by rewrite orb_true_r. }
    assert (found = []) as Hnone by (by destruct found).
    assert (filter (λ room, ChatRoomStatics.privateBetween u1 u2 room = true)
                   (map_to_list (chatRooms (db w1))).*2 = [room]) as Hone.
    { apply Permutation_singleton_r. subst w1. simpl.
      rewrite map_to_list_insert by done.
      rewrite fmap_cons, filter_cons, decide_True by done. simpl.
      fold found. by rewrite Hnone. }
    assert (second = (Return room, w1)) as Hsecond.
    { subst second. rewrite Hfirst. simpl.
      unfold ChatRoomStatics.findOrCreatePrivateChat, ChatRoomStatics.findOne.
      munfold. replace (faults w1) with (faults w) by done.
      rewrite Hf, Hsym, Hone. done. }
    destruct (privateBetween_members u1 u2 room Hne Hmatch) as [Htype Hmembers].
    exists room. rewrite Hfirst, Hsecond.
    rewrite (createPrivateChat_run w u1 u2 room w1) by done. simpl.
    repeat split; try done; try apply Hmembers; [| by eexists].
    right. split; [| done].
    intros k old Hk.
    destruct (ChatRoomStatics.privateBetween u1 u2 old) eqn:Hold; [| done].
    assert (old ∈ found) as Hin; [| by rewrite Hnone in Hin; apply elem_of_nil in Hin].
    apply list_elem_of_filter. split; [done |].
    apply list_elem_of_fmap. exists (k, old). split; [done |].
    by apply elem_of_map_to_list.
Qed.

Lemma private_chat_witness :
  ∃ room,
    (ChatRoomStatics.findOrCreatePrivateChat "A" "X" Sample.w0).1 = Return room
    ∧ (ChatRoomStatics.findOrCreatePrivateChat "X" "A"
         (ChatRoomStatics.findOrCreatePrivateChat "A" "X" Sample.w0).2).1
      = Return room
    ∧ ChatRoom.type room = "private".
Proof.
  destruct (private_chat_is_created_once Sample.w0 "A" "X")
    as (room & Hfirst & Hsecond & Htype & _).
  - reflexivity.
  - apply (bool_decide_unpack _). vm_compute. exact I.
  - vm_compute; reflexivity.
  - exists room. split; [exact Hfirst | split; [exact Hsecond | exact Htype]].
Defined.

(** *** Pages *)



Lemma pagination_bounds (queryPage queryLimit : option nat) :
  1 ≤ (helpers.parsePagination queryPage queryLimit).1.1
  ∧ 1 ≤ (helpers.parsePagination queryPage queryLimit).1.2 ≤ 100.
Proof.
  unfold helpers.parsePagination. simpl.
  destruct queryPage as [[|p]|], queryLimit as [[|l]|]; simpl; lia.
Qed.

(** Reading a room's messages over REST, every awaited call resolving.
    A participant gets the page of [getMessages] for the parsed page and
    page size, never more than 100 messages, with the count of the room's
    messages that are not deleted as total; and without a word in the
    answer the room is stored with the reader's last-read time set to
    now, whichever page was asked for.  No message changes and nothing is
    sent.  Anybody else is refused with 403 and nothing changes. *)
Theorem rest_getMessages_marks_the_room_as_read
    (w : World) (actor roomId : string) (queryPage queryLimit : option nat)
    (before : option Date) (room : ChatRoom.t) :
  resolves 4 w = true →
  chatRooms (db w) !! roomId = Some room →
  let parsed := helpers.parsePagination queryPage queryLimit in
  let result :=
    messageRest.getMessages actor roomId queryPage queryLimit before w in
  outbox result.2 = outbox w
  ∧ messages (db result.2) = messages (db w)
  ∧ match result.1 with
    | Rest.Done response =>
        ChatRoom.isParticipant room actor = true
        ∧ (MessageQueries.getMessages roomId parsed.1.1 parsed.1.2 before w).1
          = Return (messageRest.messages_ response)
        ∧ length (messageRest.messages_ response) ≤ 100
        ∧ helpers.total (messageRest.pagination response)
          = length (filter (λ m, Message.chatRoom m = roomId
                                 ∧ Message.isDeleted m = false)
                           (map_to_list (messages (db w))).*2)
        ∧ chatRooms (db result.2)
          = <[ChatRoom._id room := ChatRoom.updateLastRead room actor (clock w)]>
              (chatRooms (db w))
    | Rest.Raised error =>
        ChatRoom.isParticipant room actor = false
        ∧ db result.2 = db w
        ∧ error = Rest.ForbiddenError "You are not a member of this chat room"
    end.
Proof.
  intros Hres Hroom parsed result.
  destruct (pagination_bounds queryPage queryLimit) as (Hpage & Hlimit).
  fold parsed in Hpage, Hlimit. subst result.
  unfold messageRest.getMessages. fold parsed.
  destruct parsed as [[page limit] skip]. simpl in Hpage, Hlimit. simpl.
  unfold MessageQueries.getMessages, messageRest.Message_countDocuments,
    resolves in *.
  runfold.
  rewrite !(bool_decide_eq_false_2 (page = 0)) by lia.
  rewrite !(bool_decide_eq_false_2 (limit = 0)) by lia.
  destruct (faults w) as [|[] [|[] [|[] [|[] fs]]]] eqn:Hf; simpl in Hres;
    try discriminate; wsimpl; repeat (rewrite ?Hf; wsimpl);
    rewrite Hroom; simpl; wsimpl.
  all: destruct (ChatRoom.isParticipant room actor) eqn:Hin; simpl;
    wsimpl; repeat (rewrite ?Hf; wsimpl); try done.
  all: repeat split; try done.
  all: try (cbn [messageRest.messages_];
            rewrite length_reverse, length_fmap, length_take; lia).
  all: cbn [messageRest.pagination helpers.createPaginationMeta helpers.total];
    f_equal; apply list_filter_iff; intros m;
    rewrite andb_true_iff, bool_decide_eq_true, negb_true_iff; done.
Qed.

Lemma rest_getMessages_witness :
  chatRooms (db (messageRest.getMessages "B" "R1" (Some 5) None None Sample.w0).2)
  = <["R1" := ChatRoom.updateLastRead Sample.roomR1 "B" 7]>
      (chatRooms (db Sample.w0)).
Proof.
  assert (resolves 4 Sample.w0 = true) as H1 by (vm_compute; reflexivity).
  assert (chatRooms (db Sample.w0) !! "R1" = Some Sample.roomR1) as H2
    by (vm_compute; reflexivity).
  pose proof (rest_getMessages_marks_the_room_as_read
                Sample.w0 "B" "R1" (Some 5) None None Sample.roomR1 H1 H2) as H.
  cbv zeta in H. destruct H as (_ & _ & H). revert H.
  destruct (messageRest.getMessages "B" "R1" (Some 5) None None Sample.w0).1
    as [response|error] eqn:E.
  - intros (_ & _ & _ & _ & Hdb). exact Hdb.
  - vm_compute in E. discriminate E.
Defined.
